(** * Google Takeout media backup: metadata matching and resolution engine

    A shallow embedding of the Pass 2 scripts of the repository
    ([scripts/process_media_*.py] and [scripts/2-process-media.py]) and the
    properties of its specification that were checked against it.

    Conventions of the embedding:
    - a Python [str] is a [list ascii]; the embedding covers ASCII file
      names ([lower] folds A-Z only, [\d] is 0-9);
    - [os.path] is the POSIX flavour ([/] is the only separator);
    - a Python [set] of strings is a list, read up to order and repetition;
      the code sorts a set before it iterates over it wherever the order
      is observable, except in one place that is modelled by an explicit
      parameter;
    - code that can raise returns a [py_result]; code with effects is a
      function in the monad [M] over the [world] (file system, console,
      metadata tool). *)

From Stdlib Require Import ZArith Ascii String List Bool Lia.
From Stdlib Require Import DecimalString DecimalNat.
From Stdlib Require Import PrimFloat SpecFloat FloatOps.
From stdpp Require Import gmap strings list sorting.

Set Warnings "-register-all,-inexact-float".
Local Open Scope Z_scope.
Local Open Scope list_scope.

(** ** Python strings *)

Abbreviation str := (list ascii).

Notation "$ s" := (list_ascii_of_string s) (at level 1, s at level 0, format "$ s").

Module Py.

Definition chr_eqb (a b : ascii) : bool := Ascii.eqb a b.

Definition is_dot (c : ascii) : bool := chr_eqb c "."%char.
Definition not_dot (c : ascii) : bool := negb (is_dot c).
Definition is_lparen (c : ascii) : bool := chr_eqb c "("%char.
Definition is_rparen (c : ascii) : bool := chr_eqb c ")"%char.
Definition is_nl (c : ascii) : bool := chr_eqb c "010"%char.
Definition not_nl (c : ascii) : bool := negb (is_nl c).
Definition is_sep (c : ascii) : bool := chr_eqb c "/"%char.

(** [\d] on ASCII text. *)
Definition is_digit (c : ascii) : bool :=
  let n := nat_of_ascii c in (48 <=? n)%nat && (n <=? 57)%nat.

(** [str.lower()] on ASCII text. *)
Definition lower_chr (c : ascii) : ascii :=
  let n := nat_of_ascii c in
  if (65 <=? n)%nat && (n <=? 90)%nat then ascii_of_nat (n + 32) else c.

Definition lower (s : str) : str := List.map lower_chr s.

Fixpoint str_eqb (a b : str) : bool :=
  match a, b with
  | [], [] => true
  | x :: a', y :: b' => chr_eqb x y && str_eqb a' b'
  | _, _ => false
  end.

(** [s.startswith(p)] *)
Fixpoint startswith (p s : str) : bool :=
  match p, s with
  | [], _ => true
  | x :: p', y :: s' => chr_eqb x y && startswith p' s'
  | _ :: _, [] => false
  end.

(** [s.endswith(p)] *)
Definition endswith (p s : str) : bool := startswith (rev p) (rev s).

(** [needle in hay] *)
Fixpoint contains (needle hay : str) : bool :=
  startswith needle hay ||
  match hay with
  | [] => false
  | _ :: t => contains needle t
  end.

(** [s.replace(old, '')]: every non-overlapping occurrence of [old], found
    from the left, is removed.  [skip] counts the characters of the
    occurrence being removed that are still to be dropped. *)
Fixpoint remove_all_from (old : str) (skip : nat) (s : str) : str :=
  match s with
  | [] => []
  | c :: t =>
      match skip with
      | S k => remove_all_from old k t
      | O => if startswith old s
             then remove_all_from old (length old - 1) t
             else c :: remove_all_from old 0 t
      end
  end.

Definition remove_all (old s : str) : str :=
  match old with
  | [] => s
  | _ => remove_all_from old 0 s
  end.

(** Length of the longest prefix whose characters all satisfy [p]: how far
    a greedy [p+] can run. *)
Fixpoint span_len (p : ascii -> bool) (s : str) : nat :=
  match s with
  | c :: t => if p c then S (span_len p t) else O
  | [] => O
  end.

(** Backtracking of a greedy quantifier with at least one repetition: the
    continuation is tried at [n], [n-1], ..., [1]. *)
Fixpoint first_down {A} (f : nat -> option A) (n : nat) : option A :=
  match n with
  | O => None
  | S k => match f n with
           | Some r => Some r
           | None => first_down f k
           end
  end.

(** Left-to-right search: the continuation is tried at [lo], [lo+1], ...,
    [lo+cnt-1].  Used for a lazy quantifier and for the start positions of
    [re.search]. *)
Fixpoint first_up {A} (f : nat -> option A) (lo cnt : nat) : option A :=
  match cnt with
  | O => None
  | S k => match f lo with
           | Some r => Some r
           | None => first_up f (S lo) k
           end
  end.

(** [$] without [re.MULTILINE]: the end of the string, or just before a
    newline that is its last character. *)
Definition at_eol (r : str) : bool :=
  match r with
  | [] => true
  | [c] => is_nl c
  | _ => false
  end.

(** Lexicographic order on code points, the order of [sorted] on strings. *)
Fixpoint str_leb (a b : str) : bool :=
  match a, b with
  | [], _ => true
  | _ :: _, [] => false
  | x :: a', y :: b' =>
      if (nat_of_ascii x <? nat_of_ascii y)%nat then true
      else if (nat_of_ascii y <? nat_of_ascii x)%nat then false
      else str_leb a' b'
  end.

Definition str_le (a b : str) : Prop := str_leb a b = true.

#[export] Instance str_le_dec a b : Decision (str_le a b).
Proof. unfold str_le. apply _. Defined.

(** [sorted(xs)] *)
Definition sorted (l : list str) : list str := merge_sort str_le l.

(** [sorted(set(xs))] *)
Definition sorted_set (l : list str) : list str := sorted (remove_dups l).

(** Truth value of an optional string: [None] and [''] are falsy. *)
Definition truthy (o : option str) : bool :=
  match o with
  | Some (_ :: _) => true
  | _ => false
  end.

(** [str(n)] for a natural number. *)
Definition str_of_nat (n : nat) : str :=
  list_ascii_of_string (NilEmpty.string_of_uint (Nat.to_uint n)).

End Py.

(** ** os.path (POSIX flavour) *)

Module OsPath.
Import Py.

(** [s.rfind(c)]: index of the last character that satisfies [p], [-1]
    when there is none. *)
Fixpoint rfind (p : ascii -> bool) (s : str) : Z :=
  match s with
  | [] => -1
  | c :: t =>
      let r := rfind p t in
      if (0 <=? r)%Z then r + 1
      else if p c then 0 else -1
  end.

(** [genericpath._splitext(p, '/', None, '.')]: the extension starts at
    the last dot of the last path component, unless only dots precede it
    in that component. *)
Definition splitext (p : str) : str * str :=
  let sepIndex := rfind is_sep p in
  let dotIndex := rfind is_dot p in
  if (sepIndex <? dotIndex)%Z then
    let filenameIndex := Z.to_nat (sepIndex + 1) in
    let dot := Z.to_nat dotIndex in
    if forallb is_dot (take (dot - filenameIndex) (drop filenameIndex p))
    then (p, [])
    else (take dot p, drop dot p)
  else (p, []).

(** [posixpath.basename] *)
Definition basename (p : str) : str :=
  drop (Z.to_nat (rfind is_sep p + 1)) p.

(** [posixpath.join(a, b)] *)
Definition join (a b : str) : str :=
  if startswith $"/" b then b
  else match a with
       | [] => b
       | _ => if endswith $"/" a then a ++ b else a ++ $"/" ++ b
       end.

End OsPath.

(** ** process_media_suffix.py *)

Module Suffix.
Import Py OsPath.

(** [(\.[^.]+)$] matched at the start of [r]: the extension group. *)
Definition re_ext_eol (r : str) : option str :=
  match r with
  | c :: e =>
      if is_dot c then
        first_down
          (fun j => if at_eol (drop j e) then Some (c :: take j e) else None)
          (span_len not_dot e)
      else None
  | [] => None
  end.

(** [\((\d{1,3})\)] or [\((\d+)\)] matched at the start of [r], followed by
    the continuation [k], which receives the digits and the rest.
    [bound] caps the greedy run of digits ([Nat.min 3] for [{1,3}], the
    identity for [+]). *)
Definition re_paren_digits {A} (bound : nat -> nat) (k : str -> str -> option A)
    (r : str) : option A :=
  match r with
  | c :: r1 =>
      if is_lparen c then
        first_down
          (fun n => match drop n r1 with
                    | c2 :: r2 => if is_rparen c2 then k (take n r1) r2 else None
                    | [] => None
                    end)
          (bound (span_len is_digit r1))
      else None
  | [] => None
  end.

Definition paren (digits : str) : str := $"(" ++ digits ++ $")".

(** [re.match(r"^(.+)\((\d{1,3})\)(\.[^.]+)$", filename)]: the groups
    (name, digits, extension) of the first match in backtracking order. *)
Definition re_suffix_before_ext (filename : str) : option (str * str * str) :=
  first_down
    (fun i =>
       re_paren_digits (Nat.min 3)
         (fun num r2 =>
            match re_ext_eol r2 with
            | Some ext => Some (take i filename, num, ext)
            | None => None
            end)
         (drop i filename))
    (span_len not_nl filename).

(** [re.match(r"^(.+\.[^.]+)\((\d{1,3})\)$", filename)]: the groups
    (base, digits). *)
Definition re_suffix_after_ext (filename : str) : option (str * str) :=
  first_down
    (fun i =>
       match drop i filename with
       | c :: e =>
           if is_dot c then
             first_down
               (fun j =>
                  re_paren_digits (Nat.min 3)
                    (fun num r2 =>
                       if at_eol r2
                       then Some (take i filename ++ c :: take j e, num)
                       else None)
                    (drop j e))
               (span_len not_dot e)
           else None
       | [] => None
       end)
    (span_len not_nl filename).

(** [re.match(r"^(?P<name>.+?)(?P<ext>\.[^.]+)(?P<suffix>\(\d+\))$", t)]:
    the groups (name, ext, suffix); the name is lazy. *)
Definition re_title_suffix_after_ext (t : str) : option (str * str * str) :=
  first_up
    (fun i =>
       match drop i t with
       | c :: e =>
           if is_dot c then
             first_down
               (fun j =>
                  re_paren_digits (fun n => n)
                    (fun num r2 =>
                       if at_eol r2
                       then Some (take i t, c :: take j e, paren num)
                       else None)
                    (drop j e))
               (span_len not_dot e)
           else None
       | [] => None
       end)
    1 (span_len not_nl t).

(** [re.search(r'(\(\d+\))(\.[^.]+)$', filename)]: group 1 of the leftmost
    match. *)
Definition re_search_google_suffix (filename : str) : option str :=
  first_up
    (fun p =>
       re_paren_digits (fun n => n)
         (fun num r2 =>
            match re_ext_eol r2 with
            | Some _ => Some (paren num)
            | None => None
            end)
         (drop p filename))
    0 (S (length filename)).

Definition normalize_title_variants (true_filename : str) : list str :=
  true_filename ::
  match re_title_suffix_after_ext true_filename with
  | Some (name, ext, suffix) => [name ++ suffix ++ ext]
  | None => []
  end.

Definition extract_google_suffix (filename : str) : option str :=
  re_search_google_suffix filename.

Definition extract_strict_media_suffix (filename : str) : option str :=
  match re_suffix_before_ext filename with
  | Some (_, num, _) => Some (paren num)
  | None =>
      match re_suffix_after_ext filename with
      | Some (_, num) => Some (paren num)
      | None => None
      end
  end.

(** Returns (base_without_suffix, suffix, suffix_after_ext variant,
    suffix_before_ext variant). *)
Definition split_media_suffix (filename : str)
    : str * option str * option str * option str :=
  match re_suffix_before_ext filename with
  | Some (name, num, ext) =>
      let suffix := paren num in
      let base_without_suffix := name ++ ext in
      let suffix_after_ext := base_without_suffix ++ suffix in
      let suffix_before_ext := filename in
      (base_without_suffix, Some suffix, Some suffix_after_ext, Some suffix_before_ext)
  | None =>
      match re_suffix_after_ext filename with
      | Some (base, num) =>
          let suffix := paren num in
          let base_without_suffix := base in
          let '(name, ext) := splitext base_without_suffix in
          let suffix_before_ext := name ++ suffix ++ ext in
          let suffix_after_ext := filename in
          (base_without_suffix, Some suffix, Some suffix_after_ext, Some suffix_before_ext)
      | None => (filename, None, None, None)
      end
  end.

Definition with_extension_variants (filename : str) : list str :=
  let '(name, ext) := splitext filename in
  filename ::
  (if str_eqb (lower ext) $".jpg" then [name ++ $".jpeg"]
   else if str_eqb (lower ext) $".jpeg" then [name ++ $".jpg"]
   else []).

(** The candidate set before [sorted(candidates)]. *)
Definition json_candidate_set (media_filename : str) : list str :=
  let '(base_without_suffix, suffix, suffix_after_ext, suffix_before_ext) :=
    split_media_suffix media_filename in
  let variants :=
    media_filename ::
    (if truthy suffix && truthy suffix_after_ext && truthy suffix_before_ext
     then default [] suffix_after_ext :: default [] suffix_before_ext :: nil
     else []) in
  let variants_with_ext := concat (List.map with_extension_variants variants) in
  let primary := List.map (fun variant => variant ++ $".json") variants_with_ext in
  let supplemental :=
    if truthy suffix then
      let sfx := default [] suffix in
      let base_variants := with_extension_variants base_without_suffix in
      concat (List.map (fun base =>
                [base ++ $".supplemental-metadata" ++ sfx ++ $".json";
                 base ++ $".sup" ++ sfx ++ $".json"]) base_variants)
      ++
      concat (List.map (fun variant =>
                [variant ++ $".supplemental-metadata.json";
                 variant ++ $".supplemental-metadata" ++ sfx ++ $".json";
                 variant ++ $".sup.json";
                 variant ++ $".sup" ++ sfx ++ $".json"]) variants_with_ext)
    else
      concat (List.map (fun variant =>
                [variant ++ $".supplemental-metadata.json";
                 variant ++ $".sup.json"]) variants_with_ext) in
  primary ++ supplemental.

Definition generate_json_candidates_for_media (media_filename : str) : list str :=
  sorted_set (json_candidate_set media_filename).

End Suffix.


(** ** Python run time: exceptions, JSON values, numbers, datetime *)

Module Rt.
Import Py.

Inductive exn :=
| ValueError | TypeError | AttributeError | OverflowError | OSError
| JSONDecodeError | BadZipFile | RuntimeError | SystemExit.

Inductive py_result (A : Type) :=
| Ok (a : A)
| Raise (e : exn).
Arguments Ok {A} a.
Arguments Raise {A} e.

Definition rbind {A B} (r : py_result A) (k : A -> py_result B) : py_result B :=
  match r with
  | Ok a => k a
  | Raise e => Raise e
  end.

(** [try: r except (e1, e2, ...): h] on a computation without effects. *)
Definition rcatch {A} (caught : exn -> bool) (r : py_result A) (h : py_result A)
    : py_result A :=
  match r with
  | Ok a => Ok a
  | Raise e => if caught e then h else Raise e
  end.

(** What [json.load] returns.  An object is the list of the entries of the
    resulting [dict], whose keys are distinct. *)
Inductive json :=
| JNull
| JBool (b : bool)
| JInt (z : Z)
| JFloat (f : float)
| JStr (s : str)
| JArr (items : list json)
| JObj (entries : list (str * json)).

Fixpoint assoc (k : str) (kv : list (str * json)) : option json :=
  match kv with
  | [] => None
  | (k', v) :: rest => if str_eqb k k' then Some v else assoc k rest
  end.

(** [d.get(k, dflt)]; only a dict has [get]. *)
Definition py_get (d : json) (k : str) (dflt : json) : py_result json :=
  match d with
  | JObj kv => Ok (default dflt (assoc k kv))
  | _ => Raise AttributeError
  end.

(** Truth value of a JSON value. *)
Definition json_truthy (v : json) : bool :=
  match v with
  | JNull => false
  | JBool b => b
  | JInt z => negb (z =? 0)
  | JFloat f => negb (PrimFloat.eqb f 0%float)
  | JStr s => match s with [] => false | _ => true end
  | JArr l => match l with [] => false | _ => true end
  | JObj kv => match kv with [] => false | _ => true end
  end.

Definition is_space (c : ascii) : bool :=
  let n := nat_of_ascii c in
  ((9 <=? n)%nat && (n <=? 13)%nat) || ((28 <=? n)%nat && (n <=? 32)%nat).

Fixpoint lstrip (s : str) : str :=
  match s with
  | c :: t => if is_space c then lstrip t else s
  | [] => []
  end.

Definition strip (s : str) : str := rev (lstrip (rev (lstrip s))).

Definition digit_value (c : ascii) : Z := Z.of_nat (nat_of_ascii c) - 48.

(** Digits of an integer literal after the first one; a single underscore
    may separate two digits. *)
Fixpoint int_digits (acc : Z) (after_underscore : bool) (s : str) : option Z :=
  match s with
  | [] => if after_underscore then None else Some acc
  | c :: t =>
      if is_digit c then int_digits (10 * acc + digit_value c) false t
      else if chr_eqb c "_"%char
           then (if after_underscore then None else int_digits acc true t)
           else None
  end.

Definition int_unsigned (s : str) : option Z :=
  match s with
  | c :: t => if is_digit c then int_digits (digit_value c) false t else None
  | [] => None
  end.

(** The white space that [int] skips around an ASCII literal: the
    characters of C's [isspace]. *)
Definition is_int_space (c : ascii) : bool :=
  let n := nat_of_ascii c in
  ((9 <=? n)%nat && (n <=? 13)%nat) || (n =? 32)%nat.

Fixpoint int_lstrip (s : str) : str :=
  match s with
  | c :: t => if is_int_space c then int_lstrip t else s
  | [] => []
  end.

Definition int_strip (s : str) : str := rev (int_lstrip (rev (int_lstrip s))).

(** [sys.get_int_max_str_digits()], as the interpreter sets it. *)
Definition int_max_str_digits : nat := 4300.

(** [int(s)] for a string in base 10: surrounding white space, an optional
    sign, ASCII digits; a literal of more than [int_max_str_digits] digits
    is refused. *)
Definition int_of_str (s : str) : py_result Z :=
  let body := int_strip s in
  let r := match body with
           | c :: t =>
               if chr_eqb c "-"%char then option_map Z.opp (int_unsigned t)
               else if chr_eqb c "+"%char then int_unsigned t
               else int_unsigned body
           | [] => None
           end in
  match r with
  | Some z =>
      if (int_max_str_digits <? length (List.filter is_digit body))%nat
      then Raise ValueError
      else Ok z
  | None => Raise ValueError
  end.

(** [int(f)] for a float: truncation toward zero. *)
Definition int_of_float (f : float) : py_result Z :=
  match Prim2SF f with
  | S754_zero _ => Ok 0
  | S754_nan => Raise ValueError
  | S754_infinity _ => Raise OverflowError
  | S754_finite s m e =>
      let mag := if (0 <=? e)%Z then Z.shiftl (Z.pos m) e
                 else Z.shiftr (Z.pos m) (- e) in
      Ok (if s then - mag else mag)
  end.

(** [float(n)] for an integer: rounding to the nearest double. *)
Definition float_of_int (z : Z) : py_result float :=
  match binary_normalize prec emax z 0 false with
  | S754_infinity _ => Raise OverflowError
  | sf => Ok (SF2Prim sf)
  end.

(** [int(v)] for a JSON value. *)
Definition py_int (v : json) : py_result Z :=
  match v with
  | JInt z => Ok z
  | JBool b => Ok (if b then 1 else 0)
  | JFloat f => int_of_float f
  | JStr s => int_of_str s
  | JNull | JArr _ | JObj _ => Raise TypeError
  end.

(** [float(v)] for a JSON value; the parser of [float(s)] for a string is
    the interpreter's and is a parameter. *)
Definition py_float (float_of_str : str -> option float) (v : json)
    : py_result float :=
  match v with
  | JInt z => float_of_int z
  | JBool b => Ok (if b then 1%float else 0%float)
  | JFloat f => Ok f
  | JStr s => match float_of_str s with
              | Some f => Ok f
              | None => Raise ValueError
              end
  | JNull | JArr _ | JObj _ => Raise TypeError
  end.

(** A [datetime] (naive, or aware in UTC). *)
Record datetime := mk_datetime {
  year : Z; month : Z; day : Z; hour : Z; minute : Z; second : Z
}.

(** Gregorian date of a day number counted from 1970-01-01. *)
Definition civil_from_days (days : Z) : Z * Z * Z :=
  let z := days + 719468 in
  let era := z / 146097 in
  let doe := z - era * 146097 in
  let yoe := (doe - doe / 1460 + doe / 36524 - doe / 146096) / 365 in
  let y := yoe + era * 400 in
  let doy := doe - (365 * yoe + yoe / 4 - yoe / 100) in
  let mp := (5 * doy + 2) / 153 in
  let d := doy - (153 * mp + 2) / 5 + 1 in
  let m := if mp <? 10 then mp + 3 else mp - 9 in
  (if m <=? 2 then y + 1 else y, m, d).

(** First and last second of the years 1 to 9999, the range of
    [datetime]. *)
Definition min_datetime_ts : Z := -62135596800.
Definition max_datetime_ts : Z := 253402300799.

(** [datetime.fromtimestamp(t, timezone.utc)] for an integer [t].  A value
    outside the years 1-9999 raises: [OverflowError] when [t] does not fit
    the platform's [time_t], otherwise [ValueError] (on some platforms
    [OSError]; every handler of this code base that catches one catches
    the other).  Platforms whose [gmtime] rejects negative values are not
    modelled. *)
Definition fromtimestamp_utc (t : Z) : py_result datetime :=
  if (t <? - 2 ^ 63) || (2 ^ 63 <=? t) then Raise OverflowError
  else if (t <? min_datetime_ts) || (max_datetime_ts <? t) then Raise ValueError
  else
    let days := t / 86400 in
    let secs := t mod 86400 in
    let '(y, m, d) := civil_from_days days in
    Ok (mk_datetime y m d (secs / 3600) (secs mod 3600 / 60) (secs mod 60)).

(** [str(z)] for an integer. *)
Definition str_of_Z (z : Z) : str :=
  match z with
  | Z0 => $"0"
  | Zpos p => str_of_nat (Pos.to_nat p)
  | Zneg p => $"-" ++ str_of_nat (Pos.to_nat p)
  end.

(** [f"{n:02d}"], [f"{n:04d}"]: zero padding on the left. *)
Definition zero_pad (width : nat) (z : Z) : str :=
  let s := str_of_Z z in
  repeat "0"%char (width - length s) ++ s.

(** [date.strftime("%Y")], [date.strftime("%m")].  The year is formatted
    by the C library, which on Linux does not pad it (the year 702 gives
    [702]); the month has two digits. *)
Definition strftime_Y (d : datetime) : str := str_of_Z (year d).
Definition strftime_m (d : datetime) : str := zero_pad 2 (month d).

End Rt.


(** ** The world the scripts act on *)

Module Sys.
Import Py OsPath Rt.

(** What the metadata tool sees in a media file. *)
Record media := mk_media {
  payload : str;
  capture_time : option datetime;
  gps_tags : option (float * float);
  true_ext : str
}.

(** Content of a file.  [Json j] is the text of a JSON document that
    parses to [j]; [Text] is any other text, in lines; [Zip] is an archive
    with its members (relative name, content); [Corrupt] is an archive that
    cannot be opened. *)
Inductive content :=
| Media (m : media)
| Json (j : json)
| Text (lines : list str)
| Zip (members : list (str * content))
| Corrupt.

(** A command line handed to the metadata tool for writing. *)
Inductive exif_cmd :=
| WriteTimestamps (d : datetime) (path : str)
| WriteGPS (lat lon alt : float) (path : str).

(** The calls that can change something outside the process: on the file
    system, and to the collaborators that write. *)
Inductive event :=
| EvMakedirs (p : str)
| EvMove (src dst : str)
| EvCopy (src dst : str)
| EvAppend (file line : str)
| EvRemove (p : str)
| EvRmtree (root : str)
| EvExtract (archive target : str)
| EvExif (c : exif_cmd)
| EvNormalize (path : str).

(** The counters of [process_media_files]. *)
Record counts := mk_counts {
  files_processed_this_run : nat;
  matches_found : nat;
  warnings_found : nat;
  errors_found : nat
}.

(** [files] and [dirs] are the file system, [console] is what was printed,
    [trace] lists the calls that can change something, in the order in
    which they were made.
    [processed_media_files] is the set object that [run_pass2] creates and
    [process_media_files] updates in place; [locals] holds the counters of
    the running [process_media_files], so that an increment made before an
    exception is raised is kept. *)
Record world := mk_world {
  files : gmap str content;
  dirs : gset str;
  console : list str;
  trace : list event;
  processed_media_files : gset str;
  locals : counts
}.

Definition set_files (f : gmap str content -> gmap str content) (w : world) : world :=
  mk_world (f (files w)) (dirs w) (console w) (trace w)
           (processed_media_files w) (locals w).
Definition set_dirs (f : gset str -> gset str) (w : world) : world :=
  mk_world (files w) (f (dirs w)) (console w) (trace w)
           (processed_media_files w) (locals w).
Definition add_console (line : str) (w : world) : world :=
  mk_world (files w) (dirs w) (console w ++ [line]) (trace w)
           (processed_media_files w) (locals w).
Definition add_event (e : event) (w : world) : world :=
  mk_world (files w) (dirs w) (console w) (trace w ++ [e])
           (processed_media_files w) (locals w).
Definition set_processed (f : gset str -> gset str) (w : world) : world :=
  mk_world (files w) (dirs w) (console w) (trace w)
           (f (processed_media_files w)) (locals w).
Definition set_locals (f : counts -> counts) (w : world) : world :=
  mk_world (files w) (dirs w) (console w) (trace w)
           (processed_media_files w) (f (locals w)).

(** Computations with effects on the world that may raise.  What was done
    before an exception is raised stays done. *)
Definition M (A : Type) : Type := world -> py_result A * world.

Definition ret {A} (a : A) : M A := fun w => (Ok a, w).
Definition raise {A} (e : exn) : M A := fun w => (Raise e, w).
Definition bind {A B} (m : M A) (k : A -> M B) : M B :=
  fun w => match m w with
           | (Ok a, w') => k a w'
           | (Raise e, w') => (Raise e, w')
           end.
Definition lift {A} (r : py_result A) : M A := fun w => (r, w).

(** [try: m except (the exceptions in caught): h] *)
Definition try_except {A} (caught : exn -> bool) (m : M A) (h : exn -> M A) : M A :=
  fun w => match m w with
           | (Ok a, w') => (Ok a, w')
           | (Raise e, w') => if caught e then h e w' else (Raise e, w')
           end.

(** [except Exception]: everything but [SystemExit] ([sys.exit]). *)
Definition any_exception (e : exn) : bool :=
  match e with
  | SystemExit => false
  | _ => true
  end.

#[export] Instance M_ret : MRet M := @ret.
#[export] Instance M_bind : MBind M := fun A B k m => bind m k.

Definition get_world : M world := fun w => (Ok w, w).

(** A call of a collaborator that only reads files. *)
Definition read {A B} (f : gmap str content -> A -> py_result B) (a : A) : M B :=
  fun w => (f (files w) a, w).

(** A call of a collaborator that changes files; when it raises, it has
    changed nothing. *)
Definition act {A B} (f : gmap str content -> A -> py_result (B * gmap str content))
    (a : A) : M B :=
  fun w => match f (files w) a with
           | Ok (b, fs) => (Ok b, set_files (fun _ => fs) w)
           | Raise e => (Raise e, w)
           end.
Definition modify (f : world -> world) : M unit := fun w => (Ok tt, f w).

(** [for x in xs: body x] *)
Fixpoint for_each {A} (xs : list A) (body : A -> M unit) : M unit :=
  match xs with
  | [] => ret tt
  | x :: rest => bind (body x) (fun _ => for_each rest body)
  end.

(** [print(line)] *)
Definition print (line : str) : M unit := modify (add_console line).

(** The call is recorded in the trace. *)
Definition emit (e : event) : M unit := modify (add_event e).

(** [os.path.exists], [os.path.isdir] *)
Definition path_exists (p : str) : M bool :=
  fun w => (Ok (bool_decide (is_Some (files w !! p)) || bool_decide (p ∈ dirs w)), w).
Definition isdir (p : str) : M bool :=
  fun w => (Ok (bool_decide (p ∈ dirs w)), w).

(** The directories above [p]: its prefixes that end before a separator. *)
Fixpoint parents_from (seen : str) (rest : str) : list str :=
  match rest with
  | [] => []
  | c :: t =>
      (if is_sep c then match seen with [] => [] | _ => [seen] end else [])
      ++ parents_from (seen ++ [c]) t
  end.
Definition parents (p : str) : list str := parents_from [] p.

(** [os.makedirs(p, exist_ok=True)] *)
Definition makedirs (p : str) : M unit :=
  bind (emit (EvMakedirs p)) (fun _ w =>
    match files w !! p with
    | Some _ => (Raise OSError, w)
    | None => (Ok tt, set_dirs (fun d => d ∪ list_to_set (p :: parents p)) w)
    end).

(** Where a file lands when it is moved or copied to [dst]: inside [dst]
    when that is a directory. *)
Definition landing (w : world) (src dst : str) : str :=
  if bool_decide (dst ∈ dirs w) then join dst (basename src) else dst.

(** [shutil.move(src, dst)] for a file. *)
Definition move (src dst : str) : M unit :=
  bind (emit (EvMove src dst)) (fun _ w =>
    match files w !! src with
    | Some c => (Ok tt, set_files (fun f => <[landing w src dst := c]> (delete src f)) w)
    | None => (Raise OSError, w)
    end).

(** [shutil.copy2(src, dst)] *)
Definition copy2 (src dst : str) : M unit :=
  bind (emit (EvCopy src dst)) (fun _ w =>
    match files w !! src with
    | Some c => (Ok tt, set_files (fun f => <[landing w src dst := c]> f) w)
    | None => (Raise OSError, w)
    end).

(** [with open(p, 'a') as f: f.write(line + '\n')] on a text file. *)
Definition append_line (p line : str) : M unit :=
  bind (emit (EvAppend p line)) (fun _ w =>
    match files w !! p with
    | None => (Ok tt, set_files (fun f => <[p := Text [line]]> f) w)
    | Some (Text ls) => (Ok tt, set_files (fun f => <[p := Text (ls ++ [line])]> f) w)
    | Some _ => (Raise OSError, w)
    end).

(** The lines of a text file, [None] when the file does not exist. *)
Definition read_lines (p : str) : M (option (list str)) :=
  fun w => match files w !! p with
           | None => (Ok None, w)
           | Some (Text ls) => (Ok (Some ls), w)
           | Some _ => (Raise ValueError, w)
           end.

(** [os.remove(p)] *)
Definition remove (p : str) : M unit :=
  bind (emit (EvRemove p)) (fun _ w =>
    match files w !! p with
    | Some _ => (Ok tt, set_files (delete p) w)
    | None => (Raise OSError, w)
    end).

(** [p] lies below the directory [root]. *)
Definition under (root p : str) : bool :=
  startswith (if endswith $"/" root then root else root ++ $"/") p.

(** [shutil.rmtree(root, ignore_errors=True)] *)
Definition rmtree (root : str) : M unit :=
  bind (emit (EvRmtree root)) (fun _ => modify (fun w =>
    set_dirs (filter (fun d => under root d = false /\ d <> root))
      (set_files (filter (fun kv => under root kv.1 = false)) w))).

(** [with open(p) as f: json.load(f)] *)
Definition json_load (p : str) : M json :=
  fun w => match files w !! p with
           | Some (Json j) => (Ok j, w)
           | Some _ => (Raise JSONDecodeError, w)
           | None => (Raise OSError, w)
           end.

(** [zipfile.ZipFile(archive).extractall(target)]; the member names are
    relative paths. *)
Definition extractall (archive target : str) : M unit :=
  bind (emit (EvExtract archive target)) (fun _ w =>
    match files w !! archive with
    | Some (Zip members) =>
        (Ok tt,
         set_dirs (fun d => d ∪ {[target]})
           (set_files (fun f =>
              foldl (fun acc m => <[join target m.1 := m.2]> acc) f members) w))
    | Some _ => (Raise BadZipFile, w)
    | None => (Raise OSError, w)
    end).

(** The files below [root], as [os.walk] finds them (in no particular
    order). *)
Definition files_under (root : str) (w : world) : list str :=
  List.filter (under root) (map_to_list (files w)).*1.

(** The names in directory [d] ([os.listdir], files only, in no particular
    order). *)
Definition listdir (d : str) (w : world) : list str :=
  omap (fun p => if under d p && str_eqb (join d (basename p)) p
                 then Some (basename p) else None)
       (map_to_list (files w)).*1.

End Sys.

(** ** process_media_json.py *)

Module Json.
Import Py OsPath Rt Sys.

Definition min_timestamp : Z := 0.
Definition max_timestamp : Z := 1893456000.

(** [str(d)] for an aware datetime in UTC, and [d.strftime("%Y-%m-%d")]. *)
Definition str_of_datetime (d : datetime) : str :=
  zero_pad 4 (year d) ++ $"-" ++ zero_pad 2 (month d) ++ $"-" ++ zero_pad 2 (day d)
  ++ $" " ++ zero_pad 2 (hour d) ++ $":" ++ zero_pad 2 (minute d) ++ $":"
  ++ zero_pad 2 (second d) ++ $"+00:00".
Definition strftime_Ymd (d : datetime) : str :=
  zero_pad 4 (year d) ++ $"-" ++ zero_pad 2 (month d) ++ $"-" ++ zero_pad 2 (day d).

Definition warning_before_1970 (json_path : str) (t : Z) (d : datetime) : str :=
  $"WARNING: Timestamp before 1970 in '" ++ basename json_path ++ $"': "
  ++ str_of_Z t ++ $" (date: " ++ str_of_datetime d ++ $")".

Definition warning_after_2030 (json_path : str) (t : Z) (d : datetime) : str :=
  $"WARNING: Timestamp after 2030 in '" ++ basename json_path ++ $"': "
  ++ str_of_Z t ++ $" (date: " ++ strftime_Ymd d ++ $")".

(** [except (json.JSONDecodeError, IOError, ValueError, TypeError)] *)
Definition timestamp_errors (e : exn) : bool :=
  match e with
  | JSONDecodeError | OSError | ValueError | TypeError => true
  | _ => false
  end.

(** The [timestamp] field the extractor settles on: [photoTakenTime]
    first, [creationTime] when that one is missing or falsy. *)
Definition timestamp_field (data : json) : py_result json :=
  rbind (py_get data $"photoTakenTime" (JObj [])) (fun pt =>
  rbind (py_get pt $"timestamp" JNull) (fun timestamp =>
  if negb (json_truthy timestamp) then
    rbind (py_get data $"creationTime" (JObj [])) (fun ct =>
    py_get ct $"timestamp" JNull)
  else Ok timestamp)).

(** Try photoTakenTime first, fall back to creationTime. *)
Definition get_timestamp_from_json (json_path : str) : M (option Z) :=
  try_except timestamp_errors
    (data ← json_load json_path;
     timestamp ← lift (timestamp_field data);
     if negb (json_truthy timestamp) then ret None
     else
       timestamp_int ← lift (py_int timestamp);
       (if timestamp_int <? min_timestamp then
          d ← lift (fromtimestamp_utc timestamp_int);
          print (warning_before_1970 json_path timestamp_int d)
        else if max_timestamp <? timestamp_int then
          d ← lift (fromtimestamp_utc timestamp_int);
          print (warning_after_2030 json_path timestamp_int d)
        else ret tt);;
       ret (Some timestamp_int))
    (fun _ => ret None).

(** [abs(lat) < 0.0001 and abs(lon) < 0.0001]: the pair is Null Island. *)
Definition null_island (lat lon : float) : bool :=
  PrimFloat.ltb (PrimFloat.abs lat) 0x1.a36e2eb1c432dp-14%float
  && PrimFloat.ltb (PrimFloat.abs lon) 0x1.a36e2eb1c432dp-14%float.

Definition gps_valid (lat lon : float) : bool := negb (null_island lat lon).

Definition conversion_errors (e : exn) : bool :=
  match e with
  | ValueError | TypeError => true
  | _ => false
  end.

Section Gps.
Variable float_of_str : str -> option float.

(** The body of one [try] block of [get_valid_gps_from_supplemental]:
    the coordinates of one GPS block when they are valid. *)
Definition gps_of_block (geo : json) : py_result (option (float * float * float)) :=
  rbind (py_get geo $"latitude" (JInt 0)) (fun lat_v =>
  rbind (py_float float_of_str lat_v) (fun lat =>
  rbind (py_get geo $"longitude" (JInt 0)) (fun lon_v =>
  rbind (py_float float_of_str lon_v) (fun lon =>
  rbind (py_get geo $"altitude" (JInt 0)) (fun alt_v =>
  rbind (py_float float_of_str alt_v) (fun alt =>
  if negb (null_island lat lon) then Ok (Some (lat, lon, alt)) else Ok None)))))).

Definition gps_of_data (data : json) : py_result (option (float * float * float)) :=
  rbind (py_get data $"geoDataExif" (JObj [])) (fun geo_exif =>
  rbind (if json_truthy geo_exif
         then rcatch conversion_errors (gps_of_block geo_exif) (Ok None)
         else Ok None) (fun from_exif =>
  match from_exif with
  | Some g => Ok (Some g)
  | None =>
      rbind (py_get data $"geoData" (JObj [])) (fun geo_data =>
      if json_truthy geo_data
      then rcatch conversion_errors (gps_of_block geo_data) (Ok None)
      else Ok None)
  end)).

(** Extract valid GPS coordinates from supplemental JSON:
    (latitude, longitude, altitude), or [None]. *)
Definition get_valid_gps_from_supplemental (json_path : str)
    : M (option (float * float * float)) :=
  try_except any_exception
    (data ← json_load json_path;
     lift (gps_of_data data))
    (fun _ => ret None).

End Gps.

End Json.

(** ** process_media_exif.py: reading the embedded GPS *)

Module Exif.
Import Py Rt Json.

(** [s.splitlines()] for text whose line ends are newlines. *)
Fixpoint splitlines_from (cur : str) (s : str) : list str :=
  match s with
  | [] => match cur with [] => [] | _ => [cur] end
  | c :: t => if is_nl c then cur :: splitlines_from [] t
              else splitlines_from (cur ++ [c]) t
  end.
Definition splitlines (s : str) : list str := splitlines_from [] s.

Section EmbeddedGps.
Variable float_of_str : str -> option float.

(** [get_embedded_gps], given what the metadata tool printed for
    [-n -s -s -s -GPSLatitude -GPSLongitude], or the exception it raised.
    Returns (has_gps, is_valid). *)
Definition get_embedded_gps (tool : py_result str) : bool * bool :=
  match tool with
  | Raise _ => (false, false)
  | Ok stdout =>
      let output := strip stdout in
      match output with
      | [] => (false, false)
      | _ =>
          match splitlines output with
          | l0 :: l1 :: _ =>
              let lat_str := strip l0 in
              let lon_str := strip l1 in
              match lat_str, lon_str with
              | [], _ | _, [] => (false, false)
              | _, _ =>
                  match float_of_str lat_str, float_of_str lon_str with
                  | Some lat, Some lon =>
                      if null_island lat lon then (true, false) else (true, true)
                  | _, _ => (true, false)
                  end
              end
          | _ => (false, false)
          end
      end
  end.

End EmbeddedGps.

End Exif.

(** ** process_media_matching.py *)

Module Matching.
Import Py OsPath Suffix.

(** [s] starts with [pat] up to case; [pat] is in lower case. *)
Definition startswith_ci (pat s : str) : bool :=
  str_eqb pat (lower (take (length pat) s)).

(** [\.json$] matched at the start of [r] under [re.IGNORECASE]; returns
    what follows the match. *)
Definition re_json_eol (r : str) : option str :=
  if startswith_ci $".json" r && at_eol (drop 5 r) then Some (drop 5 r) else None.

(** [\.sup(\(\d+\))?\.json$] matched at the start of [r] under
    [re.IGNORECASE]; returns what follows the match. *)
Definition re_sup_json_at (r : str) : option str :=
  if startswith_ci $".sup" r then
    match re_paren_digits (fun n => n) (fun _ r2 => re_json_eol r2) (drop 4 r) with
    | Some rest => Some rest
    | None => re_json_eol (drop 4 r)
    end
  else None.

(** [re.search(r"\.sup(\(\d+\))?\.json$", s, re.IGNORECASE)]: the start of
    the leftmost match and what follows the match. *)
Definition re_search_sup_json (s : str) : option (nat * str) :=
  first_up
    (fun p => match re_sup_json_at (drop p s) with
              | Some rest => Some (p, rest)
              | None => None
              end)
    0 (S (length s)).

Definition is_supplemental_json_name (filename : str) : bool :=
  let lower := lower filename in
  if contains $".supplemental-metadata" lower then true
  else bool_decide (is_Some (re_search_sup_json lower)).

(** One turn of the loop of [match_json_for_media]. *)
Definition match_step (json_lookup : gmap str str) (acc : list str * list str)
    (name : str) : list str * list str :=
  match json_lookup !! lower name with
  | None | Some [] => acc
  | Some path =>
      if is_supplemental_json_name name
      then (acc.1, acc.2 ++ [path])
      else (acc.1 ++ [path], acc.2)
  end.

(** Return (primary_paths, supplemental_paths) for a given media file. *)
Definition match_json_for_media (media_filename : str) (json_lookup : gmap str str)
    : list str * list str :=
  let candidates := generate_json_candidates_for_media media_filename in
  foldl (match_step json_lookup) ([], []) candidates.

End Matching.

(** ** process_media_json_lookup.py *)

Module Lookup.
Import Py OsPath Suffix Matching.

(** Build a case-insensitive lookup: filename -> full path.  [listing] is
    [os.listdir(json_dir)]. *)
Definition build_json_lookup (json_dir : str) (listing : list str) : gmap str str :=
  foldl (fun lookup filename =>
           if endswith $".json" (lower filename)
           then <[lower filename := join json_dir filename]> lookup
           else lookup)
        ∅ listing.

(** [re.split(r"\.supplemental-metadata", filename, flags=re.IGNORECASE)[0]] *)
Definition before_supplemental_marker (filename : str) : str :=
  match first_up
          (fun p => if startswith_ci $".supplemental-metadata" (drop p filename)
                    then Some p else None)
          0 (S (length filename)) with
  | Some p => take p filename
  | None => filename
  end.

(** [re.sub(r"\.sup(\(\d+\))?\.json$", "", filename, flags=re.IGNORECASE)] *)
Definition strip_sup_json (filename : str) : str :=
  match re_search_sup_json filename with
  | Some (p, rest) => take p filename ++ rest
  | None => filename
  end.

(** The keys under which one supplemental file is indexed. *)
Definition supplemental_base_keys (base_name : str) : list str :=
  concat (List.map (fun variant =>
            lower variant ::
            match extract_google_suffix variant with
            | Some suffix => [lower (remove_all suffix variant)]
            | None => []
            end)
          (normalize_title_variants base_name)).

Definition index_add (full_path : str) (index : gmap str (list str)) (key : str)
    : gmap str (list str) :=
  let old := default [] (index !! key) in
  if bool_decide (full_path ∈ old) then <[key := old]> index
  else <[key := old ++ [full_path]]> index.

(** Build index of supplemental metadata files:
    base name without suffix -> list of supplemental file paths.
    [listing] is [os.listdir(json_repository_dir)]. *)
Definition build_supplemental_index (json_repository_dir : str) (listing : list str)
    : gmap str (list str) :=
  foldl (fun index filename =>
           let lower := lower filename in
           if negb (endswith $".json" lower) then index
           else
             let base_name :=
               if contains $".supplemental-metadata" lower
               then Some (before_supplemental_marker filename)
               else if bool_decide (is_Some (re_search_sup_json lower))
                    then Some (strip_sup_json filename)
                    else None in
             match base_name with
             | None => index
             | Some base_name =>
                 foldl (index_add (join json_repository_dir filename)) index
                       (supplemental_base_keys base_name)
             end)
        ∅ listing.

(** The first variant, in iteration order, with a suffix: the suffix and
    the variant without it. *)
Fixpoint first_google_suffix (variants : list str) : option (str * str) :=
  match variants with
  | [] => None
  | variant :: rest =>
      match extract_google_suffix variant with
      | Some found => Some (found, remove_all found variant)
      | None => first_google_suffix rest
      end
  end.

(** The exact names [find_all_supplemental_for_basename] accepts.  The
    code iterates over the set [variants] in the order of the set, which
    the language leaves open; [reversed] chooses between the two orders
    of its at most two elements. *)
Definition expected_supplemental_names (reversed : bool) (basename : str)
    : str * list str :=
  let variants := normalize_title_variants basename in
  let found := first_google_suffix (if reversed then rev variants else variants) in
  let suffix := option_map fst found in
  let base_without_suffix :=
    match found with
    | Some (_, (_ :: _) as b) => b
    | _ => basename
    end in
  let expected :=
    match suffix with
    | Some suffix =>
        let suffix_after_ext := base_without_suffix ++ suffix in
        let variants_with_suffix := variants ++ [suffix_after_ext] in
        concat (List.map (fun base_no =>
                  [base_no ++ $".supplemental-metadata" ++ suffix ++ $".json";
                   base_no ++ $".sup" ++ suffix ++ $".json"])
                (normalize_title_variants base_without_suffix))
        ++
        concat (List.map (fun variant =>
                  [variant ++ $".supplemental-metadata.json";
                   variant ++ $".supplemental-metadata" ++ suffix ++ $".json";
                   variant ++ $".sup.json";
                   variant ++ $".sup" ++ suffix ++ $".json"])
                variants_with_suffix)
    | None =>
        concat (List.map (fun variant =>
                  [variant ++ $".supplemental-metadata.json";
                   variant ++ $".sup.json"])
                variants)
    end in
  (base_without_suffix, expected).

(** Find ALL supplemental metadata files for a given media file. *)
Definition find_all_supplemental_for_basename (reversed : bool) (basename : str)
    (supplemental_index : gmap str (list str)) : list str :=
  let '(base_without_suffix, expected) :=
    expected_supplemental_names reversed basename in
  let base_name_key := lower base_without_suffix in
  let candidates := default [] (supplemental_index !! base_name_key) in
  match candidates with
  | [] => []
  | _ =>
      let expected_lower := List.map lower expected in
      List.filter (fun path =>
                bool_decide (lower (OsPath.basename path) ∈ expected_lower))
             candidates
  end.

End Lookup.


(** ** process_media_config.py, process_media_logs.py, process_media_paths.py *)

Module Config.

(** The paths of [ProcessMediaConfig] that Pass 2 uses. *)
Record ProcessMediaConfig := mk_config {
  extract_target_dir : str;
  json_repository_dir : str;
  takeout_archives_dir : str;
  exiftool_exe : str;
  exiftool_perl : str;
  final_library_dir : str;
  orphan_media_dir : str;
  path_too_long_dir : str;
  processed_log_file : str;
  processed_work_items_log_file : str;
  processed_archives_log_file : str;
  processed_standalone_log_file : str;
  path_too_long_log_file : str;
  exiftool_failures_log_file : str
}.

End Config.

Module Logs.
Import Py OsPath Rt Sys Config.

(** Reads the progress log and returns the set of already processed file
    paths. *)
Definition get_processed_files_log (cfg : ProcessMediaConfig) : M (gset str) :=
  lines ← read_lines (processed_log_file cfg);
  ret (match lines with
       | None => ∅
       | Some ls => list_to_set (List.map strip ls)
       end).

(** Appends a successfully processed media file path to the log. *)
Definition log_processed_file (file_path : str) (cfg : ProcessMediaConfig) : M unit :=
  append_line (processed_log_file cfg) file_path.

(** [os.path.normcase] is the identity on POSIX. *)
Definition normalize_archive_key (name : str) : str := $"archive:" ++ name.

(** [os.path.abspath] and [os.path.normpath] are not modelled: the path is
    taken to be absolute and normal already. *)
Definition normalize_standalone_key (path : str) : str := $"standalone:" ++ path.

Definition normalize_work_item_key (raw_key : str) : option str :=
  if startswith $"archive:" raw_key
  then Some (normalize_archive_key (strip (drop 8 raw_key)))
  else if startswith $"standalone:" raw_key
       then Some (normalize_standalone_key (strip (drop 11 raw_key)))
       else None.

Definition nonempty (s : str) : bool :=
  match s with [] => false | _ => true end.

Definition get_processed_work_items (cfg : ProcessMediaConfig) : M (gset str) :=
  work ← read_lines (processed_work_items_log_file cfg);
  archives ← read_lines (processed_archives_log_file cfg);
  standalone ← read_lines (processed_standalone_log_file cfg);
  ret (list_to_set
         (omap (fun line =>
                  match normalize_work_item_key (strip line) with
                  | Some key => if nonempty key then Some key else None
                  | None => None
                  end) (default [] work))
       ∪ list_to_set
           (omap (fun line => let name := strip line in
                              if nonempty name then Some (normalize_archive_key name)
                              else None) (default [] archives))
       ∪ list_to_set
           (omap (fun line => let path := strip line in
                              if nonempty path then Some (normalize_standalone_key path)
                              else None) (default [] standalone))).

Definition log_processed_work_item (work_item_key : str) (cfg : ProcessMediaConfig)
    : M unit :=
  match normalize_work_item_key work_item_key with
  | Some normalized_key =>
      if nonempty normalized_key
      then append_line (processed_work_items_log_file cfg) normalized_key
      else ret tt
  | None => ret tt
  end.

Definition log_path_too_long (media_path dest_path : str) (path_length : nat)
    (cfg : ProcessMediaConfig) : M unit :=
  append_line (path_too_long_log_file cfg)
    (media_path ++ $"|" ++ dest_path ++ $"|" ++ str_of_nat path_length).

Definition log_exiftool_failure (media_path error_msg : str)
    (cfg : ProcessMediaConfig) : M unit :=
  append_line (exiftool_failures_log_file cfg) (media_path ++ $"|" ++ error_msg).

End Logs.

Module Paths.
Import Py OsPath Rt Sys Config.

(** [os.path.abspath] is not modelled: both paths are taken to be absolute
    and normal. *)
Definition is_under_dir (path root_dir : str) : bool :=
  str_eqb path root_dir || under root_dir path.

Definition workbench_has_files (cfg : ProcessMediaConfig) : M bool :=
  d ← isdir (extract_target_dir cfg);
  if negb d then ret false
  else w ← get_world;
       ret (match files_under (extract_target_dir cfg) w with
            | [] => false
            | _ => true
            end).

Definition resolve_archive_path (archive_name : str) (cfg : ProcessMediaConfig)
    : M (option str) :=
  match archive_name with
  | [] => ret None
  | _ =>
      e ← path_exists archive_name;
      if startswith $"/" archive_name && e then ret (Some archive_name)
      else
        let candidate := join (takeout_archives_dir cfg) archive_name in
        found ← path_exists candidate;
        if (found : bool) then ret (Some candidate) else ret None
  end.

Definition extract_archive_to_workbench (archive_path : str) (force_extract : bool)
    (cfg : ProcessMediaConfig) : M unit :=
  match archive_path with
  | [] => raise SystemExit
  | _ =>
      if negb (endswith $".zip" (lower archive_path)) then raise SystemExit
      else
        (if force_extract then
           rmtree (extract_target_dir cfg);;
           makedirs (extract_target_dir cfg)
         else
           has ← workbench_has_files cfg;
           if (has : bool) then raise SystemExit
           else makedirs (extract_target_dir cfg));;
        extractall archive_path (extract_target_dir cfg);;
        print ($"Extracted archive to workbench: '" ++ archive_path ++ $"'")
  end.

(** Returns (is_valid, path_length). *)
Definition validate_path_length (path : str) (max_length : nat) : bool * nat :=
  let path_length := length path in
  ((path_length <? max_length)%nat, path_length).

End Paths.

(** ** process_media_workflow.py *)

Module Workflow.
Import Py OsPath Rt Sys Config Logs Paths Json Matching.

Inductive timestamp_source := Embedded | PrimaryJson | Supplemental.

(** The [log] callable that [run_pass2] hands over prints the message
    (after a time stamp, which is not modelled). *)
Definition log (message : str) : M unit := print message.

Definition list_media_files (root_dir : str) : M (list str) :=
  w ← get_world;
  ret (sorted (List.filter (fun p => negb (endswith $".json" (lower (basename p))))
                           (files_under root_dir w))).

Definition copy_jsons (json_paths : list str) (dest_dir : str) : M unit :=
  for_each (sorted_set json_paths) (fun path =>
    let dest_path := join dest_dir (basename path) in
    e ← path_exists dest_path;
    if negb e then copy2 path dest_path else ret tt).

(** Truth value of an optional integer: [None] and [0] are falsy. *)
Definition ts_truthy (ts : option Z) : bool :=
  match ts with
  | Some t => negb (t =? 0)
  | None => false
  end.

Fixpoint pick_timestamp_loop (paths : list str) : M (option Z) :=
  match paths with
  | [] => ret None
  | path :: rest =>
      ts ← get_timestamp_from_json path;
      if ts_truthy ts then ret ts else pick_timestamp_loop rest
  end.

Definition pick_timestamp_from_json_list (json_paths : list str) : M (option Z) :=
  pick_timestamp_loop (sorted json_paths).

(** [pathlib.Path(p).stem] *)
Definition path_stem (p : str) : str :=
  let name := basename p in
  let i := rfind is_dot name in
  if (0 <? i) && (i <? Z.of_nat (length name) - 1) then take (Z.to_nat i) name
  else name.

Definition get_media_bundle_dir (dest_root media_filename : str) : str :=
  let base_name := (splitext (basename media_filename)).1 in
  join dest_root base_name.

Definition incr_processed : M unit :=
  modify (set_locals (fun c => mk_counts (S (files_processed_this_run c))
    (matches_found c) (warnings_found c) (errors_found c))).
Definition incr_matches : M unit :=
  modify (set_locals (fun c => mk_counts (files_processed_this_run c)
    (S (matches_found c)) (warnings_found c) (errors_found c))).
Definition incr_warnings : M unit :=
  modify (set_locals (fun c => mk_counts (files_processed_this_run c)
    (matches_found c) (S (warnings_found c)) (errors_found c))).
Definition incr_errors : M unit :=
  modify (set_locals (fun c => mk_counts (files_processed_this_run c)
    (matches_found c) (warnings_found c) (S (errors_found c)))).

(** [processed_media_files.add(path)] *)
Definition mark_processed (path : str) : M unit :=
  modify (set_processed (fun s => s ∪ {[path]})).

Definition has_items (l : list str) : bool :=
  match l with [] => false | _ => true end.

Section ProcessMediaFiles.

Variable cfg : ProcessMediaConfig.
Variable float_of_str : str -> option float.

(** The collaborators that [process_media_files] receives as arguments:
    three readers of files, and two functions that act on files (what
    they print is not modelled). *)
Variable get_exif_datetime_fn : gmap str content -> str -> py_result (option datetime).
Variable get_real_extension_fn : gmap str content -> str -> py_result str.
Variable get_embedded_gps_fn : gmap str content -> str -> py_result (bool * bool).
Variable normalize_media_extension_fn :
  gmap str content -> str -> py_result (str * gmap str content).
Variable run_exiftool_fn :
  gmap str content -> exif_cmd -> py_result (unit * gmap str content).

Fixpoint pick_gps_loop (paths : list str) : M (option (float * float * float)) :=
  match paths with
  | [] => ret None
  | path :: rest =>
      gps ← get_valid_gps_from_supplemental float_of_str path;
      match gps with
      | Some g => ret (Some g)
      | None => pick_gps_loop rest
      end
  end.

Definition pick_gps_from_json_list (json_paths : list str)
    : M (option (float * float * float)) :=
  pick_gps_loop (sorted json_paths).

(** A write command goes to the metadata tool. *)
Definition run_exiftool_write (c : exif_cmd) : M unit :=
  emit (EvExif c);;
  act run_exiftool_fn c.

(** Lines 141-157: the capture time of one media file and where it comes
    from, [None] when no source has one. *)
Definition resolve_timestamp (media_file_path : str)
    (primary_jsons supplemental_jsons : list str)
    : M (option (datetime * timestamp_source)) :=
  embedded_dt ← read get_exif_datetime_fn media_file_path;
  match embedded_dt with
  | Some date => ret (Some (date, Embedded))
  | None =>
      primary_ts ← pick_timestamp_from_json_list primary_jsons;
      if ts_truthy primary_ts then
        date ← lift (fromtimestamp_utc (default 0 primary_ts));
        ret (Some (date, PrimaryJson))
      else
        supplemental_ts ← pick_timestamp_from_json_list supplemental_jsons;
        if ts_truthy supplemental_ts then
          date ← lift (fromtimestamp_utc (default 0 supplemental_ts));
          ret (Some (date, Supplemental))
        else ret None
  end.

(** Lines 160-170: no usable timestamp. *)
Definition send_to_needs_review (is_live_run : bool) (media_file_path base_name : str)
    (matched_jsons : list str) : M unit :=
  log ($"   - WARNING: No usable timestamp (embedded/JSON/supplemental) for '"
       ++ base_name ++ $"'. Sending to needs review.");;
  incr_warnings;;
  (if is_live_run then
     makedirs (orphan_media_dir cfg);;
     let dest_path := join (orphan_media_dir cfg) base_name in
     e ← path_exists dest_path;
     (if negb e then move media_file_path dest_path else ret tt);;
     copy_jsons matched_jsons (orphan_media_dir cfg);;
     log_processed_file media_file_path cfg
   else ret tt);;
  mark_processed media_file_path.

(** Lines 181-194: the destination path is too long. *)
Definition send_to_path_too_long (is_live_run : bool) (max_path_length : nat)
    (media_file_path base_name dest_media_path : str) (path_len : nat)
    (matched_jsons : list str) : M unit :=
  log ($"   - WARNING: Destination path too long (" ++ str_of_nat path_len
       ++ $" chars, max " ++ str_of_nat max_path_length ++ $")");;
  log ($"   - Moving to path-too-long review folder: '" ++ base_name ++ $"'");;
  (if is_live_run then
     makedirs (path_too_long_dir cfg);;
     let fallback_dest := join (path_too_long_dir cfg) base_name in
     e ← path_exists fallback_dest;
     (if negb e then move media_file_path fallback_dest else ret tt);;
     copy_jsons matched_jsons (path_too_long_dir cfg);;
     log_path_too_long media_file_path dest_media_path path_len cfg;;
     log_processed_file media_file_path cfg
   else ret tt);;
  incr_warnings;;
  mark_processed media_file_path.

Definition collision_warning : str :=
  $"   - WARNING: Media file already exists in destination. Skipping.".

Definition copied_message (matched_jsons : list str) (dest_dir : str) : str :=
  $"   - Copied " ++ str_of_nat (length matched_jsons) ++ $" JSON file(s) to '"
  ++ dest_dir ++ $"'".

(** Lines 199-205: the destination exists. *)
Definition skip_existing (media_file_path dest_dir : str)
    (matched_jsons : list str) : M unit :=
  log collision_warning;;
  incr_warnings;;
  (if has_items matched_jsons then
     copy_jsons matched_jsons dest_dir;;
     log (copied_message matched_jsons dest_dir)
   else ret tt);;
  log_processed_file media_file_path cfg;;
  incr_processed.

(** Lines 211-240: stamping the timestamp taken from a sidecar. *)
Definition embed_timestamp (timestamp_source : timestamp_source) (date : datetime)
    (media_file_path dest_media_path : str) (primary_jsons : list str) : M unit :=
  match timestamp_source with
  | PrimaryJson =>
      try_except any_exception
        (run_exiftool_write (WriteTimestamps date dest_media_path);;
         match primary_jsons with
         | first :: _ =>
             log ($"   - Merged timestamps from primary JSON ('"
                  ++ basename first ++ $"')")
         | [] => ret tt
         end)
        (fun _ =>
           log $"   - WARNING: Failed to merge timestamps from primary JSON";;
           log_exiftool_failure media_file_path $"primary_json" cfg)
  | Supplemental =>
      try_except any_exception
        (run_exiftool_write (WriteTimestamps date dest_media_path);;
         log $"   - Merged timestamps from supplemental metadata")
        (fun _ =>
           log $"   - WARNING: Failed to merge timestamps from supplemental metadata";;
           log_exiftool_failure media_file_path $"supplemental_timestamp" cfg)
  | Embedded => ret tt
  end.

(** Lines 246-263: GPS from the supplemental sidecars. *)
Definition embed_gps (media_file_path dest_media_path : str)
    (supplemental_jsons : list str) : M unit :=
  if has_items supplemental_jsons then
    '(has_gps, gps_valid) ← read get_embedded_gps_fn dest_media_path;
    if negb has_gps || negb gps_valid then
      valid_gps ← pick_gps_from_json_list supplemental_jsons;
      match valid_gps with
      | Some (lat, lon, alt) =>
          try_except any_exception
            (run_exiftool_write (WriteGPS lat lon alt dest_media_path);;
             log $"   - Added GPS from supplemental metadata")
            (fun _ =>
               log $"   - WARNING: Failed to merge GPS data";;
               log_exiftool_failure media_file_path $"supplemental_gps" cfg)
      | None => ret tt
      end
    else ret tt
  else ret tt.

(** Lines 207-266: the destination is free. *)
Definition commit_media (timestamp_source : timestamp_source) (date : datetime)
    (media_file_path dest_dir dest_media_path : str)
    (primary_jsons supplemental_jsons matched_jsons : list str) : M unit :=
  move media_file_path dest_media_path;;
  log ($"   - Moved media from workbench to '" ++ dest_dir ++ $"'");;
  emit (EvNormalize dest_media_path);;
  dest_media_path ← act normalize_media_extension_fn dest_media_path;
  embed_timestamp timestamp_source date media_file_path dest_media_path primary_jsons;;
  copy_jsons matched_jsons dest_dir;;
  (if has_items matched_jsons then log (copied_message matched_jsons dest_dir)
   else ret tt);;
  embed_gps media_file_path dest_media_path supplemental_jsons;;
  log_processed_file media_file_path cfg;;
  incr_processed.

(** Lines 268-277. *)
Definition dry_run_report (timestamp_source : timestamp_source)
    (dest_dir : str) (matched_jsons : list str) : M unit :=
  log ($"   - [DRY RUN] Would move media to '" ++ dest_dir ++ $"'");;
  match timestamp_source with
  | PrimaryJson => log $"   - [DRY RUN] Would embed timestamps from primary JSON"
  | Supplemental =>
      log $"   - [DRY RUN] Would embed timestamps from supplemental metadata"
  | Embedded => log $"   - [DRY RUN] Would preserve embedded timestamps"
  end;;
  (if has_items matched_jsons then
     log ($"   - [DRY RUN] Would copy " ++ str_of_nat (length matched_jsons)
          ++ $" JSON file(s) to '" ++ dest_dir ++ $"'")
   else ret tt);;
  incr_processed.

(** Where a resolved media file goes: (dest_dir, dest_media_path). *)
Definition destination (date : datetime) (media_file_path real_ext : str)
    : str * str :=
  let dest_root := join (join (final_library_dir cfg) (strftime_Y date))
                        (strftime_m date) in
  let dest_dir := get_media_bundle_dir dest_root media_file_path in
  (dest_dir, join dest_dir (path_stem media_file_path ++ real_ext)).

(** Lines 141-279: the body of the [try] for one media file. *)
Definition process_one_media (is_live_run : bool) (max_path_length : nat)
    (media_file_path base_name : str)
    (primary_jsons supplemental_jsons : list str) : M unit :=
  let matched_jsons := primary_jsons ++ supplemental_jsons in
  resolved ← resolve_timestamp media_file_path primary_jsons supplemental_jsons;
  match resolved with
  | None => send_to_needs_review is_live_run media_file_path base_name matched_jsons
  | Some (date, timestamp_source) =>
      real_ext ← read get_real_extension_fn media_file_path;
      let '(dest_dir, dest_media_path) := destination date media_file_path real_ext in
      let '(is_valid, path_len) := validate_path_length dest_media_path max_path_length in
      if negb is_valid then
        send_to_path_too_long is_live_run max_path_length media_file_path base_name
                              dest_media_path path_len matched_jsons
      else
        (if is_live_run then
           makedirs dest_dir;;
           e ← path_exists dest_media_path;
           if (e : bool) then skip_existing media_file_path dest_dir matched_jsons
           else commit_media timestamp_source date media_file_path dest_dir
                             dest_media_path primary_jsons supplemental_jsons
                             matched_jsons
         else dry_run_report timestamp_source dest_dir matched_jsons);;
        mark_processed media_file_path
  end.

(** Lines 126-285: one turn of the loop over the media files. *)
Definition process_media_file (json_lookup : gmap str str) (is_live_run : bool)
    (max_path_length : nat) (media_file_path : str) : M unit :=
  w ← get_world;
  if bool_decide (media_file_path ∈ processed_media_files w) then ret tt
  else
    let base_name := basename media_file_path in
    let '(primary_jsons, supplemental_jsons) :=
      match_json_for_media base_name json_lookup in
    let matched_jsons := primary_jsons ++ supplemental_jsons in
    (if has_items matched_jsons then
       incr_matches;;
       log ($"Matched JSON for '" ++ base_name ++ $"' (primary="
            ++ str_of_nat (length primary_jsons) ++ $", supplemental="
            ++ str_of_nat (length supplemental_jsons) ++ $")")
     else log ($"No JSON match for '" ++ base_name ++ $"'"));;
    try_except any_exception
      (process_one_media is_live_run max_path_length media_file_path base_name
                         primary_jsons supplemental_jsons)
      (fun _ =>
         log ($"   - ERROR processing '" ++ base_name ++ $"'");;
         log $"   - Stack trace";;
         incr_errors).

Definition process_media_files (media_files : list str) (json_lookup : gmap str str)
    (is_live_run : bool) (max_path_length : nat) : M counts :=
  modify (set_locals (fun _ => mk_counts 0 0 0 0));;
  for_each media_files (process_media_file json_lookup is_live_run max_path_length);;
  w ← get_world;
  ret (locals w).

End ProcessMediaFiles.

End Workflow.

(** ** 2-process-media.py *)

Module Pass2.
Import Py OsPath Rt Sys Config Logs Paths Json Matching Lookup Workflow.

Definition MAX_PATH_LENGTH : nat := 240.

(** A work item: its type ([archive]) and its path. *)
Definition work_item : Type := str * str.

Definition select_work_items (cfg : ProcessMediaConfig) (archive_name : str)
    (force_extract : bool) (processed_work_items : gset str) : M (list work_item) :=
  work_items ←
    (match archive_name with
     | _ :: _ =>
         archive_path ← resolve_archive_path archive_name cfg;
         match archive_path with
         | None => raise SystemExit
         | Some archive_path =>
             if endswith $".zip" (lower archive_path) then
               let archive_basename := basename archive_path in
               if bool_decide (normalize_archive_key archive_basename ∈ processed_work_items)
                  && negb force_extract
               then raise SystemExit
               else ret [($"archive", archive_path)]
             else raise SystemExit
         end
     | [] =>
         w ← get_world;
         let zip_files := sorted (List.filter (fun f => endswith $".zip" (lower f))
                                              (listdir (takeout_archives_dir cfg) w)) in
         match zip_files with
         | [] => raise SystemExit
         | _ =>
             let zip_files_to_try :=
               List.filter (fun z => negb (bool_decide
                              (normalize_archive_key z ∈ processed_work_items)))
                           zip_files in
             match zip_files_to_try with
             | [] => raise SystemExit
             | _ => ret (List.map (fun zip_name =>
                           ($"archive", join (takeout_archives_dir cfg) zip_name))
                         zip_files_to_try)
             end
         end
     end);
  match work_items with
  | [] => log $"WARNING: No work items selected. Use --archive-name to target a specific archive.";;
          ret work_items
  | _ => ret work_items
  end.

(** [work_items[:batch_size]] when [batch_size] is truthy. *)
Definition take_batch (batch_size : option Z) (work_items : list work_item)
    : list work_item :=
  match batch_size with
  | None | Some 0 => work_items
  | Some (Zpos n) => take (Pos.to_nat n) work_items
  | Some (Zneg n) => take (length work_items - Pos.to_nat n) work_items
  end.

Definition item_key_le (a b : work_item) : Prop :=
  str_le (lower (basename a.2)) (lower (basename b.2)).

#[export] Instance item_key_le_dec a b : Decision (item_key_le a b).
Proof. unfold item_key_le. apply _. Defined.

Section RunPass2.

Variable cfg : ProcessMediaConfig.
Variable float_of_str : str -> option float.
Variable get_exif_datetime : gmap str content -> str -> py_result (option datetime).
Variable get_real_extension_from_exiftool : gmap str content -> str -> py_result str.
Variable get_embedded_gps : gmap str content -> str -> py_result (bool * bool).
Variable normalize_media_extension :
  gmap str content -> str -> py_result (str * gmap str content).
Variable run_exiftool :
  gmap str content -> exif_cmd -> py_result (unit * gmap str content).

Definition clean_workbench_dir : M unit :=
  log $"Cleaning workbench extraction directory.";;
  rmtree (extract_target_dir cfg);;
  makedirs (extract_target_dir cfg);;
  log $"Workbench cleanup complete.".

(** Lines 243-277: extraction and processing of one archive; the result
    is [archive_completed]. *)
Definition process_archive (is_live_run : bool) (json_lookup : gmap str str)
    (item_path : str) : M bool :=
  try_except any_exception
    (w ← get_world;
     (match files w !! item_path with
      | Some _ => ret tt
      | None => raise OSError
      end);;
     log ($"Preparing to extract archive: '" ++ item_path ++ $"'");;
     extract_archive_to_workbench item_path true cfg;;
     log $"Extraction completed";;
     d ← isdir (extract_target_dir cfg);
     (if negb d then
        log ($"WARNING: Workbench extraction directory not found: '"
             ++ extract_target_dir cfg ++ $"'")
      else
        has ← workbench_has_files cfg;
        if negb has then
          log $"WARNING: Workbench contains no files. Only standalone media in takeout-archives can be matched."
        else ret tt);;
     archive_media_files ← list_media_files (extract_target_dir cfg);
     c ← process_media_files cfg float_of_str get_exif_datetime
           get_real_extension_from_exiftool get_embedded_gps
           normalize_media_extension run_exiftool
           archive_media_files json_lookup is_live_run MAX_PATH_LENGTH;
     log ($"Archive summary: " ++ str_of_nat (files_processed_this_run c)
          ++ $" processed, " ++ str_of_nat (matches_found c) ++ $" matched, "
          ++ str_of_nat (warnings_found c) ++ $" warnings, "
          ++ str_of_nat (errors_found c) ++ $" errors.");;
     ret true)
    (fun _ =>
       log ($"FATAL: Archive processing failed for '" ++ basename item_path ++ $"'");;
       ret false).

(** Lines 241-291: one turn of the loop over the work items. *)
Definition process_work_item (is_live_run clean_workbench : bool)
    (json_lookup : gmap str str) (archive_items : list work_item)
    (item : work_item) : M unit :=
  let '(item_type, item_path) := item in
  if str_eqb item_type $"archive" then
    archive_completed ← process_archive is_live_run json_lookup item_path;
    (if archive_completed && is_live_run then
       log ($"Marking archive as processed: '" ++ basename item_path ++ $"'");;
       let archive_key := normalize_archive_key (basename item_path) in
       log_processed_work_item archive_key cfg
     else ret tt);;
    (if archive_completed
        && (clean_workbench || (1 <? length archive_items)%nat)
     then clean_workbench_dir
     else ret tt)
  else log ($"Standalone processing is disabled. Skipping '" ++ item_path ++ $"'.").

(** Lines 232-300: from the selected work items to the end of the run. *)
Definition run_work_items (is_live_run : bool) (batch_size : option Z)
    (clean_workbench : bool) (work_items : list work_item) : M unit :=
  let work_items := merge_sort item_key_le work_items in
  let work_items := take_batch batch_size work_items in
  log ($"Selected " ++ str_of_nat (length work_items) ++ $" work item(s) for this run.");;
  w ← get_world;
  let json_lookup :=
    build_json_lookup (json_repository_dir cfg) (listdir (json_repository_dir cfg) w) in
  (if bool_decide (json_lookup = ∅) then log $"JSON repository is empty." else ret tt);;
  log ($"Found " ++ str_of_nat (size (processed_media_files w))
       ++ $" previously processed files in the log.");;
  let archive_items := List.filter (fun item => str_eqb item.1 $"archive") work_items in
  for_each work_items
    (process_work_item is_live_run clean_workbench json_lookup archive_items);;
  log $"---------------------------------------------";;
  log $"Pass 2 Complete for this run.";;
  log $"=============================================";;
  d ← isdir (extract_target_dir cfg);
  if clean_workbench && d then clean_workbench_dir else ret tt.

(** [run_pass2] without the status report ([show_status] is false). *)
Definition run_pass2 (is_live_run : bool) (batch_size : option Z)
    (archive_name : str) (force_extract clean_workbench : bool) : M unit :=
  log $"=============================================";;
  log $"=    Pass 2: Process Media Files (V6.2)     =";;
  log $"=============================================";;
  (if is_live_run
   then log $"*** RUNNING IN LIVE MODE. FILES WILL BE MODIFIED AND MOVED. ***"
   else log $"*** RUNNING IN DRY RUN MODE. NO FILES WILL BE CHANGED. ***");;
  (match batch_size with
   | None | Some 0 => ret tt
   | Some _ => log $"*** Operating in BATCH MODE. ***"
   end);;
  d1 ← isdir (json_repository_dir cfg);
  (if negb d1 then raise SystemExit else ret tt);;
  d2 ← isdir (takeout_archives_dir cfg);
  (if negb d2 then raise SystemExit else ret tt);;
  e1 ← path_exists (exiftool_exe cfg);
  e2 ← path_exists (exiftool_perl cfg);
  (if negb e1 && negb e2 then raise SystemExit else ret tt);;
  (if negb (nonempty archive_name) && (force_extract || clean_workbench) then
     e ← path_exists (processed_log_file cfg);
     if (e : bool) then
       try_except any_exception
         (remove (processed_log_file cfg);;
          log $"Cleared processed media log (--force-extract/--clean-workbench without --archive-name).")
         (fun _ => log $"WARNING: Failed to clear processed media log")
     else ret tt
   else ret tt);;
  processed_work_items ← get_processed_work_items cfg;
  processed ← get_processed_files_log cfg;
  modify (set_processed (fun _ => processed));;
  work_items ← select_work_items cfg archive_name force_extract processed_work_items;
  match work_items with
  | [] => ret tt
  | _ => run_work_items is_live_run batch_size clean_workbench work_items
  end.

End RunPass2.

End Pass2.

(** ** A metadata tool to run the code with

    The metadata tool is not part of the repository.  This simple one reads
    and writes the [media] record of a file; it stands for the wrappers of
    [process_media_exif.py] when the code is run on examples. *)

Module Tool.
Import Py OsPath Rt Sys Json Workflow.

Definition media_at (fs : gmap str content) (p : str) : option media :=
  match fs !! p with
  | Some (Media m) => Some m
  | _ => None
  end.

(** [pathlib.Path(p).suffix] *)
Definition path_suffix (p : str) : str :=
  let name := basename p in
  let i := rfind is_dot name in
  if (0 <? i) && (i <? Z.of_nat (length name) - 1) then drop (Z.to_nat i) name
  else [].

Definition get_exif_datetime (fs : gmap str content) (media_path : str)
    : py_result (option datetime) :=
  Ok (match media_at fs media_path with
      | Some m => capture_time m
      | None => None
      end).

Definition get_real_extension_from_exiftool (fs : gmap str content) (path : str)
    : py_result str :=
  Ok (match media_at fs path with
      | Some m => match true_ext m with
                  | [] => path_suffix path
                  | ext => ext
                  end
      | None => path_suffix path
      end).

Definition get_embedded_gps (fs : gmap str content) (media_path : str)
    : py_result (bool * bool) :=
  Ok (match media_at fs media_path with
      | Some m => match gps_tags m with
                  | Some (lat, lon) => (true, gps_valid lat lon)
                  | None => (false, false)
                  end
      | None => (false, false)
      end).

(** Renames a file whose extension disagrees with its content, unless the
    new name is taken. *)
Definition normalize_media_extension (fs : gmap str content) (path : str)
    : py_result (str * gmap str content) :=
  match get_real_extension_from_exiftool fs path with
  | Ok [] | Raise _ => Ok (path, fs)
  | Ok real_ext =>
      if str_eqb (lower (path_suffix path)) (lower real_ext) then Ok (path, fs)
      else
        let new_path := take (length path - length (path_suffix path)) path ++ real_ext in
        match fs !! new_path, fs !! path with
        | Some _, _ => Ok (path, fs)
        | None, Some c => Ok (new_path, <[new_path := c]> (delete path fs))
        | None, None => Raise OSError
        end
  end.

Definition run_exiftool (fs : gmap str content) (c : exif_cmd)
    : py_result (unit * gmap str content) :=
  match c with
  | WriteTimestamps d path =>
      match media_at fs path with
      | Some m => Ok (tt, <[path := Media (mk_media (payload m) (Some d) (gps_tags m)
                                                     (true_ext m))]> fs)
      | None => Raise RuntimeError
      end
  | WriteGPS lat lon _ path =>
      match media_at fs path with
      | Some m => Ok (tt, <[path := Media (mk_media (payload m) (capture_time m)
                                                     (Some (lat, lon)) (true_ext m))]> fs)
      | None => Raise RuntimeError
      end
  end.

End Tool.

(** ** process_media_recovery.py *)

Module Recovery.
Import Py OsPath Rt Sys Config Logs Paths Json Matching Lookup Workflow.

Section RecoverMedia.

Variable cfg : ProcessMediaConfig.
Variable float_of_str : str -> option float.
Variable reversed : bool.
Variable get_exif_datetime_fn : gmap str content -> str -> py_result (option datetime).
Variable get_real_extension_fn : gmap str content -> str -> py_result str.
Variable get_embedded_gps_fn : gmap str content -> str -> py_result (bool * bool).
Variable normalize_media_extension_fn :
  gmap str content -> str -> py_result (str * gmap str content).
Variable run_exiftool_fn :
  gmap str content -> exif_cmd -> py_result (unit * gmap str content).

Definition copy_if_absent (dest_dir : str) (paths : list str) : M unit :=
  for_each paths (fun supp_path =>
    let supp_dest := join dest_dir (basename supp_path) in
    e ← path_exists supp_dest;
    if negb e then copy2 supp_path supp_dest else ret tt).

(** Lines 117-132: the destination path is too long. *)
Definition recover_path_too_long (media_path dest_media_path : str) (path_len : nat)
    (all_supplemental : list str) : M unit :=
  makedirs (path_too_long_dir cfg);;
  let fallback_dest := join (path_too_long_dir cfg) (basename media_path) in
  e ← path_exists fallback_dest;
  (if negb e then
     (if is_under_dir media_path (takeout_archives_dir cfg)
      then copy2 media_path fallback_dest
      else move media_path fallback_dest);;
     emit (EvNormalize fallback_dest);;
     _ ← act normalize_media_extension_fn fallback_dest;
     ret tt
   else ret tt);;
  copy_if_absent (path_too_long_dir cfg) all_supplemental;;
  log_path_too_long media_path dest_media_path path_len cfg.

(** Lines 135-185: the live run. *)
Definition recover_commit (media_path dest_dir dest_media_path : str)
    (date : datetime) (from_supplemental : bool)
    (all_supplemental : list str) : M unit :=
  makedirs dest_dir;;
  e ← path_exists dest_media_path;
  (if negb e then
     if is_under_dir media_path (takeout_archives_dir cfg)
     then copy2 media_path dest_media_path
     else move media_path dest_media_path
   else ret tt);;
  emit (EvNormalize dest_media_path);;
  dest_media_path ← act normalize_media_extension_fn dest_media_path;
  (if from_supplemental then
     try_except any_exception
       (run_exiftool_write run_exiftool_fn (WriteTimestamps date dest_media_path))
       (fun _ =>
          print ($"WARNING: Failed to merge timestamps for " ++ basename media_path);;
          log_exiftool_failure media_path $"supplemental_timestamp" cfg)
   else ret tt);;
  copy_if_absent dest_dir all_supplemental;;
  match all_supplemental with
  | (_ :: _) as supplemental_path :: _ =>
      '(has_gps, gps_valid) ← read get_embedded_gps_fn dest_media_path;
      if negb has_gps || negb gps_valid then
        valid_gps ← get_valid_gps_from_supplemental float_of_str supplemental_path;
        match valid_gps with
        | Some (lat, lon, alt) =>
            try_except any_exception
              (run_exiftool_write run_exiftool_fn (WriteGPS lat lon alt dest_media_path))
              (fun _ =>
                 print ($"WARNING: Failed to merge GPS data for " ++ basename media_path);;
                 log_exiftool_failure media_path $"supplemental_gps" cfg)
        | None => ret tt
        end
      else ret tt
  | _ => ret tt
  end.

(** Recover media using fallback metadata (EXIF/supplemental).  Returns
    (recovered, reason). *)
Definition recover_media_with_fallback (media_path : str)
    (supplemental_index : gmap str (list str)) (dest_root : str)
    (is_live_run : bool) (max_path_length : nat) : M (bool * option str) :=
  date ← read get_exif_datetime_fn media_path;
  let all_supplemental :=
    find_all_supplemental_for_basename reversed (basename media_path)
                                       supplemental_index in
  '(date, from_supplemental) ←
    (match date, all_supplemental with
     | None, (_ :: _) as supplemental_path :: _ =>
         timestamp ← get_timestamp_from_json supplemental_path;
         if ts_truthy timestamp then
           d ← lift (fromtimestamp_utc (default 0 timestamp));
           ret (Some d, true)
         else ret (None, false)
     | _, _ => ret (date, false)
     end);
  match date with
  | None => ret (false, None)
  | Some date =>
      let dest_root_dir := join (join dest_root (strftime_Y date)) (strftime_m date) in
      let dest_dir := get_media_bundle_dir dest_root_dir media_path in
      real_ext ← read get_real_extension_fn media_path;
      let dest_media_path := join dest_dir (path_stem media_path ++ real_ext) in
      let '(is_valid, path_len) := validate_path_length dest_media_path max_path_length in
      if negb is_valid then
        (if is_live_run
         then recover_path_too_long media_path dest_media_path path_len all_supplemental
         else ret tt);;
        ret (false, None)
      else
        (if is_live_run
         then recover_commit media_path dest_dir dest_media_path date
                             from_supplemental all_supplemental
         else ret tt);;
        ret (true, Some (if (from_supplemental : bool) then $"supplemental" else $"exif"))
  end.

End RecoverMedia.

End Recovery.

(** ** Notions used to state the properties *)

Module Notions.
Import Py OsPath Rt Sys Config Json Matching Workflow.

(** A world with the files [fs] and nothing else. *)
Definition blank (fs : gmap str content) : world :=
  mk_world fs ∅ [] [] ∅ (mk_counts 0 0 0 0).

(** What [get_timestamp_from_json] returns for [path] on the files [fs]. *)
Definition sidecar_timestamp (fs : gmap str content) (path : str)
    : py_result (option Z) :=
  (get_timestamp_from_json path (blank fs)).1.

(** The sidecar yields the timestamp [t]. *)
Definition yields (fs : gmap str content) (path : str) (t : Z) : Prop :=
  sidecar_timestamp fs path = Ok (Some t).

(** The sidecar yields nothing the resolution chain uses: no timestamp,
    or the timestamp 0. *)
Definition absent (fs : gmap str content) (path : str) : Prop :=
  sidecar_timestamp fs path = Ok None \/ sidecar_timestamp fs path = Ok (Some 0).

(** [w'] differs from [w] in what was printed at most. *)
Definition printed_only (w w' : world) : Prop :=
  exists lines,
    w' = mk_world (files w) (dirs w) (console w ++ lines) (trace w)
                  (processed_media_files w) (locals w).

(** The picker, on the files alone: the first timestamp in the list that
    is neither missing nor 0; an extractor that raises ends the search. *)
Fixpoint pick_on_files (fs : gmap str content) (paths : list str)
    : py_result (option Z) :=
  match paths with
  | [] => Ok None
  | path :: rest =>
      match sidecar_timestamp fs path with
      | Ok ts => if ts_truthy ts then Ok ts else pick_on_files fs rest
      | Raise e => Raise e
      end
  end.

(** Every run of [m] relates the world before to the world after by [R]. *)
Definition preserves {A} (R : relation world) (m : M A) : Prop :=
  forall w, R w (m w).2.

(** [R] is a preorder that holds across printing. *)
Class Quiet (R : relation world) : Prop := {
  quiet_preorder :: PreOrder R;
  quiet_console line w : R w (add_console line w)
}.

(** [R] holds across any update of the counters, and of the set of
    processed files. *)
Class LocalsFree (R : relation world) : Prop :=
  free_locals f w : R w (set_locals f w).
Class ProcessedFree (R : relation world) : Prop :=
  free_processed f w : R w (set_processed f w).

(** [R] holds across any change of the file system. *)
Class FsFree (R : relation world) : Prop := {
  fs_files f w : R w (set_files f w);
  fs_dirs f w : R w (set_dirs f w)
}.

(** [R] holds across the recording of an event that satisfies [ok]. *)
Class Emits (ok : event -> Prop) (R : relation world) : Prop :=
  emits_event e w : ok e -> R w (add_event e w).

(** Nothing but the console, the counters and the set of processed files
    differs: no file, no directory, no call that can change something. *)
Definition untouched (w w' : world) : Prop :=
  files w' = files w /\ dirs w' = dirs w /\ trace w' = trace w.

(** The calls made from [w] to [w'] all satisfy [ok]. *)
Definition only_events (ok : event -> Prop) (w w' : world) : Prop :=
  exists extra, trace w' = trace w ++ extra /\ Forall ok extra.

(** The count of errors has not gone down and no file has left the set of
    processed files. *)
Definition progress_only (w w' : world) : Prop :=
  (errors_found (locals w) <= errors_found (locals w'))%nat
  /\ processed_media_files w ⊆ processed_media_files w'.

(** When [m] returns, the world satisfies [Q]. *)
Definition on_ok {A} (Q : world -> Prop) (m : M A) : Prop :=
  forall w a w', m w = (Ok a, w') -> Q w'.

(** Whatever [m] returns satisfies [P]. *)
Definition returns {A} (P : A -> Prop) (m : M A) : Prop :=
  forall w a, (m w).1 = Ok a -> P a.

(** The event is not the writing of an invalid GPS pair. *)
Definition gps_ok (e : event) : Prop :=
  match e with
  | EvExif (WriteGPS lat lon _ _) => gps_valid lat lon = true
  | _ => True
  end.

(** The coordinates, if any, are valid. *)
Definition valid_coordinates (g : option (float * float * float)) : Prop :=
  match g with
  | Some (lat, lon, _) => gps_valid lat lon = true
  | None => True
  end.

(** The calls that a dry run of [run_pass2] makes: the extraction
    directory of the workbench is emptied, created and filled; the log of
    processed files is removed when [clears] holds, and only then. *)
Definition dry_run_event (cfg : ProcessMediaConfig) (clears : bool) (e : event)
    : Prop :=
  e = EvRmtree (extract_target_dir cfg)
  \/ e = EvMakedirs (extract_target_dir cfg)
  \/ (exists archive, e = EvExtract archive (extract_target_dir cfg))
  \/ (clears = true /\ e = EvRemove (processed_log_file cfg)).

(** The calls of the cleaning of the workbench. *)
Definition cleanup_event (cfg : ProcessMediaConfig) (e : event) : Prop :=
  e = EvRmtree (extract_target_dir cfg) \/ e = EvMakedirs (extract_target_dir cfg).

(** The resolution chain, on the files alone. *)
Definition resolve_on_files (embedded : py_result (option datetime))
    (fs : gmap str content) (primary_jsons supplemental_jsons : list str)
    : py_result (option (datetime * timestamp_source)) :=
  rbind embedded (fun embedded_dt =>
  match embedded_dt with
  | Some date => Ok (Some (date, Embedded))
  | None =>
      rbind (pick_on_files fs (sorted primary_jsons)) (fun primary_ts =>
      if ts_truthy primary_ts then
        rbind (fromtimestamp_utc (default 0 primary_ts)) (fun date =>
        Ok (Some (date, PrimaryJson)))
      else
        rbind (pick_on_files fs (sorted supplemental_jsons)) (fun supplemental_ts =>
        if ts_truthy supplemental_ts then
          rbind (fromtimestamp_utc (default 0 supplemental_ts)) (fun date =>
          Ok (Some (date, Supplemental)))
        else Ok None))
  end).

(** [w0] is [w] after the announcement of a turn: something was printed
    and the count of matches may have gone up. *)
Definition announced (w w0 : world) : Prop :=
  files w0 = files w /\ dirs w0 = dirs w /\ trace w0 = trace w
  /\ processed_media_files w0 = processed_media_files w
  /\ errors_found (locals w0) = errors_found (locals w).

(** Neither the set of processed files nor the count of errors differs. *)
Definition unmarked (w w' : world) : Prop :=
  processed_media_files w' = processed_media_files w
  /\ errors_found (locals w') = errors_found (locals w).

(** The turns of a loop [for x in xs: body x]: each element with the world
    in which its turn starts.  A turn that raises ends the loop. *)
Fixpoint turn_starts {A} (body : A -> M unit) (xs : list A) (w : world)
    : list (A * world) :=
  match xs with
  | [] => []
  | x :: rest =>
      (x, w) :: match body x w with
                | (Ok _, w') => turn_starts body rest w'
                | (Raise _, _) => []
                end
  end.

(** [m] marks the file as processed as its last step: when it returns the
    file is in the set, when it raises the set is as before; the count of
    errors is as before in both cases. *)
Definition marks_last (f : str) (m : M unit) : Prop :=
  forall w,
    match m w with
    | (Ok _, w1) =>
        f ∈ processed_media_files w1
        /\ errors_found (locals w1) = errors_found (locals w)
    | (Raise _, w1) => unmarked w w1
    end.
(** No file differs and the console has only grown. *)
Definition logged (w w' : world) : Prop :=
  files w' = files w /\ exists lines, console w' = console w ++ lines.

(** No file but [x] has entered the set of processed files. *)
Definition marks_only (x : str) (w w' : world) : Prop :=
  processed_media_files w' ⊆ processed_media_files w ∪ {[x]}.

(** What a dry run logs as its decision for one media file, on the files
    [fs]: the destination and the source of the timestamp when a date is
    resolved and the destination path is short enough, the diversion to
    the path-too-long folder when it is not, the diversion to needs-review
    when no source has a timestamp, and the error when the processing
    raises an exception that the loop catches. *)
Definition dry_run_decision (cfg : ProcessMediaConfig)
    (get_exif_datetime_fn : gmap str content -> str -> py_result (option datetime))
    (get_real_extension_fn : gmap str content -> str -> py_result str)
    (json_lookup : gmap str str) (max_path_length : nat)
    (fs : gmap str content) (media_file_path : str) : list str :=
  let base_name := basename media_file_path in
  let matched := match_json_for_media base_name json_lookup in
  let failed (e : exn) :=
    if any_exception e then [ $"   - ERROR processing '" ++ base_name ++ $"'" ]
    else [] in
  match resolve_on_files (get_exif_datetime_fn fs media_file_path) fs
          matched.1 matched.2 with
  | Ok None =>
      [ $"   - WARNING: No usable timestamp (embedded/JSON/supplemental) for '"
        ++ base_name ++ $"'. Sending to needs review." ]
  | Ok (Some (date, timestamp_source)) =>
      match get_real_extension_fn fs media_file_path with
      | Ok real_ext =>
          let dest := destination cfg date media_file_path real_ext in
          if (length dest.2 <? max_path_length)%nat then
            [ $"   - [DRY RUN] Would move media to '" ++ dest.1 ++ $"'";
              match timestamp_source with
              | PrimaryJson =>
                  $"   - [DRY RUN] Would embed timestamps from primary JSON"
              | Supplemental =>
                  $"   - [DRY RUN] Would embed timestamps from supplemental metadata"
              | Embedded => $"   - [DRY RUN] Would preserve embedded timestamps"
              end ]
          else
            [ $"   - WARNING: Destination path too long ("
              ++ str_of_nat (length dest.2) ++ $" chars, max "
              ++ str_of_nat max_path_length ++ $")";
              $"   - Moving to path-too-long review folder: '" ++ base_name ++ $"'" ]
      | Raise e => failed e
      end
  | Raise e => failed e
  end.

(** [m] never exits the process. *)
Definition no_exit {A} (m : M A) : Prop :=
  forall w, (m w).1 <> Raise SystemExit.
(** What the loop of [match_json_for_media] collects: entries of the index
    under the lower-cased candidates, in the bucket the predicate chooses. *)
Definition hit_of (json_lookup : gmap str str) (candidates : list str)
    (supplemental : bool) (p : str) : Prop :=
  exists cand, cand ∈ candidates /\ json_lookup !! lower cand = Some p
               /\ is_supplemental_json_name cand = supplemental.

(** Every opening parenthesis of [s] opens the marker [(d)]. *)
Definition only_marker (d s : str) : Prop :=
  forall i rest, drop i s = "("%char :: rest ->
    exists rest', rest = d ++ ")"%char :: rest'.

End Notions.

(** ** Concrete inputs *)

Module Scenarios.
Import Py OsPath Rt Sys Config Json Workflow Notions.

Definition cfg : ProcessMediaConfig := mk_config
  $"/p/workbench/Takeout" $"/p/json-repository" $"/p/takeout-archives"
  $"/p/tools/exiftool.exe" $"/p/tools/perl.exe"
  $"/lib" $"/lib/__NEEDS_REVIEW__/unmatched-media"
  $"/lib/__NEEDS_REVIEW__/path-too-long"
  $"/p/workbench/.processed_files.log" $"/p/.processed_work_items_pass2.log"
  $"/p/.processed_archives_pass2.log" $"/p/.processed_standalone_pass2.log"
  $"/p/.path_too_long_pass2.log" $"/p/.exiftool_failures_pass2.log".

(** A sidecar whose [photoTakenTime.timestamp] is [ts]. *)
Definition sidecar (ts : json) : content :=
  Json (JObj [($"title", JStr $"IMG_0001.jpg");
              ($"photoTakenTime", JObj [($"timestamp", ts)])]).

(** A JPEG file with the embedded capture time [dt]. *)
Definition jpeg (dt : option datetime) : content :=
  Media (mk_media $"pixels" dt None $".jpg").

Definition media_path : str := $"/p/workbench/Takeout/IMG_0001.jpg".
Definition primary_path : str := $"/p/json-repository/IMG_0001.jpg.json".
Definition supplemental_path : str :=
  $"/p/json-repository/IMG_0001.jpg.supplemental-metadata.json".

(** A media file without embedded capture time, a primary sidecar with the
    timestamp [primary_ts] and a supplemental one with [supplemental_ts]. *)
Definition sidecar_files (primary_ts supplemental_ts : json) : gmap str content :=
  list_to_map [ (media_path, jpeg None);
                (primary_path, sidecar primary_ts);
                (supplemental_path, sidecar supplemental_ts) ].

(** The same with an embedded capture time. *)
Definition embedded_files (dt : datetime) (primary_ts : json) : gmap str content :=
  list_to_map [ (media_path, jpeg (Some dt));
                (primary_path, sidecar primary_ts) ].

(** [float(s)] on the strings of the examples. *)
Definition float_table (s : str) : option float :=
  if str_eqb s $"51.5" then Some 51.5%float
  else if str_eqb s $"0" then Some 0%float
  else if str_eqb s $"0.0" then Some 0%float
  else if str_eqb s $"100" then Some 100%float
  else None.

(** The project tree before a run: one archive [i.zip] with the given
    members, the JSON repository with the given sidecars (name, content),
    and the metadata tool. *)
Definition takeout_world (members : list (str * content))
    (sidecars : list (str * content)) : world :=
  mk_world
    (list_to_map
       (($"/p/takeout-archives/i.zip", Zip members)
        :: ($"/p/tools/exiftool.exe", Text [])
        :: List.map (fun kv => (join $"/p/json-repository" kv.1, kv.2)) sidecars))
    (list_to_set [ $"/p/json-repository"; $"/p/takeout-archives" ])
    [] [] ∅ (mk_counts 0 0 0 0).

(** [run_pass2] with the metadata tool of [Tool], on all pending archives,
    without batch, [--force-extract] or [--clean-workbench]. *)
Definition run (is_live_run : bool) (w : world) : py_result unit * world :=
  Pass2.run_pass2 cfg (fun _ => None) Tool.get_exif_datetime
    Tool.get_real_extension_from_exiftool Tool.get_embedded_gps
    Tool.normalize_media_extension Tool.run_exiftool
    is_live_run None [] false false w.

End Scenarios.

(** * Properties *)

(** The cases of [tests/test_suffix_logic.py] and
    [tests/test_filename_logic.py], replayed on the embedding. *)
Module SuffixTests.
Import Py OsPath Suffix.

Example strict_suffix_before_ext :
  extract_strict_media_suffix $"IMG_1234(2).JPG" = Some $"(2)".
Proof. reflexivity. Qed.

Example strict_suffix_after_ext :
  extract_strict_media_suffix $"IMG_1234.JPG(2)" = Some $"(2)".
Proof. reflexivity. Qed.

Example strict_suffix_zero :
  extract_strict_media_suffix $"IMG_1234(0).JPG" = Some $"(0)".
Proof. reflexivity. Qed.

Example strict_suffix_year :
  extract_strict_media_suffix $"IMG_1234(2020).JPG" = None.
Proof. reflexivity. Qed.

Example strict_suffix_plain :
  extract_strict_media_suffix $"IMG_1234.JPG" = None.
Proof. reflexivity. Qed.

Example google_suffix_mov :
  extract_google_suffix $"IMG_1234(2).MOV" = Some $"(2)"
  /\ extract_google_suffix $"IMG_1234.MOV" = None.
Proof. split; reflexivity. Qed.

Example candidates_suffixed :
  generate_json_candidates_for_media $"MOVIE(26).mp4" =
  [ $"MOVIE(26).mp4.json";
    $"MOVIE(26).mp4.sup(26).json";
    $"MOVIE(26).mp4.sup.json";
    $"MOVIE(26).mp4.supplemental-metadata(26).json";
    $"MOVIE(26).mp4.supplemental-metadata.json";
    $"MOVIE.mp4(26).json";
    $"MOVIE.mp4(26).sup(26).json";
    $"MOVIE.mp4(26).sup.json";
    $"MOVIE.mp4(26).supplemental-metadata(26).json";
    $"MOVIE.mp4(26).supplemental-metadata.json";
    $"MOVIE.mp4.sup(26).json";
    $"MOVIE.mp4.supplemental-metadata(26).json" ].
Proof. vm_compute. reflexivity. Qed.

Example candidates_unsuffixed :
  generate_json_candidates_for_media $"IMG_1234.JPG" =
  [ $"IMG_1234.JPG.json";
    $"IMG_1234.JPG.sup.json";
    $"IMG_1234.JPG.supplemental-metadata.json";
    $"IMG_1234.jpeg.json";
    $"IMG_1234.jpeg.sup.json";
    $"IMG_1234.jpeg.supplemental-metadata.json" ].
Proof. vm_compute. reflexivity. Qed.

End SuffixTests.

Module RtTests.
Import Py Rt.

Example int_of_str_plain : int_of_str $"1700000000" = Ok 1700000000.
Proof. reflexivity. Qed.

Example int_of_str_bad : int_of_str $"not-a-number" = Raise ValueError.
Proof. reflexivity. Qed.

Example int_of_str_separator :
  int_of_str ("028"%char :: $"1600000000") = Raise ValueError.
Proof. reflexivity. Qed.

Example int_of_str_signed : int_of_str $" -12 " = Ok (-12).
Proof. reflexivity. Qed.

Example fromtimestamp_2021 :
  fromtimestamp_utc 1628503872 = Ok (mk_datetime 2021 8 9 10 11 12).
Proof. reflexivity. Qed.

Example fromtimestamp_epoch :
  fromtimestamp_utc 0 = Ok (mk_datetime 1970 1 1 0 0 0).
Proof. reflexivity. Qed.

Example fromtimestamp_last :
  fromtimestamp_utc max_datetime_ts = Ok (mk_datetime 9999 12 31 23 59 59).
Proof. reflexivity. Qed.

Example fromtimestamp_first :
  fromtimestamp_utc min_datetime_ts = Ok (mk_datetime 1 1 1 0 0 0).
Proof. reflexivity. Qed.

Example float_of_int_100 : float_of_int 100 = Ok 100%float.
Proof. reflexivity. Qed.

Example int_of_float_trunc : int_of_float (-2.5)%float = Ok (-2).
Proof. reflexivity. Qed.

End RtTests.

(** Cases of [tests/test_media_io.py] and
    [tests/test_indexing_and_lookup.py]. *)
Module LookupTests.
Import Py OsPath Suffix Matching Lookup.

Example supplemental_names :
  is_supplemental_json_name $"IMG_1.JPG.supplemental-metadata(2).json" = true
  /\ is_supplemental_json_name $"IMG_1.JPG.SUP(2).json" = true
  /\ is_supplemental_json_name $"IMG_1.JPG.sup.json" = true
  /\ is_supplemental_json_name $"IMG_1.JPG.json" = false
  /\ is_supplemental_json_name $"IMG_1.JPG(2).json" = false.
Proof. repeat split; vm_compute; reflexivity. Qed.

Example index_and_find :
  let index := build_supplemental_index $"/repo"
                 [ $"IMG_1234.JPG.supplemental-metadata(2).json";
                   $"IMG_1234.JPG.supplemental-metadata.json";
                   $"IMG_1234.JPG.json" ] in
  find_all_supplemental_for_basename false $"IMG_1234(2).JPG" index
  = [ $"/repo/IMG_1234.JPG.supplemental-metadata(2).json" ].
Proof. vm_compute. reflexivity. Qed.

Example match_suffix_after_ext :
  match_json_for_media $"IMG_0006(2).jpg"
    (build_json_lookup $"/repo" [ $"IMG_0006.jpg(2).json"; $"IMG_0006.jpg.json" ])
  = ([ $"/repo/IMG_0006.jpg(2).json" ], []).
Proof. vm_compute. reflexivity. Qed.

End LookupTests.

(** ** Relations that every step of a computation preserves *)

Module Frames.
Import Py OsPath Rt Sys Config Logs Paths Json Matching Workflow Notions.

(** Running a sequence step by step. *)
Lemma mbind_ok {A B} (m : M A) (k : A -> M B) w a w1 :
  m w = (Ok a, w1) -> (m ≫= k) w = k a w1.
Proof. intros H. unfold mbind, M_bind, bind. by rewrite H. Qed.

Lemma mbind_raise {A B} (m : M A) (k : A -> M B) w e w1 :
  m w = (Raise e, w1) -> (m ≫= k) w = (Raise e, w1).
Proof. intros H. unfold mbind, M_bind, bind. by rewrite H. Qed.

Lemma try_except_ok {A} caught (m : M A) h w a w1 :
  m w = (Ok a, w1) -> try_except caught m h w = (Ok a, w1).
Proof. intros H. unfold try_except. by rewrite H. Qed.

Lemma try_except_caught {A} caught (m : M A) h w e w1 :
  m w = (Raise e, w1) -> caught e = true -> try_except caught m h w = h e w1.
Proof. intros H Hc. unfold try_except. by rewrite H, Hc. Qed.

Section Preserves.
Context (R : relation world) `{!Quiet R}.

Lemma preserves_ret {A} (a : A) : preserves R (ret a).
Proof. intros w. reflexivity. Qed.

Lemma preserves_mret {A} (a : A) : preserves R (mret a).
Proof. intros w. reflexivity. Qed.

Lemma preserves_raise {A} e : preserves R (@raise A e).
Proof. intros w. reflexivity. Qed.

Lemma preserves_lift {A} (r : py_result A) : preserves R (lift r).
Proof. intros w. reflexivity. Qed.

Lemma preserves_read {A B} (f : gmap str content -> A -> py_result B) a :
  preserves R (read f a).
Proof. intros w. reflexivity. Qed.

Lemma preserves_get_world : preserves R get_world.
Proof. intros w. reflexivity. Qed.

Lemma preserves_bind {A B} (m : M A) (k : A -> M B) :
  preserves R m -> (forall a, preserves R (k a)) -> preserves R (bind m k).
Proof.
  intros Hm Hk w. unfold bind. specialize (Hm w).
  destruct (m w) as [[a|e] w1]; simpl in *; [|done].
  etrans; [done | apply Hk].
Qed.

Lemma preserves_mbind {A B} (m : M A) (k : A -> M B) :
  preserves R m -> (forall a, preserves R (k a)) -> preserves R (m ≫= k).
Proof. apply preserves_bind. Qed.

Lemma preserves_try_except {A} caught (m : M A) (h : exn -> M A) :
  preserves R m -> (forall e, preserves R (h e)) ->
  preserves R (try_except caught m h).
Proof.
  intros Hm Hh w. unfold try_except. specialize (Hm w).
  destruct (m w) as [[a|e] w1]; simpl in *; [done|].
  destruct (caught e); [|done]. etrans; [done | apply Hh].
Qed.

Lemma preserves_for_each {A} (xs : list A) (body : A -> M unit) :
  (forall x, preserves R (body x)) -> preserves R (for_each xs body).
Proof.
  intros Hb. induction xs as [|x rest IH]; simpl.
  - apply preserves_ret.
  - apply preserves_bind; [apply Hb | intros _; apply IH].
Qed.

Lemma preserves_modify_console line : preserves R (modify (add_console line)).
Proof. intros w. apply quiet_console. Qed.

Lemma preserves_print line : preserves R (print line).
Proof. apply preserves_modify_console. Qed.

Lemma preserves_log line : preserves R (log line).
Proof. apply preserves_print. Qed.

Lemma preserves_set_locals `{!LocalsFree R} f : preserves R (modify (set_locals f)).
Proof. intros w. apply free_locals. Qed.

Lemma preserves_set_processed `{!ProcessedFree R} f :
  preserves R (modify (set_processed f)).
Proof. intros w. apply free_processed. Qed.

Lemma preserves_path_exists p : preserves R (path_exists p).
Proof. intros w. reflexivity. Qed.

Lemma preserves_isdir p : preserves R (isdir p).
Proof. intros w. reflexivity. Qed.

Lemma preserves_json_load p : preserves R (json_load p).
Proof. intros w. unfold json_load. by repeat case_match. Qed.

Lemma preserves_read_lines p : preserves R (read_lines p).
Proof. intros w. unfold read_lines. by repeat case_match. Qed.

End Preserves.

(** [apply], with the instances found by resolution. *)
Tactic Notation "tapply" uconstr(l) := (apply l; try exact _).

(** One step of a proof that a computation preserves a relation: the
    structure of the computation is taken apart, its leaves are looked up
    in the hint database [pres]. *)
Ltac pres_step :=
  first
    [ solve [eauto with pres typeclass_instances]
    | tapply preserves_mbind; [|intros ?]
    | tapply preserves_bind; [|intros ?]
    | tapply preserves_try_except; [|intros ?]
    | tapply preserves_for_each; intros ?
    | progress (lazy beta iota)
    | progress rewrite ?andb_false_r, ?andb_true_r
    | match goal with
      | |- preserves _ (if ?b then _ else _) => destruct b
      | |- preserves _ (match ?x with _ => _ end) => destruct x
      end ].

Ltac pres := repeat pres_step.

Create HintDb pres.

#[export] Hint Resolve preserves_ret preserves_mret preserves_raise preserves_lift
  preserves_read preserves_get_world preserves_modify_console preserves_print
  preserves_log preserves_set_locals preserves_set_processed preserves_path_exists
  preserves_isdir preserves_json_load preserves_read_lines : pres.

Section Readers.
Context (R : relation world) `{!Quiet R}.

Lemma preserves_get_timestamp path : preserves R (get_timestamp_from_json path).
Proof. unfold get_timestamp_from_json. pres. Qed.

Lemma preserves_pick_timestamp_loop paths : preserves R (pick_timestamp_loop paths).
Proof.
  induction paths as [|p rest IH]; simpl; [pres|].
  tapply preserves_mbind; [apply preserves_get_timestamp|].
  intros ts. destruct (ts_truthy ts); [pres | done].
Qed.

Lemma preserves_pick_timestamp paths :
  preserves R (pick_timestamp_from_json_list paths).
Proof. tapply preserves_pick_timestamp_loop. Qed.

Lemma preserves_get_valid_gps fos path :
  preserves R (get_valid_gps_from_supplemental fos path).
Proof. unfold get_valid_gps_from_supplemental. pres. Qed.

Lemma preserves_pick_gps fos paths : preserves R (pick_gps_from_json_list fos paths).
Proof.
  unfold pick_gps_from_json_list.
  induction (sorted paths) as [|p rest IH]; simpl; [pres|].
  tapply preserves_mbind; [apply preserves_get_valid_gps|].
  intros [g|]; [pres | done].
Qed.

Lemma preserves_resolve_timestamp get_exif media primary supp :
  preserves R (resolve_timestamp get_exif media primary supp).
Proof.
  unfold resolve_timestamp.
  pose proof preserves_pick_timestamp. pres.
Qed.

Section Counters.
Context `{!LocalsFree R, !ProcessedFree R}.

Lemma preserves_incr_processed : preserves R incr_processed.
Proof. tapply preserves_set_locals. Qed.
Lemma preserves_incr_matches : preserves R incr_matches.
Proof. tapply preserves_set_locals. Qed.
Lemma preserves_incr_warnings : preserves R incr_warnings.
Proof. tapply preserves_set_locals. Qed.
Lemma preserves_incr_errors : preserves R incr_errors.
Proof. tapply preserves_set_locals. Qed.
Lemma preserves_mark_processed p : preserves R (mark_processed p).
Proof. tapply preserves_set_processed. Qed.

Lemma preserves_dry_run_report src dest_dir matched :
  preserves R (dry_run_report src dest_dir matched).
Proof.
  unfold dry_run_report. pose proof preserves_incr_processed. pres.
Qed.

End Counters.

Lemma preserves_list_media_files root : preserves R (list_media_files root).
Proof. unfold list_media_files. pres. Qed.

End Readers.

#[export] Hint Resolve preserves_get_timestamp preserves_pick_timestamp
  preserves_get_valid_gps preserves_pick_gps preserves_resolve_timestamp
  preserves_incr_processed preserves_incr_matches preserves_incr_warnings
  preserves_incr_errors preserves_mark_processed preserves_list_media_files
  preserves_dry_run_report : pres.

#[export] Instance untouched_quiet : Quiet untouched.
Proof.
  split.
  - split.
    + by intros w.
    + intros w1 w2 w3 (H1 & H2 & H3) (H4 & H5 & H6).
      repeat split; congruence.
  - by intros line w.
Qed.

#[export] Instance untouched_locals_free : LocalsFree untouched.
Proof. by intros f w. Qed.

#[export] Instance untouched_processed_free : ProcessedFree untouched.
Proof. by intros f w. Qed.

Section OnlyEvents.
Context (ok : event -> Prop).

#[export] Instance only_events_quiet : Quiet (only_events ok).
Proof.
  split.
  - split.
    + intros w. exists []. by rewrite app_nil_r.
    + intros w1 w2 w3 (e1 & H1 & Hok1) (e2 & H2 & Hok2).
      exists (e1 ++ e2). rewrite H2, H1, app_assoc. split; [done|].
      by apply Forall_app.
  - intros line w. exists []. simpl. by rewrite app_nil_r.
Qed.

#[export] Instance only_events_locals_free : LocalsFree (only_events ok).
Proof. intros f w. exists []. simpl. by rewrite app_nil_r. Qed.

#[export] Instance only_events_processed_free : ProcessedFree (only_events ok).
Proof. intros f w. exists []. simpl. by rewrite app_nil_r. Qed.

#[export] Instance only_events_fs_free : FsFree (only_events ok).
Proof.
  split; intros f w; exists []; simpl; by rewrite app_nil_r.
Qed.

#[export] Instance only_events_emits : Emits ok (only_events ok).
Proof. intros e w He. exists [e]. split; [done | by constructor]. Qed.

End OnlyEvents.

Section Effects.
Context (ok : event -> Prop) (R : relation world)
  `{!Quiet R, !FsFree R, !Emits ok R}.

Lemma preserves_emit e : ok e -> preserves R (emit e).
Proof. intros He w. by apply emits_event. Qed.

Lemma preserves_set_files f : preserves R (modify (set_files f)).
Proof. intros w. apply fs_files. Qed.

Lemma preserves_act {A B}
    (f : gmap str content -> A -> py_result (B * gmap str content)) a :
  preserves R (act f a).
Proof.
  intros w. unfold act. destruct (f (files w) a) as [[b fs]|e]; simpl.
  - apply fs_files.
  - reflexivity.
Qed.

Lemma preserves_makedirs p : ok (EvMakedirs p) -> preserves R (makedirs p).
Proof.
  intros He. unfold makedirs. tapply preserves_bind; [by apply preserves_emit|].
  intros _ w. case_match; simpl; [reflexivity | apply fs_dirs].
Qed.

Lemma preserves_move src dst : ok (EvMove src dst) -> preserves R (move src dst).
Proof.
  intros He. unfold move. tapply preserves_bind; [by apply preserves_emit|].
  intros _ w. case_match; simpl; [apply fs_files | reflexivity].
Qed.

Lemma preserves_copy2 src dst : ok (EvCopy src dst) -> preserves R (copy2 src dst).
Proof.
  intros He. unfold copy2. tapply preserves_bind; [by apply preserves_emit|].
  intros _ w. case_match; simpl; [apply fs_files | reflexivity].
Qed.

Lemma preserves_append_line p line :
  ok (EvAppend p line) -> preserves R (append_line p line).
Proof.
  intros He. unfold append_line. tapply preserves_bind; [by apply preserves_emit|].
  intros _ w. repeat case_match; simpl; try reflexivity; apply fs_files.
Qed.

Lemma preserves_remove p : ok (EvRemove p) -> preserves R (remove p).
Proof.
  intros He. unfold remove. tapply preserves_bind; [by apply preserves_emit|].
  intros _ w. case_match; simpl; [apply fs_files | reflexivity].
Qed.

Lemma preserves_rmtree root : ok (EvRmtree root) -> preserves R (rmtree root).
Proof.
  intros He. unfold rmtree. tapply preserves_bind; [by apply preserves_emit|].
  intros _ w. simpl. etrans; [apply fs_files | apply fs_dirs].
Qed.

Lemma preserves_extractall archive target :
  ok (EvExtract archive target) -> preserves R (extractall archive target).
Proof.
  intros He. unfold extractall. tapply preserves_bind; [by apply preserves_emit|].
  intros _ w. repeat case_match; simpl; try reflexivity.
  etrans; [apply fs_files | apply fs_dirs].
Qed.

End Effects.

End Frames.

(** ** Sidecar timestamps (process_media_json.py) *)

Module TimestampFacts.
Import Py OsPath Rt Sys Config Json Workflow Notions.

Lemma printed_only_refl w : printed_only w w.
Proof. exists []. destruct w; simpl. by rewrite app_nil_r. Qed.

Lemma printed_only_trans w1 w2 w3 :
  printed_only w1 w2 -> printed_only w2 w3 -> printed_only w1 w3.
Proof.
  intros [l1 ->] [l2 ->]. exists (l1 ++ l2). simpl. by rewrite app_assoc.
Qed.

Lemma printed_only_print line w : printed_only w (add_console line w).
Proof. by exists [line]. Qed.

Lemma get_timestamp_result path w :
  (get_timestamp_from_json path w).1 = sidecar_timestamp (files w) path.
Proof.
  unfold sidecar_timestamp, get_timestamp_from_json, try_except, json_load,
    mbind, M_bind, bind, lift, ret, mret, M_ret, print, modify, blank. simpl.
  repeat (case_match; simplify_eq/=; try done).
Qed.

Lemma get_timestamp_world path w :
  printed_only w (get_timestamp_from_json path w).2.
Proof.
  unfold get_timestamp_from_json, try_except, json_load,
    mbind, M_bind, bind, lift, ret, mret, M_ret, print, modify. simpl.
  repeat (case_match; simplify_eq/=;
          try apply printed_only_refl; try apply printed_only_print).
Qed.

Lemma printed_only_files w w' : printed_only w w' -> files w' = files w.
Proof. by intros [l ->]. Qed.

Lemma pick_timestamp_loop_spec paths : forall w,
  (pick_timestamp_loop paths w).1 = pick_on_files (files w) paths
  /\ printed_only w (pick_timestamp_loop paths w).2.
Proof.
  induction paths as [|path rest IH]; intros w; simpl.
  - split; [done | apply printed_only_refl].
  - unfold mbind, M_bind, bind.
    pose proof (get_timestamp_result path w) as Hr.
    pose proof (get_timestamp_world path w) as Hw.
    destruct (get_timestamp_from_json path w) as [[ts|e] w1]; simpl in *.
    + rewrite <- Hr. destruct (ts_truthy ts).
      * split; [done | exact Hw].
      * destruct (IH w1) as [IH1 IH2].
        rewrite (printed_only_files _ _ Hw) in IH1.
        split; [done | by eapply printed_only_trans].
    + rewrite <- Hr. split; [done | exact Hw].
Qed.

Lemma pick_timestamp_spec json_paths w :
  (pick_timestamp_from_json_list json_paths w).1
    = pick_on_files (files w) (sorted json_paths)
  /\ printed_only w (pick_timestamp_from_json_list json_paths w).2.
Proof. apply pick_timestamp_loop_spec. Qed.

Lemma pick_on_files_absent fs paths :
  Forall (absent fs) paths -> pick_on_files fs paths = Ok None.
Proof.
  induction 1 as [|path rest Ha _ IH]; simpl; [done|].
  destruct Ha as [-> | ->]; simpl; exact IH.
Qed.

Lemma pick_on_files_first fs pre path post t :
  Forall (absent fs) pre -> yields fs path t -> t <> 0 ->
  pick_on_files fs (pre ++ path :: post) = Ok (Some t).
Proof.
  intros Hpre Hy Ht. induction Hpre as [|p rest Ha _ IH]; simpl.
  - rewrite Hy. simpl. by destruct (Z.eqb_spec t 0).
  - destruct Ha as [-> | ->]; simpl; exact IH.
Qed.

Lemma pick_on_files_truthy fs paths ts :
  pick_on_files fs paths = Ok ts -> ts_truthy ts = true ->
  exists pre path post t,
    paths = pre ++ path :: post /\ Forall (absent fs) pre
    /\ yields fs path t /\ t <> 0 /\ ts = Some t.
Proof.
  induction paths as [|p rest IH]; simpl; intros H Htr.
  - by simplify_eq.
  - destruct (sidecar_timestamp fs p) as [ts'|e] eqn:E; [|done].
    destruct (ts_truthy ts') eqn:E'.
    + simplify_eq. destruct ts as [t|]; [|done].
      exists [], p, rest, t. repeat split; try done.
      simpl in E'. by destruct (Z.eqb_spec t 0).
    + destruct (IH H Htr) as (pre & path & post & t & -> & Hpre & Hy & Ht & ->).
      exists (p :: pre), path, post, t. repeat split; try done.
      constructor; [|done].
      unfold absent. rewrite E. destruct ts' as [t'|]; [|by left].
      right. simpl in E'. destruct (Z.eqb_spec t' 0); by simplify_eq.
Qed.

Lemma sorted_Permutation (l : list str) : sorted l ≡ₚ l.
Proof. apply merge_sort_Permutation. Qed.

Lemma Forall_sorted (P : str -> Prop) (l : list str) :
  Forall P (sorted l) <-> Forall P l.
Proof. by rewrite sorted_Permutation. Qed.

Lemma fromtimestamp_in_range t :
  min_datetime_ts <= t <= max_datetime_ts ->
  exists d, fromtimestamp_utc t = Ok d.
Proof.
  unfold fromtimestamp_utc, min_datetime_ts, max_datetime_ts. intros Ht.
  assert ((t <? - 2 ^ 63) || (2 ^ 63 <=? t) = false) as ->
    by (apply orb_false_intro; lia).
  assert ((t <? -62135596800) || (253402300799 <? t) = false) as ->
    by (apply orb_false_intro; lia).
  destruct (civil_from_days (t / 86400)) as [[y m] d]. eauto.
Qed.

(** A timestamp that the extractor returns is one that [datetime] can
    hold. *)
Lemma yields_fromtimestamp fs path t :
  yields fs path t -> exists d, fromtimestamp_utc t = Ok d.
Proof.
  unfold yields, sidecar_timestamp, get_timestamp_from_json, try_except,
    json_load, mbind, M_bind, bind, lift, ret, mret, M_ret, print, modify,
    blank, min_timestamp, max_timestamp. simpl.
  repeat (case_match; simplify_eq/=; try done); intros; simplify_eq; eauto.
  apply fromtimestamp_in_range. unfold min_datetime_ts, max_datetime_ts. lia.
Qed.

End TimestampFacts.

(** ** The timestamp resolution chain (process_media_workflow.py) *)

Module ResolutionFacts.
Import Py OsPath Rt Sys Config Json Workflow Notions TimestampFacts.

Section Chain.

Variable get_exif_datetime_fn : gmap str content -> str -> py_result (option datetime).

Lemma resolve_timestamp_spec media primary supp w :
  (resolve_timestamp get_exif_datetime_fn media primary supp w).1
    = resolve_on_files (get_exif_datetime_fn (files w) media) (files w) primary supp
  /\ printed_only w (resolve_timestamp get_exif_datetime_fn media primary supp w).2.
Proof.
  unfold resolve_timestamp, resolve_on_files, read, mbind, M_bind, bind. simpl.
  destruct (get_exif_datetime_fn (files w) media) as [[d|]|e]; simpl;
    try (split; [done | apply printed_only_refl]).
  destruct (pick_timestamp_spec primary w) as [Hr1 Hw1].
  destruct (pick_timestamp_from_json_list primary w) as [[ts1|e1] w1];
    simpl in *; rewrite <- Hr1; simpl; [|done].
  destruct (ts_truthy ts1).
  - unfold lift, ret. destruct (fromtimestamp_utc (default 0 ts1)); simpl; done.
  - destruct (pick_timestamp_spec supp w1) as [Hr2 Hw2].
    rewrite (printed_only_files _ _ Hw1) in Hr2.
    destruct (pick_timestamp_from_json_list supp w1) as [[ts2|e2] w2];
      simpl in *; rewrite <- Hr2; simpl;
      [|split; [done | by eapply printed_only_trans]].
    destruct (ts_truthy ts2).
    + unfold lift, ret. destruct (fromtimestamp_utc (default 0 ts2)); simpl;
        (split; [done | by eapply printed_only_trans]).
    + split; [done | by eapply printed_only_trans].
Qed.

Lemma resolve_embedded media primary supp w d :
  get_exif_datetime_fn (files w) media = Ok (Some d) ->
  (resolve_timestamp get_exif_datetime_fn media primary supp w).1
    = Ok (Some (d, Embedded)).
Proof.
  intros H. rewrite (proj1 (resolve_timestamp_spec _ _ _ _)).
  unfold resolve_on_files. by rewrite H.
Qed.

Lemma resolve_primary media primary supp w pre path post t :
  get_exif_datetime_fn (files w) media = Ok None ->
  sorted primary = pre ++ path :: post ->
  Forall (absent (files w)) pre -> yields (files w) path t -> t <> 0 ->
  exists d, fromtimestamp_utc t = Ok d
    /\ (resolve_timestamp get_exif_datetime_fn media primary supp w).1
         = Ok (Some (d, PrimaryJson)).
Proof.
  intros H Hs Hpre Hy Ht.
  destruct (yields_fromtimestamp _ _ _ Hy) as [d Hd]. exists d. split; [done|].
  rewrite (proj1 (resolve_timestamp_spec _ _ _ _)).
  unfold resolve_on_files. rewrite H. simpl.
  rewrite Hs, (pick_on_files_first _ _ _ _ _ Hpre Hy Ht). simpl.
  destruct (Z.eqb_spec t 0); [done|]. simpl. by rewrite Hd.
Qed.

Lemma resolve_supplemental media primary supp w pre path post t :
  get_exif_datetime_fn (files w) media = Ok None ->
  Forall (absent (files w)) primary ->
  sorted supp = pre ++ path :: post ->
  Forall (absent (files w)) pre -> yields (files w) path t -> t <> 0 ->
  exists d, fromtimestamp_utc t = Ok d
    /\ (resolve_timestamp get_exif_datetime_fn media primary supp w).1
         = Ok (Some (d, Supplemental)).
Proof.
  intros H Hprim Hs Hpre Hy Ht.
  destruct (yields_fromtimestamp _ _ _ Hy) as [d Hd]. exists d. split; [done|].
  rewrite (proj1 (resolve_timestamp_spec _ _ _ _)).
  unfold resolve_on_files. rewrite H. simpl.
  rewrite (pick_on_files_absent _ (sorted primary)) by by apply Forall_sorted.
  simpl. rewrite Hs, (pick_on_files_first _ _ _ _ _ Hpre Hy Ht). simpl.
  destruct (Z.eqb_spec t 0); [done|]. simpl. by rewrite Hd.
Qed.

Lemma resolve_unresolved media primary supp w :
  get_exif_datetime_fn (files w) media = Ok None ->
  Forall (absent (files w)) primary -> Forall (absent (files w)) supp ->
  (resolve_timestamp get_exif_datetime_fn media primary supp w).1 = Ok None.
Proof.
  intros H Hprim Hsupp.
  rewrite (proj1 (resolve_timestamp_spec _ _ _ _)).
  unfold resolve_on_files. rewrite H. simpl.
  rewrite (pick_on_files_absent _ (sorted primary)) by by apply Forall_sorted.
  simpl.
  by rewrite (pick_on_files_absent _ (sorted supp)) by by apply Forall_sorted.
Qed.

End Chain.

End ResolutionFacts.

(** ** Timestamp resolution: the claims *)

Module Resolution.
Import Py OsPath Rt Sys Config Json Workflow Notions TimestampFacts ResolutionFacts.
Import Scenarios.

(** C1, as it is written, fails on a primary sidecar whose timestamp is 0:
    the sidecar yields the timestamp 0 (1970-01-01T00:00:00Z), there is no
    embedded capture time, and the code resolves the timestamp of the
    supplemental sidecar, with source [Supplemental]. *)
Lemma epoch_zero_primary_is_passed_over :
  let fs := sidecar_files (JStr $"0") (JStr $"1600000000") in
  Tool.get_exif_datetime fs media_path = Ok None
  /\ yields fs primary_path 0
  /\ (resolve_timestamp Tool.get_exif_datetime media_path
        [primary_path] [supplemental_path] (blank fs)).1
     = Ok (Some (mk_datetime 2020 9 13 12 26 40, Supplemental)).
Proof. repeat split; vm_compute; reflexivity. Qed.

(** Where the extractor raises, the chain raises with it: a primary
    sidecar whose [photoTakenTime] is [null] ends the resolution with an
    [AttributeError], although a later sidecar has a timestamp. *)
Lemma raising_sidecar_ends_the_chain :
  let fs := sidecar_files JNull (JStr $"1600000000") in
  let fs' := <[primary_path := Json (JObj [($"photoTakenTime", JNull)])]> fs in
  sidecar_timestamp fs' primary_path = Raise AttributeError
  /\ ~ absent fs' primary_path
  /\ (resolve_timestamp Tool.get_exif_datetime media_path
        [primary_path] [supplemental_path] (blank fs')).1 = Raise AttributeError.
Proof.
  cbv zeta. split; [vm_compute; reflexivity|]. split; [|vm_compute; reflexivity].
  unfold absent. intros [H|H]; vm_compute in H; discriminate.
Qed.

(** C1 (amended): the precedence chain, as far as the extraction of the
    sidecars that are probed returns.  An embedded capture time is resolved
    with source [Embedded], whatever the sidecars hold.  When the reader
    returns none, a primary sidecar that yields a timestamp other than 0,
    all primary sidecars before it in sorted-path order yielding nothing
    (no timestamp, or 0), is resolved with source [PrimaryJson]; when all
    primary sidecars yield nothing, such a supplemental sidecar is resolved
    with source [Supplemental]; when all sidecars yield nothing the outcome
    is unresolved ([None]): nothing else is consulted.  A sidecar on which
    the extractor raises is neither of these ([yields] and [absent] say
    that it returns), and the chain is not described beyond it. *)
Theorem timestamp_precedence_chain
    (get_exif_datetime_fn : gmap str content -> str -> py_result (option datetime))
    (media : str) (primary supp : list str) (w : world) :
  let fs := files w in
  let outcome := (resolve_timestamp get_exif_datetime_fn media primary supp w).1 in
  (forall d, get_exif_datetime_fn fs media = Ok (Some d) ->
     outcome = Ok (Some (d, Embedded)))
  /\ (get_exif_datetime_fn fs media = Ok None ->
      (forall pre path post t,
         sorted primary = pre ++ path :: post ->
         Forall (absent fs) pre -> yields fs path t -> t <> 0 ->
         exists d, fromtimestamp_utc t = Ok d
                   /\ outcome = Ok (Some (d, PrimaryJson)))
      /\ (Forall (absent fs) primary ->
          forall pre path post t,
            sorted supp = pre ++ path :: post ->
            Forall (absent fs) pre -> yields fs path t -> t <> 0 ->
            exists d, fromtimestamp_utc t = Ok d
                      /\ outcome = Ok (Some (d, Supplemental)))
      /\ (Forall (absent fs) primary -> Forall (absent fs) supp ->
          outcome = Ok None)).
Proof.
  simpl. split; [|intros Hnone; repeat split].
  - intros d Hd. by apply resolve_embedded.
  - intros pre path post t. by apply resolve_primary.
  - intros Hprim pre path post t. by apply resolve_supplemental.
  - by apply resolve_unresolved.
Qed.

Lemma timestamp_precedence_chain_witness :
  (resolve_timestamp Tool.get_exif_datetime media_path [primary_path] []
     (blank (embedded_files (mk_datetime 2020 5 10 17 39 0) (JStr $"1622505600")))).1
    = Ok (Some (mk_datetime 2020 5 10 17 39 0, Embedded))
  /\ (exists d, fromtimestamp_utc 1628503872 = Ok d
       /\ (resolve_timestamp Tool.get_exif_datetime media_path
             [primary_path] [supplemental_path]
             (blank (sidecar_files (JStr $"1628503872") (JStr $"1600000000")))).1
          = Ok (Some (d, PrimaryJson)))
  /\ (exists d, fromtimestamp_utc 1600000000 = Ok d
       /\ (resolve_timestamp Tool.get_exif_datetime media_path
             [primary_path] [supplemental_path]
             (blank (sidecar_files JNull (JStr $"1600000000")))).1
          = Ok (Some (d, Supplemental)))
  /\ (resolve_timestamp Tool.get_exif_datetime media_path
        [primary_path] [supplemental_path]
        (blank (sidecar_files JNull (JStr $"not-a-number")))).1 = Ok None.
Proof.
  split; [|split; [|split]].
  - apply (proj1 (timestamp_precedence_chain Tool.get_exif_datetime media_path
                    [primary_path] []
                    (blank (embedded_files (mk_datetime 2020 5 10 17 39 0)
                                           (JStr $"1622505600"))))).
    vm_compute. reflexivity.
  - destruct (timestamp_precedence_chain Tool.get_exif_datetime media_path
                [primary_path] [supplemental_path]
                (blank (sidecar_files (JStr $"1628503872") (JStr $"1600000000"))))
      as [_ H].
    destruct H as (H & _ & _); [vm_compute; reflexivity|].
    apply (H [] primary_path []).
    + vm_compute. reflexivity.
    + constructor.
    + vm_compute. reflexivity.
    + discriminate.
  - destruct (timestamp_precedence_chain Tool.get_exif_datetime media_path
                [primary_path] [supplemental_path]
                (blank (sidecar_files JNull (JStr $"1600000000"))))
      as [_ H].
    destruct H as (_ & H & _); [vm_compute; reflexivity|].
    apply (H ltac:(constructor; [left; vm_compute; reflexivity | constructor])
             [] supplemental_path []).
    + vm_compute. reflexivity.
    + constructor.
    + vm_compute. reflexivity.
    + discriminate.
  - destruct (timestamp_precedence_chain Tool.get_exif_datetime media_path
                [primary_path] [supplemental_path]
                (blank (sidecar_files JNull (JStr $"not-a-number"))))
      as [_ H].
    destruct H as (_ & _ & H); [vm_compute; reflexivity|].
    apply H.
    + constructor; [left; vm_compute; reflexivity | constructor].
    + constructor; [left; vm_compute; reflexivity | constructor].
Defined.

Lemma pick_on_files_never_zero fs paths :
  pick_on_files fs paths <> Ok (Some 0).
Proof.
  induction paths as [|p rest IH]; simpl; [done|].
  destruct (sidecar_timestamp fs p) as [ts|e]; [|done].
  destruct (ts_truthy ts) eqn:E; [|done].
  intros ?; by simplify_eq.
Qed.

(** C10: a timestamp of exactly 0 counts as absent.  Inside the extractor a
    numeric 0 in [photoTakenTime.timestamp] gives way to [creationTime];
    the picker passes over a sidecar for which the extractor returns 0, and
    never returns 0 itself; and the chain, without embedded capture time,
    treats primary sidecars that all yield 0 as if there were none: it
    moves on to the supplemental sidecars, or ends unresolved. *)
Theorem epoch_zero_is_treated_as_absent :
  (forall data pt,
     py_get data $"photoTakenTime" (JObj []) = Ok pt ->
     py_get pt $"timestamp" JNull = Ok (JInt 0) ->
     timestamp_field data
       = rbind (py_get data $"creationTime" (JObj []))
               (fun ct => py_get ct $"timestamp" JNull))
  /\ (forall path rest w,
        yields (files w) path 0 ->
        (pick_timestamp_loop (path :: rest) w).1 = (pick_timestamp_loop rest w).1)
  /\ (forall paths w, (pick_timestamp_from_json_list paths w).1 <> Ok (Some 0))
  /\ (forall get_exif_datetime_fn media primary supp w,
        get_exif_datetime_fn (files w) media = Ok None ->
        Forall (fun p => yields (files w) p 0) primary ->
        (resolve_timestamp get_exif_datetime_fn media primary supp w).1
          = (resolve_timestamp get_exif_datetime_fn media [] supp w).1
        /\ (Forall (fun p => yields (files w) p 0) supp ->
            (resolve_timestamp get_exif_datetime_fn media primary supp w).1
              = Ok None)).
Proof.
  repeat split.
  - intros data pt Hpt Hts. unfold timestamp_field. rewrite Hpt.
    cbn [rbind]. by rewrite Hts.
  - intros path rest w Hy.
    rewrite (proj1 (pick_timestamp_loop_spec (path :: rest) w)),
            (proj1 (pick_timestamp_loop_spec rest w)).
    simpl. by rewrite Hy.
  - intros paths w. rewrite (proj1 (pick_timestamp_spec paths w)).
    apply pick_on_files_never_zero.
  - rewrite !(proj1 (resolve_timestamp_spec _ _ _ _ _)).
    unfold resolve_on_files. rewrite H. simpl.
    rewrite (pick_on_files_absent _ (sorted primary)); [done|].
    apply Forall_sorted. eapply Forall_impl; [done|]. intros p Hp. by right.
  - intros Hsupp. apply resolve_unresolved; [done| |];
      (eapply Forall_impl; [done|]; intros p Hp; by right).
Qed.

Lemma epoch_zero_is_treated_as_absent_witness :
  timestamp_field (JObj [($"photoTakenTime", JObj [($"timestamp", JInt 0)]);
                         ($"creationTime", JObj [($"timestamp", JStr $"1600000000")])])
    = Ok (JStr $"1600000000")
  /\ (pick_timestamp_loop [primary_path; supplemental_path]
        (blank (sidecar_files (JStr $"0") (JStr $"1600000000")))).1
     = (pick_timestamp_loop [supplemental_path]
          (blank (sidecar_files (JStr $"0") (JStr $"1600000000")))).1
  /\ (resolve_timestamp Tool.get_exif_datetime media_path
        [primary_path] [supplemental_path]
        (blank (sidecar_files (JStr $"0") (JStr $"0")))).1 = Ok None.
Proof.
  destruct epoch_zero_is_treated_as_absent as (Ha & Hb & _ & Hd).
  split; [|split].
  - rewrite (Ha _ (JObj [($"timestamp", JInt 0)])); reflexivity.
  - apply Hb. vm_compute. reflexivity.
  - apply (Hd Tool.get_exif_datetime media_path [primary_path] [supplemental_path]
              (blank (sidecar_files (JStr $"0") (JStr $"0")))).
    + vm_compute. reflexivity.
    + constructor; [vm_compute; reflexivity | constructor].
    + constructor; [vm_compute; reflexivity | constructor].
Defined.

(** The range check of the extractor does not reject: a timestamp that
    [datetime] can hold is returned, inside the range [0, 1893456000] or
    outside it. *)
Lemma representable_timestamp_is_returned fs path data v t :
  fs !! path = Some (Json data) ->
  timestamp_field data = Ok v -> json_truthy v = true -> py_int v = Ok t ->
  min_datetime_ts <= t <= max_datetime_ts ->
  sidecar_timestamp fs path = Ok (Some t).
Proof.
  intros Hf Hv Htr Hi Ht.
  destruct (fromtimestamp_in_range t Ht) as [d Hd].
  unfold sidecar_timestamp, get_timestamp_from_json, try_except, json_load,
    mbind, M_bind, bind, lift, ret, mret, M_ret, print, modify, blank. simpl.
  rewrite Hf, Hv. simpl. rewrite Htr. simpl. rewrite Hi. simpl.
  rewrite Hd. by repeat (case_match; simplify_eq/=).
Qed.

(** C9: the code at the failing input.  A sidecar whose timestamp is a
    number of milliseconds (here 1700000000000, which [int] parses) is out
    of the range of [datetime]; formatting the warning raises, the handler
    of the extractor catches it, and the extractor returns [None] without
    printing anything: the value is discarded, not flagged. *)
Theorem millisecond_timestamp_is_discarded :
  let fs := sidecar_files (JStr $"1700000000000") JNull in
  py_int (JStr $"1700000000000") = Ok 1700000000000
  /\ fromtimestamp_utc 1700000000000 = Raise ValueError
  /\ get_timestamp_from_json primary_path (blank fs) = (Ok None, blank fs).
Proof. repeat split; vm_compute; reflexivity. Qed.

(** Beyond the range of the platform's [time_t] the exception is one that
    the extractor does not catch. *)
Lemma huge_timestamp_raises :
  sidecar_timestamp (sidecar_files (JStr $"9223372036854775808") JNull) primary_path
    = Raise OverflowError.
Proof. vm_compute. reflexivity. Qed.

End Resolution.

(** ** Dry run *)

Module DryRun.
Import Py OsPath Rt Sys Config Logs Paths Json Matching Workflow Pass2 Notions Frames.

Section DryRunFiles.

Context (R : relation world) `{!Quiet R, !LocalsFree R, !ProcessedFree R}.
Variable cfg : ProcessMediaConfig.
Variable float_of_str : str -> option float.
Variable get_exif_datetime_fn : gmap str content -> str -> py_result (option datetime).
Variable get_real_extension_fn : gmap str content -> str -> py_result str.
Variable get_embedded_gps_fn : gmap str content -> str -> py_result (bool * bool).
Variable normalize_media_extension_fn :
  gmap str content -> str -> py_result (str * gmap str content).
Variable run_exiftool_fn :
  gmap str content -> exif_cmd -> py_result (unit * gmap str content).

Lemma process_one_media_dry_run max_path_length media base primary supp :
  preserves R
    (process_one_media cfg float_of_str get_exif_datetime_fn get_real_extension_fn
       get_embedded_gps_fn normalize_media_extension_fn run_exiftool_fn
       false max_path_length media base primary supp).
Proof.
  unfold process_one_media, send_to_needs_review, send_to_path_too_long. pres.
Qed.

Lemma process_media_file_dry_run json_lookup max_path_length media :
  preserves R
    (process_media_file cfg float_of_str get_exif_datetime_fn get_real_extension_fn
       get_embedded_gps_fn normalize_media_extension_fn run_exiftool_fn
       json_lookup false max_path_length media).
Proof.
  unfold process_media_file. pose proof process_one_media_dry_run. pres.
Qed.

Lemma process_media_files_dry_run media_files json_lookup max_path_length :
  preserves R
    (process_media_files cfg float_of_str get_exif_datetime_fn get_real_extension_fn
       get_embedded_gps_fn normalize_media_extension_fn run_exiftool_fn
       media_files json_lookup false max_path_length).
Proof.
  unfold process_media_files. pose proof process_media_file_dry_run. pres.
Qed.

End DryRunFiles.

#[export] Hint Resolve process_media_files_dry_run : pres.

Section DryRunPass2.

Variable cfg : ProcessMediaConfig.
Variable float_of_str : str -> option float.
Variable get_exif_datetime : gmap str content -> str -> py_result (option datetime).
Variable get_real_extension_from_exiftool : gmap str content -> str -> py_result str.
Variable get_embedded_gps : gmap str content -> str -> py_result (bool * bool).
Variable normalize_media_extension :
  gmap str content -> str -> py_result (str * gmap str content).
Variable run_exiftool :
  gmap str content -> exif_cmd -> py_result (unit * gmap str content).
Variable clears : bool.

Let R := only_events (dry_run_event cfg clears).

Lemma dry_run_rmtree : preserves R (rmtree (extract_target_dir cfg)).
Proof. tapply (preserves_rmtree (dry_run_event cfg clears)). by left. Qed.

Lemma dry_run_makedirs : preserves R (makedirs (extract_target_dir cfg)).
Proof. tapply (preserves_makedirs (dry_run_event cfg clears)). right. by left. Qed.

Lemma dry_run_extractall archive :
  preserves R (extractall archive (extract_target_dir cfg)).
Proof.
  tapply (preserves_extractall (dry_run_event cfg clears)). right. right. left. eauto.
Qed.

Lemma dry_run_workbench_has_files : preserves R (workbench_has_files cfg).
Proof. unfold workbench_has_files. pres. Qed.

Lemma dry_run_extract archive force :
  preserves R (extract_archive_to_workbench archive force cfg).
Proof.
  unfold extract_archive_to_workbench.
  pose proof dry_run_rmtree. pose proof dry_run_makedirs.
  pose proof dry_run_extractall. pose proof dry_run_workbench_has_files.
  pres.
Qed.

Lemma dry_run_clean_workbench : preserves R (clean_workbench_dir cfg).
Proof.
  unfold clean_workbench_dir.
  pose proof dry_run_rmtree. pose proof dry_run_makedirs. pres.
Qed.

Lemma dry_run_process_archive json_lookup item_path :
  preserves R
    (process_archive cfg float_of_str get_exif_datetime
       get_real_extension_from_exiftool get_embedded_gps
       normalize_media_extension run_exiftool false json_lookup item_path).
Proof.
  unfold process_archive.
  pose proof dry_run_extract. pose proof dry_run_workbench_has_files. pres.
Qed.

Lemma dry_run_process_work_item clean json_lookup archive_items item :
  preserves R
    (process_work_item cfg float_of_str get_exif_datetime
       get_real_extension_from_exiftool get_embedded_gps
       normalize_media_extension run_exiftool false clean json_lookup
       archive_items item).
Proof.
  unfold process_work_item.
  pose proof dry_run_process_archive. pose proof dry_run_clean_workbench.
  destruct item as [item_type item_path]. pres.
Qed.

Lemma dry_run_work_items batch_size clean work_items :
  preserves R
    (run_work_items cfg float_of_str get_exif_datetime
       get_real_extension_from_exiftool get_embedded_gps
       normalize_media_extension run_exiftool false batch_size clean work_items).
Proof.
  unfold run_work_items.
  pose proof dry_run_process_work_item. pose proof dry_run_clean_workbench. pres.
Qed.

Lemma dry_run_select_work_items archive_name force processed :
  preserves R (select_work_items cfg archive_name force processed).
Proof. unfold select_work_items, resolve_archive_path. pres. Qed.

End DryRunPass2.

Section DryRunFlags.

Variable cfg : ProcessMediaConfig.
Variable float_of_str : str -> option float.
Variable get_exif_datetime : gmap str content -> str -> py_result (option datetime).
Variable get_real_extension_from_exiftool : gmap str content -> str -> py_result str.
Variable get_embedded_gps : gmap str content -> str -> py_result (bool * bool).
Variable normalize_media_extension :
  gmap str content -> str -> py_result (str * gmap str content).
Variable run_exiftool :
  gmap str content -> exif_cmd -> py_result (unit * gmap str content).

Lemma dry_run_remove :
  preserves (only_events (dry_run_event cfg true)) (remove (processed_log_file cfg)).
Proof. tapply (preserves_remove (dry_run_event cfg true)). by repeat right. Qed.

(** The log of processed files is removed only with [--force-extract] or
    [--clean-workbench] and no [--archive-name]. *)
Lemma dry_run_pass2 batch_size archive_name force clean :
  preserves
    (only_events
       (dry_run_event cfg (negb (nonempty archive_name) && (force || clean))))
    (run_pass2 cfg float_of_str get_exif_datetime
       get_real_extension_from_exiftool get_embedded_gps
       normalize_media_extension run_exiftool false batch_size archive_name
       force clean).
Proof.
  unfold run_pass2, get_processed_work_items, get_processed_files_log.
  destruct (negb (nonempty archive_name) && (force || clean)) eqn:E.
  - pose proof (dry_run_work_items cfg float_of_str get_exif_datetime
                  get_real_extension_from_exiftool get_embedded_gps
                  normalize_media_extension run_exiftool true).
    pose proof (dry_run_select_work_items cfg true).
    pose proof dry_run_remove. pres.
  - pose proof (dry_run_work_items cfg float_of_str get_exif_datetime
                  get_real_extension_from_exiftool get_embedded_gps
                  normalize_media_extension run_exiftool false).
    pose proof (dry_run_select_work_items cfg false).
    pres.
Qed.

End DryRunFlags.

End DryRun.

(** ** GPS validity (process_media_json.py, process_media_exif.py) *)

Module GpsFacts.
Import Py OsPath Rt Sys Config Logs Paths Json Exif Matching Workflow Notions Frames.

Lemma preserves_mbind_returns (R : relation world) `{!Quiet R} {A B}
    (P : A -> Prop) (m : M A) (k : A -> M B) :
  preserves R m -> returns P m -> (forall a, P a -> preserves R (k a)) ->
  preserves R (m ≫= k).
Proof.
  intros Hm HP Hk w. unfold mbind, M_bind, bind.
  specialize (Hm w). specialize (HP w).
  destruct (m w) as [[a|e] w1]; simpl in *; [|done].
  etrans; [done | by apply Hk, HP].
Qed.

Section Sidecar.
Variable float_of_str : str -> option float.

Lemma gps_of_block_valid geo g :
  gps_of_block float_of_str geo = Ok g -> valid_coordinates g.
Proof.
  unfold gps_of_block, rbind, valid_coordinates, gps_valid.
  repeat (case_match; simplify_eq/=; try done); intros; by simplify_eq.
Qed.

(** What one GPS block gives when its three fields convert. *)
Lemma gps_of_block_exact geo lat_v lon_v alt_v lat lon alt :
  py_get geo $"latitude" (JInt 0) = Ok lat_v ->
  py_get geo $"longitude" (JInt 0) = Ok lon_v ->
  py_get geo $"altitude" (JInt 0) = Ok alt_v ->
  py_float float_of_str lat_v = Ok lat ->
  py_float float_of_str lon_v = Ok lon ->
  py_float float_of_str alt_v = Ok alt ->
  gps_of_block float_of_str geo
    = Ok (if gps_valid lat lon then Some (lat, lon, alt) else None).
Proof.
  intros H1 H2 H3 H4 H5 H6. unfold gps_of_block, gps_valid.
  rewrite H1. cbn [rbind]. rewrite H4. cbn [rbind].
  rewrite H2. cbn [rbind]. rewrite H5. cbn [rbind].
  rewrite H3. cbn [rbind]. rewrite H6. cbn [rbind].
  by destruct (null_island lat lon).
Qed.

Lemma gps_of_data_valid data g :
  gps_of_data float_of_str data = Ok g -> valid_coordinates g.
Proof.
  unfold gps_of_data, rbind, rcatch.
  pose proof (gps_of_block_valid) as Hb.
  repeat (case_match; simplify_eq/=; try done); intros; simplify_eq;
    try done; by eapply Hb.
Qed.

Lemma get_valid_gps_returns_valid path :
  returns valid_coordinates (get_valid_gps_from_supplemental float_of_str path).
Proof.
  intros w g. unfold get_valid_gps_from_supplemental, try_except, json_load,
    mbind, M_bind, bind, lift, ret.
  pose proof gps_of_data_valid as Hd.
  repeat (case_match; simplify_eq/=; try done); intros; simplify_eq;
    try done; by eapply Hd.
Qed.

Lemma pick_gps_returns_valid paths :
  returns valid_coordinates (pick_gps_from_json_list float_of_str paths).
Proof.
  unfold pick_gps_from_json_list.
  induction (sorted paths) as [|p rest IH]; intros w g; simpl.
  - unfold ret. by intros; simplify_eq.
  - unfold mbind, M_bind, bind.
    pose proof (get_valid_gps_returns_valid p w) as Hp.
    destruct (get_valid_gps_from_supplemental float_of_str p w) as [[g1|e] w1];
      simpl in *; [|done].
    destruct g1 as [g1|].
    + unfold ret. simpl. intros; simplify_eq. by apply (Hp (Some g1)).
    + apply IH.
Qed.

End Sidecar.

Section Embedded.
Variable float_of_str : str -> option float.

(** The embedded reader reports a valid GPS exactly when the two lines
    convert to a pair that is not Null Island. *)
Lemma get_embedded_gps_valid tool :
  get_embedded_gps float_of_str tool = (true, true) ->
  exists stdout l0 l1 rest lat lon,
    tool = Ok stdout
    /\ splitlines (strip stdout) = l0 :: l1 :: rest
    /\ float_of_str (strip l0) = Some lat
    /\ float_of_str (strip l1) = Some lon
    /\ null_island lat lon = false.
Proof.
  unfold get_embedded_gps.
  repeat (case_match; simplify_eq/=; try done); intros; simplify_eq.
  match goal with
  | Hs : strip ?a = _, Hl : splitlines _ = ?x :: ?y :: ?z,
    H0 : strip ?x = _, H1 : strip ?y = _ |- _ =>
      exists a, x, y, z; rewrite Hs, H0, H1
  end.
  eauto 10.
Qed.

Lemma get_embedded_gps_exact stdout l0 l1 rest lat lon :
  splitlines (strip stdout) = l0 :: l1 :: rest ->
  strip stdout <> [] -> strip l0 <> [] -> strip l1 <> [] ->
  float_of_str (strip l0) = Some lat ->
  float_of_str (strip l1) = Some lon ->
  get_embedded_gps float_of_str (Ok stdout) = (true, gps_valid lat lon).
Proof.
  intros Hs H H0 H1 Hlat Hlon. unfold get_embedded_gps, gps_valid.
  rewrite Hs, Hlat, Hlon.
  destruct (strip stdout); [done|]. destruct (strip l0); [done|].
  destruct (strip l1); [done|]. by destruct (null_island lat lon).
Qed.

End Embedded.

Section GpsWrites.

Variable cfg : ProcessMediaConfig.
Variable float_of_str : str -> option float.
Variable get_exif_datetime_fn : gmap str content -> str -> py_result (option datetime).
Variable get_real_extension_fn : gmap str content -> str -> py_result str.
Variable get_embedded_gps_fn : gmap str content -> str -> py_result (bool * bool).
Variable normalize_media_extension_fn :
  gmap str content -> str -> py_result (str * gmap str content).
Variable run_exiftool_fn :
  gmap str content -> exif_cmd -> py_result (unit * gmap str content).

Let R := only_events gps_ok.

Lemma gps_emit e : gps_ok e -> preserves R (emit e).
Proof. intros. by tapply (preserves_emit gps_ok). Qed.

Lemma gps_makedirs p : preserves R (makedirs p).
Proof. by tapply (preserves_makedirs gps_ok). Qed.

Lemma gps_move src dst : preserves R (move src dst).
Proof. by tapply (preserves_move gps_ok). Qed.

Lemma gps_copy2 src dst : preserves R (copy2 src dst).
Proof. by tapply (preserves_copy2 gps_ok). Qed.

Lemma gps_append_line p line : preserves R (append_line p line).
Proof. by tapply (preserves_append_line gps_ok). Qed.

Lemma gps_act {A B}
    (f : gmap str content -> A -> py_result (B * gmap str content)) a :
  preserves R (act f a).
Proof. tapply preserves_act. Qed.

Lemma gps_copy_jsons paths dest_dir : preserves R (copy_jsons paths dest_dir).
Proof. unfold copy_jsons. pose proof gps_copy2. pres. Qed.

Lemma gps_run_exiftool_write c :
  gps_ok (EvExif c) -> preserves R (run_exiftool_write run_exiftool_fn c).
Proof.
  intros Hc. unfold run_exiftool_write.
  pose proof (gps_emit _ Hc). pose proof (@gps_act exif_cmd unit). pres.
Qed.

Lemma gps_embed_timestamp src date media dest primary :
  preserves R (embed_timestamp cfg run_exiftool_fn src date media dest primary).
Proof.
  unfold embed_timestamp, log_exiftool_failure.
  pose proof (gps_run_exiftool_write (WriteTimestamps date dest) I).
  pose proof gps_append_line. pres.
Qed.

Lemma gps_embed_gps media dest supp :
  preserves R
    (embed_gps cfg float_of_str get_embedded_gps_fn run_exiftool_fn media dest supp).
Proof.
  unfold embed_gps, log_exiftool_failure.
  destruct (has_items supp); [|pres].
  tapply preserves_mbind; [pres|]. intros [has_gps valid].
  destruct (negb has_gps || negb valid); [|pres].
  tapply (preserves_mbind_returns R valid_coordinates);
    [pres | apply pick_gps_returns_valid |].
  intros [[[lat lon] alt]|] Hv; [|pres].
  pose proof (gps_run_exiftool_write (WriteGPS lat lon alt dest) Hv).
  pose proof gps_append_line. pres.
Qed.

Lemma gps_process_one_media live max_path_length media base primary supp :
  preserves R
    (process_one_media cfg float_of_str get_exif_datetime_fn get_real_extension_fn
       get_embedded_gps_fn normalize_media_extension_fn run_exiftool_fn
       live max_path_length media base primary supp).
Proof.
  unfold process_one_media, send_to_needs_review, send_to_path_too_long,
    skip_existing, commit_media, log_processed_file, log_path_too_long.
  pose proof gps_makedirs. pose proof gps_move. pose proof gps_copy_jsons.
  pose proof gps_append_line. pose proof gps_embed_timestamp.
  pose proof gps_embed_gps. pose proof (@gps_act str str).
  pose proof (fun p => gps_emit (EvNormalize p) I).
  pres.
Qed.

Lemma gps_process_media_files media_files json_lookup live max_path_length :
  preserves R
    (process_media_files cfg float_of_str get_exif_datetime_fn get_real_extension_fn
       get_embedded_gps_fn normalize_media_extension_fn run_exiftool_fn
       media_files json_lookup live max_path_length).
Proof.
  unfold process_media_files, process_media_file.
  pose proof gps_process_one_media. pres.
Qed.

End GpsWrites.

End GpsFacts.

(** ** GPS validity: the claim *)

Module Gps.
Import Py OsPath Rt Sys Config Logs Paths Json Exif Matching Workflow Notions Frames.
Import GpsFacts Scenarios.

(** C3: GPS validity is the Null Island rule wherever a GPS pair is
    judged.  A pair is invalid exactly when [abs lat < 0.0001] and
    [abs lon < 0.0001]; the five pairs of the specification fall as it
    says; the embedded reader and the extraction from a sidecar both judge
    a pair by this rule; what the sidecar extraction and the picker return
    is valid; and no run of [process_media_files] hands an invalid pair to
    the metadata tool. *)
Theorem gps_validity_is_the_null_island_rule
    (cfg : ProcessMediaConfig) (float_of_str : str -> option float)
    (get_exif_datetime_fn : gmap str content -> str -> py_result (option datetime))
    (get_real_extension_fn : gmap str content -> str -> py_result str)
    (get_embedded_gps_fn : gmap str content -> str -> py_result (bool * bool))
    (normalize_media_extension_fn :
       gmap str content -> str -> py_result (str * gmap str content))
    (run_exiftool_fn :
       gmap str content -> exif_cmd -> py_result (unit * gmap str content)) :
  (forall lat lon,
     gps_valid lat lon = false
     <-> PrimFloat.ltb (PrimFloat.abs lat) 0.0001 = true
         /\ PrimFloat.ltb (PrimFloat.abs lon) 0.0001 = true)
  /\ (gps_valid 0 100 = true /\ gps_valid 51.5 0 = true
      /\ gps_valid (-33.9) 151.2 = true
      /\ gps_valid 0 0 = false /\ gps_valid 0.00001 0.00001 = false)
  /\ (forall stdout l0 l1 rest lat lon,
        splitlines (strip stdout) = l0 :: l1 :: rest ->
        strip stdout <> [] -> strip l0 <> [] -> strip l1 <> [] ->
        float_of_str (strip l0) = Some lat ->
        float_of_str (strip l1) = Some lon ->
        get_embedded_gps float_of_str (Ok stdout) = (true, gps_valid lat lon))
  /\ (forall geo lat_v lon_v alt_v lat lon alt,
        py_get geo $"latitude" (JInt 0) = Ok lat_v ->
        py_get geo $"longitude" (JInt 0) = Ok lon_v ->
        py_get geo $"altitude" (JInt 0) = Ok alt_v ->
        py_float float_of_str lat_v = Ok lat ->
        py_float float_of_str lon_v = Ok lon ->
        py_float float_of_str alt_v = Ok alt ->
        gps_of_block float_of_str geo
          = Ok (if gps_valid lat lon then Some (lat, lon, alt) else None))
  /\ (forall path w g,
        (get_valid_gps_from_supplemental float_of_str path w).1 = Ok g ->
        valid_coordinates g)
  /\ (forall paths w g,
        (pick_gps_from_json_list float_of_str paths w).1 = Ok g ->
        valid_coordinates g)
  /\ (forall media_files json_lookup is_live_run max_path_length w,
        only_events gps_ok w
          (process_media_files cfg float_of_str get_exif_datetime_fn
             get_real_extension_fn get_embedded_gps_fn
             normalize_media_extension_fn run_exiftool_fn
             media_files json_lookup is_live_run max_path_length w).2).
Proof.
  repeat apply conj; try reflexivity.
  - intros lat lon. unfold gps_valid, null_island.
    rewrite negb_false_iff, andb_true_iff. reflexivity.
  - apply get_embedded_gps_exact.
  - apply gps_of_block_exact.
  - intros path w g. apply get_valid_gps_returns_valid.
  - intros paths w g. apply pick_gps_returns_valid.
  - intros. apply gps_process_media_files.
Qed.

Lemma gps_validity_is_the_null_island_rule_witness :
  get_embedded_gps float_table (Ok ($"51.5" ++ ["010"%char] ++ $"0.0" ++ ["010"%char]))
    = (true, gps_valid 51.5 0)
  /\ gps_of_block float_table
       (JObj [($"latitude", JFloat 0); ($"longitude", JStr $"100")])
     = Ok (if gps_valid 0 100 then Some (0, 100, 0)%float else None)
  /\ valid_coordinates (Some (0, 100, 0)%float).
Proof.
  destruct (gps_validity_is_the_null_island_rule cfg float_table
              Tool.get_exif_datetime Tool.get_real_extension_from_exiftool
              Tool.get_embedded_gps Tool.normalize_media_extension Tool.run_exiftool)
    as (_ & _ & Hemb & Hblock & Hside & _).
  split; [|split].
  - apply (Hemb _ $"51.5" $"0.0" []); vm_compute; try reflexivity; discriminate.
  - apply (Hblock _ (JFloat 0) (JStr $"100") (JInt 0)); reflexivity.
  - apply (Hside $"/r/a.json"
             (blank {[ $"/r/a.json" :=
                Json (JObj [($"geoData", JObj [($"latitude", JFloat 0);
                                               ($"longitude", JStr $"100")])]) ]})).
    vm_compute. reflexivity.
Defined.

End Gps.

(** ** The ledger of work items (2-process-media.py) *)

Module LedgerFacts.
Import Py OsPath Rt Sys Config Logs Paths Json Matching Workflow Pass2 Notions Frames.

Lemma mbind_inv {A B} (m : M A) (k : A -> M B) w b w' :
  (m ≫= k) w = (Ok b, w') ->
  exists a w1, m w = (Ok a, w1) /\ k a w1 = (Ok b, w').
Proof.
  unfold mbind, M_bind, bind. destruct (m w) as [[a|e] w1]; [eauto | done].
Qed.

Lemma try_except_inv {A} caught (m : M A) h w a w' :
  try_except caught m h w = (Ok a, w') ->
  m w = (Ok a, w')
  \/ exists e w1, m w = (Raise e, w1) /\ caught e = true /\ h e w1 = (Ok a, w').
Proof.
  unfold try_except. destruct (m w) as [[a1|e] w1]; [by left|].
  destruct (caught e) eqn:E; [|done]. right. eauto.
Qed.

#[export] Instance progress_only_quiet : Quiet progress_only.
Proof.
  split.
  - split.
    + intros w. by split.
    + intros w1 w2 w3 [H1 H2] [H3 H4]. split; [lia | set_solver].
  - intros line w. by split.
Qed.

#[export] Instance progress_only_fs_free : FsFree progress_only.
Proof. split; intros f w; by split. Qed.

#[export] Instance progress_only_emits : Emits (fun _ => True) progress_only.
Proof. intros e w _. by split. Qed.

Lemma progress_incr_processed : preserves progress_only incr_processed.
Proof. intros w. by split. Qed.
Lemma progress_incr_matches : preserves progress_only incr_matches.
Proof. intros w. by split. Qed.
Lemma progress_incr_warnings : preserves progress_only incr_warnings.
Proof. intros w. by split. Qed.
Lemma progress_incr_errors : preserves progress_only incr_errors.
Proof.
  intros w. unfold incr_errors, modify, set_locals, progress_only. simpl.
  split; [lia | done].
Qed.
Lemma progress_mark_processed p : preserves progress_only (mark_processed p).
Proof. intros w. split; simpl; [done | set_solver]. Qed.

Lemma on_ok_mbind_r {A B} Q (m : M A) (k : A -> M B) :
  (forall a, on_ok Q (k a)) -> on_ok Q (m ≫= k).
Proof.
  intros Hk w b w' H. apply mbind_inv in H as (a & w1 & _ & H). by eapply Hk.
Qed.

Lemma on_ok_mark_processed p :
  on_ok (fun w => p ∈ processed_media_files w) (mark_processed p).
Proof.
  intros w a w' H. unfold mark_processed, modify in H. simplify_eq. simpl.
  set_solver.
Qed.

Section Progress.

Variable cfg : ProcessMediaConfig.
Variable float_of_str : str -> option float.
Variable get_exif_datetime_fn : gmap str content -> str -> py_result (option datetime).
Variable get_real_extension_fn : gmap str content -> str -> py_result str.
Variable get_embedded_gps_fn : gmap str content -> str -> py_result (bool * bool).
Variable normalize_media_extension_fn :
  gmap str content -> str -> py_result (str * gmap str content).
Variable run_exiftool_fn :
  gmap str content -> exif_cmd -> py_result (unit * gmap str content).

Let R := progress_only.

Lemma progress_makedirs p : preserves R (makedirs p).
Proof. by tapply (preserves_makedirs (fun _ => True)). Qed.
Lemma progress_move src dst : preserves R (move src dst).
Proof. by tapply (preserves_move (fun _ => True)). Qed.
Lemma progress_copy2 src dst : preserves R (copy2 src dst).
Proof. by tapply (preserves_copy2 (fun _ => True)). Qed.
Lemma progress_append_line p line : preserves R (append_line p line).
Proof. by tapply (preserves_append_line (fun _ => True)). Qed.
Lemma progress_emit e : preserves R (emit e).
Proof. by tapply (preserves_emit (fun _ => True)). Qed.
Lemma progress_act {A B}
    (f : gmap str content -> A -> py_result (B * gmap str content)) a :
  preserves R (act f a).
Proof. tapply preserves_act. Qed.

Lemma progress_process_one_media live max_path_length media base primary supp :
  preserves R
    (process_one_media cfg float_of_str get_exif_datetime_fn get_real_extension_fn
       get_embedded_gps_fn normalize_media_extension_fn run_exiftool_fn
       live max_path_length media base primary supp).
Proof.
  unfold process_one_media, send_to_needs_review, send_to_path_too_long,
    skip_existing, commit_media, embed_timestamp, embed_gps, run_exiftool_write,
    copy_jsons, dry_run_report, log_processed_file, log_path_too_long,
    log_exiftool_failure.
  pose proof progress_makedirs. pose proof progress_move.
  pose proof progress_copy2. pose proof progress_append_line.
  pose proof progress_emit. pose proof (@progress_act str str).
  pose proof (@progress_act exif_cmd unit).
  pose proof progress_incr_processed. pose proof progress_incr_warnings.
  pose proof progress_mark_processed.
  pres.
Qed.

(** When the body of the [try] returns, the file is in the set of
    processed files. *)
Lemma process_one_media_marks live max_path_length media base primary supp :
  on_ok (fun w => media ∈ processed_media_files w)
    (process_one_media cfg float_of_str get_exif_datetime_fn get_real_extension_fn
       get_embedded_gps_fn normalize_media_extension_fn run_exiftool_fn
       live max_path_length media base primary supp).
Proof.
  unfold process_one_media, send_to_needs_review, send_to_path_too_long.
  apply on_ok_mbind_r. intros [[date src]|].
  - apply on_ok_mbind_r. intros real_ext.
    destruct (destination cfg date media real_ext) as [dest_dir dest_media_path].
    destruct (validate_path_length dest_media_path max_path_length) as [v n].
    destruct (negb v).
    + repeat (apply on_ok_mbind_r; intros ?). apply on_ok_mark_processed.
    + apply on_ok_mbind_r; intros ?. apply on_ok_mark_processed.
  - repeat (apply on_ok_mbind_r; intros ?). apply on_ok_mark_processed.
Qed.

(** One turn of the loop: the file ends in the set of processed files, or
    an error is counted. *)
Lemma process_media_file_post json_lookup live max_path_length media w r w' :
  process_media_file cfg float_of_str get_exif_datetime_fn get_real_extension_fn
    get_embedded_gps_fn normalize_media_extension_fn run_exiftool_fn
    json_lookup live max_path_length media w = (r, w') ->
  progress_only w w'
  /\ (r = Ok tt ->
      media ∈ processed_media_files w'
      \/ (errors_found (locals w) < errors_found (locals w'))%nat).
Proof.
  unfold process_media_file. intros H.
  unfold mbind, M_bind, bind at 1, get_world in H.
  destruct (bool_decide (media ∈ processed_media_files w)) eqn:Hin.
  { unfold ret in H. simplify_eq. split; [reflexivity|].
    intros _. left. by apply bool_decide_eq_true_1 in Hin. }
  destruct (match_json_for_media (basename media) json_lookup) as [primary supp].
  set (announce := if has_items (primary ++ supp) then _ else _) in H.
  assert (preserves progress_only announce) as Ha.
  { subst announce. pose proof progress_incr_matches. pres. }
  assert (forall w0, exists w1, announce w0 = (Ok tt, w1)) as Hok.
  { intros w0. subst announce. destruct (has_items (primary ++ supp)); eexists;
      reflexivity. }
  destruct (Hok w) as [w0 E0]. specialize (Ha w). rewrite E0 in Ha.
  cbn [fst snd] in Ha.
  unfold bind in H. rewrite E0 in H.
  pose proof (progress_process_one_media live max_path_length media
                (basename media) primary supp w0) as Hb.
  pose proof (process_one_media_marks live max_path_length media
                (basename media) primary supp w0) as Hm.
  unfold try_except in H.
  destruct (process_one_media _ _ _ _ _ _ _ _ _ _ _ _ _ w0) as [[a|e] w1];
    cbn [fst snd] in *.
  - simplify_eq. split; [by etrans|]. intros _. left. by eapply Hm.
  - destruct (any_exception e).
    + cbv beta iota delta [log print modify incr_errors] in H. simplify_eq.
      destruct Ha as [Ha1 Ha2], Hb as [Hb1 Hb2].
      unfold progress_only.
      cbn [locals processed_media_files set_locals add_console errors_found].
      split; [split; [lia | set_solver]|].
      intros _. right. lia.
    + simplify_eq. split; [by etrans | done].
Qed.

Lemma for_each_media_post json_lookup live max_path_length media_files :
  forall w r w',
  for_each media_files
    (process_media_file cfg float_of_str get_exif_datetime_fn get_real_extension_fn
       get_embedded_gps_fn normalize_media_extension_fn run_exiftool_fn
       json_lookup live max_path_length) w = (r, w') ->
  progress_only w w'
  /\ (r = Ok tt ->
      forall f, f ∈ media_files ->
        f ∈ processed_media_files w'
        \/ (errors_found (locals w) < errors_found (locals w'))%nat).
Proof.
  induction media_files as [|x rest IH]; intros w r w' H; simpl in H.
  - unfold ret in H. simplify_eq. split; [reflexivity|].
    intros _ f Hf. by apply elem_of_nil in Hf.
  - unfold bind in H.
    destruct (process_media_file _ _ _ _ _ _ _ _ _ _ x w) as [r1 w1] eqn:E1.
    apply process_media_file_post in E1 as [Hp1 Hx].
    destruct r1 as [[]|e].
    + apply IH in H as [Hp2 Hrest]. split; [by etrans|].
      intros Hr f Hf. destruct Hp1 as [He1 Hs1], Hp2 as [He2 Hs2].
      apply elem_of_cons in Hf as [->|Hf].
      * destruct (Hx eq_refl) as [Hin | Hlt];
          [left; by eapply elem_of_weaken | right; lia].
      * destruct (Hrest Hr f Hf) as [Hin | Hlt]; [by left | right; lia].
    + simplify_eq. split; [done | done].
Qed.

(** After [process_media_files] every media file is in the set of
    processed files, unless an error was counted. *)
Lemma process_media_files_post media_files json_lookup live max_path_length w c w' :
  process_media_files cfg float_of_str get_exif_datetime_fn get_real_extension_fn
    get_embedded_gps_fn normalize_media_extension_fn run_exiftool_fn
    media_files json_lookup live max_path_length w = (Ok c, w') ->
  c = locals w'
  /\ (forall f, f ∈ media_files ->
        f ∈ processed_media_files w' \/ (0 < errors_found c)%nat).
Proof.
  unfold process_media_files. intros H.
  apply mbind_inv in H as ([] & w0 & E0 & H).
  unfold modify in E0. simplify_eq.
  apply mbind_inv in H as ([] & w1 & E1 & H).
  unfold mbind, M_bind, bind, get_world, ret in H. simplify_eq.
  split; [done|].
  apply for_each_media_post in E1 as [_ Hf]. intros f Hin.
  destruct (Hf eq_refl f Hin) as [? | Hlt]; [by left | right].
  simpl in Hlt. lia.
Qed.

(** Unless the archive was completed in a live run, nothing follows the
    processing of the archive but the cleaning of the workbench. *)
Lemma process_work_item_unmarked live clean json_lookup archive_items item_path w :
  let r1 := process_archive cfg float_of_str get_exif_datetime_fn
              get_real_extension_fn get_embedded_gps_fn
              normalize_media_extension_fn run_exiftool_fn
              live json_lookup item_path w in
  live = false \/ r1.1 <> Ok true ->
  only_events (cleanup_event cfg) r1.2
    (process_work_item cfg float_of_str get_exif_datetime_fn
       get_real_extension_fn get_embedded_gps_fn
       normalize_media_extension_fn run_exiftool_fn
       live clean json_lookup archive_items ($"archive", item_path) w).2.
Proof.
  intros r1 Hno. unfold process_work_item.
  change (str_eqb $"archive" $"archive") with true. cbn iota.
  unfold mbind, M_bind, bind at 1. fold r1.
  destruct r1 as [[b|e] w1]; cbn [fst snd] in *; [|reflexivity].
  assert (b && live = false) as ->.
  { destruct Hno as [-> | Hb]; [apply andb_false_r|]. destruct b; [done|]. done. }
  assert (preserves (only_events (cleanup_event cfg)) (clean_workbench_dir cfg)) as Hc.
  { unfold clean_workbench_dir.
    pose proof (preserves_rmtree (cleanup_event cfg) (only_events (cleanup_event cfg))
                  (extract_target_dir cfg) (or_introl eq_refl)).
    pose proof (preserves_makedirs (cleanup_event cfg) (only_events (cleanup_event cfg))
                  (extract_target_dir cfg) (or_intror eq_refl)).
    pres. }
  assert (preserves (only_events (cleanup_event cfg))
            (ret tt;; if b && (clean || (1 <? length archive_items)%nat)
                      then clean_workbench_dir cfg else ret tt)) as Hp by pres.
  apply Hp.
Qed.

End Progress.

End LedgerFacts.

(** ** Turns of the loop over the media files *)

Module TurnFacts.
Import Py OsPath Rt Sys Config Logs Paths Json Matching Workflow Pass2 Notions Frames.
Import LedgerFacts.

#[export] Instance printed_only_quiet : Quiet printed_only.
Proof.
  split.
  - split.
    + intros w. apply TimestampFacts.printed_only_refl.
    + intros w1 w2 w3. apply TimestampFacts.printed_only_trans.
  - intros line w. apply TimestampFacts.printed_only_print.
Qed.

Lemma announced_refl w : announced w w.
Proof. by repeat split. Qed.

#[export] Instance unmarked_quiet : Quiet unmarked.
Proof.
  split.
  - split.
    + intros w. by split.
    + intros w1 w2 w3 [H1 H2] [H3 H4]. split; congruence.
  - intros line w. by split.
Qed.

#[export] Instance unmarked_fs_free : FsFree unmarked.
Proof. split; intros f w; by split. Qed.

#[export] Instance unmarked_emits : Emits (fun _ => True) unmarked.
Proof. intros e w _. by split. Qed.

Lemma unmarked_incr_processed : preserves unmarked incr_processed.
Proof. intros w. by split. Qed.
Lemma unmarked_incr_matches : preserves unmarked incr_matches.
Proof. intros w. by split. Qed.
Lemma unmarked_incr_warnings : preserves unmarked incr_warnings.
Proof. intros w. by split. Qed.

Lemma marks_last_bind {A} f (m : M A) (k : A -> M unit) :
  preserves unmarked m -> (forall a, marks_last f (k a)) -> marks_last f (m ≫= k).
Proof.
  intros Hm Hk w. unfold mbind, M_bind, bind. specialize (Hm w).
  destruct (m w) as [[a|e] w1]; cbn [snd] in Hm; [|done].
  specialize (Hk a w1). destruct (k a w1) as [[u|e] w2].
  - destruct Hm as [Hp He], Hk as [Hin He2]. split; [done | congruence].
  - by etrans.
Qed.

Lemma marks_last_mark f : marks_last f (mark_processed f).
Proof. intros w. simpl. split; [set_solver | done]. Qed.

(** A loop that returns has run every turn, and each turn returned. *)
Lemma for_each_turns {A} (body : A -> M unit) (R : relation world) `{!PreOrder R}
    (xs : list A) :
  (forall x, preserves R (body x)) ->
  forall w w',
    for_each xs body w = (Ok tt, w') ->
    (turn_starts body xs w).*1 = xs
    /\ forall x w_x, (x, w_x) ∈ turn_starts body xs w ->
         exists w_x', body x w_x = (Ok tt, w_x') /\ R w_x' w'.
Proof.
  intros Hb. induction xs as [|x rest IH]; intros w w' H; cbn in H |- *.
  - split; [done|]. intros x w_x Hin. by apply elem_of_nil in Hin.
  - unfold bind in H. destruct (body x w) as [[[]|e] w1] eqn:E; [|done].
    destruct (IH _ _ H) as [Hfst Hturns].
    assert (R w1 w') as Hrest.
    { clear -H Hb PreOrder0. revert w1 H.
      induction rest as [|y rest IH]; intros w1 H; cbn in H.
      - unfold ret in H. by simplify_eq.
      - unfold bind in H. pose proof (Hb y w1) as Hy.
        destruct (body y w1) as [[[]|e] w2]; [|done].
        etrans; [exact Hy | by apply IH]. }
    split; [cbn; by f_equal|].
    intros y w_y [Heq|Hin]%elem_of_cons.
    + simplify_eq. by exists w1.
    + by apply Hturns.
Qed.

Section Turns.

Variable cfg : ProcessMediaConfig.
Variable float_of_str : str -> option float.
Variable get_exif_datetime_fn : gmap str content -> str -> py_result (option datetime).
Variable get_real_extension_fn : gmap str content -> str -> py_result str.
Variable get_embedded_gps_fn : gmap str content -> str -> py_result (bool * bool).
Variable normalize_media_extension_fn :
  gmap str content -> str -> py_result (str * gmap str content).
Variable run_exiftool_fn :
  gmap str content -> exif_cmd -> py_result (unit * gmap str content).

Let R := unmarked.

Lemma unmarked_makedirs p : preserves R (makedirs p).
Proof. by tapply (preserves_makedirs (fun _ => True)). Qed.
Lemma unmarked_move src dst : preserves R (move src dst).
Proof. by tapply (preserves_move (fun _ => True)). Qed.
Lemma unmarked_copy2 src dst : preserves R (copy2 src dst).
Proof. by tapply (preserves_copy2 (fun _ => True)). Qed.
Lemma unmarked_append_line p line : preserves R (append_line p line).
Proof. by tapply (preserves_append_line (fun _ => True)). Qed.
Lemma unmarked_emit e : preserves R (emit e).
Proof. by tapply (preserves_emit (fun _ => True)). Qed.
Lemma unmarked_act {A B}
    (f : gmap str content -> A -> py_result (B * gmap str content)) a :
  preserves R (act f a).
Proof. tapply preserves_act. Qed.

Ltac unmarked_leaves :=
  pose proof unmarked_makedirs; pose proof unmarked_move;
  pose proof unmarked_copy2; pose proof unmarked_append_line;
  pose proof unmarked_emit; pose proof (@unmarked_act str str);
  pose proof (@unmarked_act exif_cmd unit);
  pose proof unmarked_incr_processed; pose proof unmarked_incr_warnings;
  pose proof unmarked_incr_matches.

(** The body of the [try] marks the file as its last step. *)
Lemma process_one_media_marks_last live max_path_length media base primary supp :
  marks_last media
    (process_one_media cfg float_of_str get_exif_datetime_fn get_real_extension_fn
       get_embedded_gps_fn normalize_media_extension_fn run_exiftool_fn
       live max_path_length media base primary supp).
Proof.
  unmarked_leaves.
  unfold process_one_media, send_to_needs_review, send_to_path_too_long.
  apply marks_last_bind; [pres|]. intros [[date src]|].
  - apply marks_last_bind; [pres|]. intros real_ext.
    destruct (destination cfg date media real_ext) as [dest_dir dest_media_path].
    destruct (validate_path_length dest_media_path max_path_length) as [v n].
    destruct (negb v).
    + repeat (apply marks_last_bind;
              [unfold copy_jsons, log_processed_file, log_path_too_long; pres
              | intros ?]).
      apply marks_last_mark.
    + apply marks_last_bind; [|intros ?; apply marks_last_mark].
      unfold skip_existing, commit_media, embed_timestamp, embed_gps,
        run_exiftool_write, copy_jsons, dry_run_report, log_processed_file,
        log_exiftool_failure.
      pres.
  - repeat (apply marks_last_bind;
            [unfold copy_jsons, log_processed_file; pres | intros ?]).
    apply marks_last_mark.
Qed.

(** One turn of the loop, for a file that is not in the set of processed
    files: the body of the [try] runs after the announcement; what it
    returns is the result of the turn, and an exception it raises is
    counted as one error. *)
Lemma process_media_file_turn json_lookup live max_path_length media w :
  media ∉ processed_media_files w ->
  exists w0,
    announced w w0
    /\ process_media_file cfg float_of_str get_exif_datetime_fn get_real_extension_fn
         get_embedded_gps_fn normalize_media_extension_fn run_exiftool_fn
         json_lookup live max_path_length media w
       = match process_one_media cfg float_of_str get_exif_datetime_fn
                 get_real_extension_fn get_embedded_gps_fn
                 normalize_media_extension_fn run_exiftool_fn
                 live max_path_length media (basename media)
                 (match_json_for_media (basename media) json_lookup).1
                 (match_json_for_media (basename media) json_lookup).2 w0 with
         | (Ok u, w1) => (Ok u, w1)
         | (Raise e, w1) =>
             if any_exception e
             then (incr_errors (add_console $"   - Stack trace"
                     (add_console ($"   - ERROR processing '" ++ basename media ++ $"'")
                        w1)))
             else (Raise e, w1)
         end.
Proof.
  intros Hnot. unfold process_media_file.
  unfold mbind, M_bind, bind at 1, get_world.
  rewrite bool_decide_eq_false_2 by done.
  destruct (match_json_for_media (basename media) json_lookup) as [primary supp].
  cbn [fst snd].
  set (announce := if has_items (primary ++ supp) then _ else _).
  assert (exists w0, announce w = (Ok tt, w0) /\ announced w w0) as (w0 & E0 & Ha).
  { subst announce. destruct (has_items (primary ++ supp)); eexists;
      (split; [reflexivity | by repeat split]). }
  exists w0. split; [done|].
  unfold bind. rewrite E0. unfold try_except.
  destruct (process_one_media _ _ _ _ _ _ _ _ _ _ _ _ _ w0) as [[[]|e] w1];
    [done|].
  destruct (any_exception e); done.
Qed.

Lemma progress_process_media_file json_lookup live max_path_length media :
  preserves progress_only
    (process_media_file cfg float_of_str get_exif_datetime_fn get_real_extension_fn
       get_embedded_gps_fn normalize_media_extension_fn run_exiftool_fn
       json_lookup live max_path_length media).
Proof.
  intros w.
  destruct (process_media_file _ _ _ _ _ _ _ _ _ _ _ w) as [r w'] eqn:E.
  by apply (process_media_file_post cfg float_of_str get_exif_datetime_fn
              get_real_extension_fn get_embedded_gps_fn normalize_media_extension_fn
              run_exiftool_fn) in E as [? _].
Qed.

(** The loop over the media files, when it returns: every file had its
    turn, and every file is in the set of processed files at the end,
    except those for which the body of the [try] raised. *)
Lemma process_media_files_turns media_files json_lookup live max_path_length w c w' :
  process_media_files cfg float_of_str get_exif_datetime_fn get_real_extension_fn
    get_embedded_gps_fn normalize_media_extension_fn run_exiftool_fn
    media_files json_lookup live max_path_length w = (Ok c, w') ->
  let starts :=
    turn_starts
      (process_media_file cfg float_of_str get_exif_datetime_fn get_real_extension_fn
         get_embedded_gps_fn normalize_media_extension_fn run_exiftool_fn
         json_lookup live max_path_length)
      media_files (set_locals (fun _ => mk_counts 0 0 0 0) w) in
  c = locals w'
  /\ starts.*1 = media_files
  /\ forall f w_f, (f, w_f) ∈ starts ->
       f ∈ processed_media_files w'
       \/ exists w0 e w1,
            announced w_f w0
            /\ process_one_media cfg float_of_str get_exif_datetime_fn
                 get_real_extension_fn get_embedded_gps_fn
                 normalize_media_extension_fn run_exiftool_fn
                 live max_path_length f (basename f)
                 (match_json_for_media (basename f) json_lookup).1
                 (match_json_for_media (basename f) json_lookup).2 w0
               = (Raise e, w1).
Proof.
  intros H starts. unfold process_media_files in H.
  apply mbind_inv in H as ([] & w0 & E0 & H).
  unfold modify in E0. simplify_eq.
  apply mbind_inv in H as ([] & w1 & E1 & H).
  unfold mbind, M_bind, bind, get_world, ret in H. simplify_eq.
  split; [done|].
  destruct (for_each_turns _ progress_only media_files
              (progress_process_media_file json_lookup live max_path_length)
              _ _ E1) as [Hfst Hturns].
  split; [done|]. intros f w_f Hin.
  destruct (Hturns f w_f Hin) as (w_f' & Ef & [_ Hsub]).
  destruct (decide (f ∈ processed_media_files w_f)) as [Hp|Hp].
  { left. apply Hsub.
    pose proof (progress_process_media_file json_lookup live max_path_length f w_f) as [_ Hs].
    rewrite Ef in Hs. by apply Hs. }
  destruct (process_media_file_turn json_lookup live max_path_length f w_f Hp)
    as (wa & Ha & Eturn).
  rewrite Ef in Eturn.
  pose proof (process_one_media_marks_last live max_path_length f (basename f)
                (match_json_for_media (basename f) json_lookup).1
                (match_json_for_media (basename f) json_lookup).2 wa) as Hm.
  destruct (process_one_media _ _ _ _ _ _ _ _ _ _ _ _ _ wa) as [[[]|e] wb] eqn:Eb.
  - left. injection Eturn as ->. apply Hsub. by destruct Hm.
  - right. by exists wa, e, wb.
Qed.

(** An archive is reported as completed when it was extracted, its media
    files were listed, and [process_media_files] has run over the list and
    returned; apart from that, there was only printing. *)
Lemma process_archive_completed live json_lookup item_path w w1 :
  process_archive cfg float_of_str get_exif_datetime_fn get_real_extension_fn
    get_embedded_gps_fn normalize_media_extension_fn run_exiftool_fn
    live json_lookup item_path w = (Ok true, w1) ->
  exists w_a w_e w_x media_files c w_p,
    printed_only w w_a
    /\ extract_archive_to_workbench item_path true cfg w_a = (Ok tt, w_e)
    /\ printed_only w_e w_x
    /\ list_media_files (extract_target_dir cfg) w_x = (Ok media_files, w_x)
    /\ process_media_files cfg float_of_str get_exif_datetime_fn
         get_real_extension_fn get_embedded_gps_fn normalize_media_extension_fn
         run_exiftool_fn media_files json_lookup live MAX_PATH_LENGTH w_x
       = (Ok c, w_p)
    /\ printed_only w_p w1.
Proof.
  unfold process_archive. intros H.
  apply try_except_inv in H as [H | (e & w2 & _ & _ & H)].
  2: { apply mbind_inv in H as (? & ? & _ & H). by unfold ret in H. }
  apply mbind_inv in H as (w_0 & w_1 & E0 & H).
  unfold get_world in E0. injection E0 as <- <-.
  apply mbind_inv in H as ([] & w_2 & E1 & H).
  assert (w_2 = w) as ->
    by (destruct (files w !! item_path); unfold ret, raise in E1; congruence).
  apply mbind_inv in H as ([] & w_a & Ea & H).
  apply mbind_inv in H as ([] & w_e & Ee & H).
  apply mbind_inv in H as ([] & w_3 & E3 & H).
  apply mbind_inv in H as (d & w_4 & E4 & H).
  apply mbind_inv in H as ([] & w_5 & E5 & H).
  apply mbind_inv in H as (media_files & w_x & El & H).
  apply mbind_inv in H as (c & w_p & Ep & H).
  apply mbind_inv in H as ([] & w_q & Elog & H).
  unfold ret in H. injection H as <-.
  assert (forall A (m : M A) wi a wo,
            preserves printed_only m -> m wi = (Ok a, wo) -> printed_only wi wo)
    as Hpr.
  { intros A m wi a wo Hm E. specialize (Hm wi). by rewrite E in Hm. }
  assert (w_x = w_5 /\ list_media_files (extract_target_dir cfg) w_5
                       = (Ok media_files, w_5)) as [-> El'].
  { unfold list_media_files, mbind, M_bind, bind, get_world, ret in El |- *.
    by simplify_eq. }
  exists w_a, w_e, w_5, media_files, c, w_p.
  split; [eapply Hpr; [|exact Ea]; pres|].
  split; [done|].
  split.
  { etrans; [eapply Hpr; [|exact E3]; pres|].
    etrans; [eapply Hpr; [|exact E4]; pres|].
    eapply Hpr; [|exact E5]. unfold workbench_has_files. pres. }
  split; [done|]. split; [done|].
  eapply Hpr; [|exact Elog]. pres.
Qed.

(** In a live run the entry of a completed archive is the first call after
    those of [process_archive]; only the cleaning of the workbench
    follows. *)
Lemma process_work_item_marked clean json_lookup archive_items item_path w :
  let r1 := process_archive cfg float_of_str get_exif_datetime_fn
              get_real_extension_fn get_embedded_gps_fn
              normalize_media_extension_fn run_exiftool_fn
              true json_lookup item_path w in
  r1.1 = Ok true ->
  exists extra,
    trace (process_work_item cfg float_of_str get_exif_datetime_fn
             get_real_extension_fn get_embedded_gps_fn
             normalize_media_extension_fn run_exiftool_fn
             true clean json_lookup archive_items ($"archive", item_path) w).2
    = trace r1.2
      ++ EvAppend (processed_work_items_log_file cfg)
           (normalize_archive_key (strip (basename item_path))) :: extra
    /\ Forall (cleanup_event cfg) extra.
Proof.
  intros r1 Hok. unfold process_work_item.
  change (str_eqb $"archive" $"archive") with true. cbn iota.
  unfold mbind, M_bind, bind at 1. fold r1.
  destruct r1 as [[b|e] w1]; cbn [fst snd] in *; [|done].
  injection Hok as ->. cbn [andb].
  set (tail := if clean || _ then clean_workbench_dir cfg else ret tt).
  assert (preserves (only_events (cleanup_event cfg)) tail) as Ht.
  { subst tail. unfold clean_workbench_dir.
    pose proof (preserves_rmtree (cleanup_event cfg) (only_events (cleanup_event cfg))
                  (extract_target_dir cfg) (or_introl eq_refl)).
    pose proof (preserves_makedirs (cleanup_event cfg) (only_events (cleanup_event cfg))
                  (extract_target_dir cfg) (or_intror eq_refl)).
    pres. }
  unfold log_processed_work_item, normalize_work_item_key.
  change (startswith $"archive:" (normalize_archive_key (basename item_path)))
    with true. cbv iota.
  change (drop 8 (normalize_archive_key (basename item_path)))
    with (basename item_path).
  change (nonempty (normalize_archive_key (strip (basename item_path)))) with true.
  cbv iota.
  unfold log, print, append_line, emit.
  cbv beta iota delta [bind modify].
  set (w2 := add_event _ (add_console _ w1)).
  assert (trace w2 = trace w1 ++ [EvAppend (processed_work_items_log_file cfg)
                                    (normalize_archive_key (strip (basename item_path)))])
    as Hw2 by done.
  destruct (files w2 !! processed_work_items_log_file cfg) as [[| |ls| |]|];
    cbn [fst snd];
    try (exists []; split; [by rewrite Hw2 | constructor]);
    (match goal with
     | |- context [tail ?w3] =>
         destruct (Ht w3) as (extra & He & Hf); exists extra;
         split; [|done]; rewrite He; cbn [trace set_files]; rewrite Hw2;
         by rewrite <- app_assoc
     end).
Qed.

End Turns.

End TurnFacts.

(** ** The ledger of work items: the claim *)

Module Ledger.
Import Py OsPath Rt Sys Config Logs Paths Json Matching Workflow Pass2 Notions Frames.
Import Lookup LedgerFacts TurnFacts Scenarios.

(** C4, as it is written, fails: a live run over an archive with one media
    file whose sidecar makes the extractor raise ([photoTakenTime] is
    [null], an [AttributeError] that the extractor does not catch).  The
    error is counted, the file stays in the workbench, is in no ledger and
    not in the set of processed files, and the archive is entered in the
    ledger of work items all the same. *)
Lemma archive_marked_with_a_file_pending :
  let w := takeout_world [($"IMG_0001.jpg", jpeg None)]
             [($"IMG_0001.jpg.json", Json (JObj [($"photoTakenTime", JNull)]))] in
  (run true w).1 = Ok tt
  /\ files (run true w).2 !! processed_work_items_log_file cfg
     = Some (Text [$"archive:i.zip"])
  /\ files (run true w).2 !! processed_log_file cfg = None
  /\ files (run true w).2 !! $"/p/workbench/Takeout/IMG_0001.jpg" = Some (jpeg None)
  /\ (($"/p/workbench/Takeout/IMG_0001.jpg") ∉ processed_media_files (run true w).2)
  /\ errors_found (locals (run true w).2) = 1%nat.
Proof.
  repeat split; try (vm_compute; reflexivity).
  apply (proj1 (bool_decide_eq_false _)). vm_compute. reflexivity.
Qed.

(** C4 (amended): the entry of a work item is appended in a live run, when
    [process_archive] reports the archive as completed: the archive was
    extracted, its media files were listed, and [process_media_files] has
    run a turn for every listed file and returned.  The entry is the first
    call after those of [process_archive], and only the cleaning of the
    workbench follows it; otherwise no entry is appended.  When
    [process_media_files] returns, every file of the list is in the set of
    processed files (committed, diverted, skipped, or handled by an earlier
    run), except the files for which the body of the [try] raised: such a
    turn counts one error and leaves the set of processed files as it
    was. *)
Theorem work_item_is_marked_after_its_files_were_visited
    (cfg : ProcessMediaConfig) (float_of_str : str -> option float)
    (get_exif_datetime_fn : gmap str content -> str -> py_result (option datetime))
    (get_real_extension_fn : gmap str content -> str -> py_result str)
    (get_embedded_gps_fn : gmap str content -> str -> py_result (bool * bool))
    (normalize_media_extension_fn :
       gmap str content -> str -> py_result (str * gmap str content))
    (run_exiftool_fn :
       gmap str content -> exif_cmd -> py_result (unit * gmap str content)) :
  let step :=
    process_media_file cfg float_of_str get_exif_datetime_fn get_real_extension_fn
      get_embedded_gps_fn normalize_media_extension_fn run_exiftool_fn in
  let body := fun json_lookup live max_path_length f =>
    process_one_media cfg float_of_str get_exif_datetime_fn get_real_extension_fn
      get_embedded_gps_fn normalize_media_extension_fn run_exiftool_fn
      live max_path_length f (basename f)
      (match_json_for_media (basename f) json_lookup).1
      (match_json_for_media (basename f) json_lookup).2 in
  let archive :=
    process_archive cfg float_of_str get_exif_datetime_fn get_real_extension_fn
      get_embedded_gps_fn normalize_media_extension_fn run_exiftool_fn in
  let work_item :=
    process_work_item cfg float_of_str get_exif_datetime_fn get_real_extension_fn
      get_embedded_gps_fn normalize_media_extension_fn run_exiftool_fn in
  (forall json_lookup live max_path_length f w,
     (f ∈ processed_media_files w ->
      step json_lookup live max_path_length f w = (Ok tt, w))
     /\ (f ∉ processed_media_files w ->
         exists w0,
           announced w w0
           /\ match body json_lookup live max_path_length f w0 with
              | (Ok _, w1) =>
                  step json_lookup live max_path_length f w = (Ok tt, w1)
                  /\ f ∈ processed_media_files w1
              | (Raise e, w1) =>
                  processed_media_files w1 = processed_media_files w
                  /\ (any_exception e = true ->
                      exists w',
                        step json_lookup live max_path_length f w = (Ok tt, w')
                        /\ processed_media_files w' = processed_media_files w
                        /\ errors_found (locals w')
                           = S (errors_found (locals w)))
              end))
  /\ (forall media_files json_lookup live max_path_length w c w',
        process_media_files cfg float_of_str get_exif_datetime_fn
          get_real_extension_fn get_embedded_gps_fn normalize_media_extension_fn
          run_exiftool_fn media_files json_lookup live max_path_length w
          = (Ok c, w') ->
        let starts :=
          turn_starts (step json_lookup live max_path_length) media_files
            (set_locals (fun _ => mk_counts 0 0 0 0) w) in
        c = locals w'
        /\ starts.*1 = media_files
        /\ forall f w_f, (f, w_f) ∈ starts ->
             f ∈ processed_media_files w'
             \/ exists w0 e w1,
                  announced w_f w0
                  /\ body json_lookup live max_path_length f w0 = (Raise e, w1))
  /\ (forall live json_lookup item_path w w1,
        archive live json_lookup item_path w = (Ok true, w1) ->
        exists w_a w_e w_x media_files c w_p,
          printed_only w w_a
          /\ extract_archive_to_workbench item_path true cfg w_a = (Ok tt, w_e)
          /\ printed_only w_e w_x
          /\ list_media_files (extract_target_dir cfg) w_x = (Ok media_files, w_x)
          /\ process_media_files cfg float_of_str get_exif_datetime_fn
               get_real_extension_fn get_embedded_gps_fn
               normalize_media_extension_fn run_exiftool_fn
               media_files json_lookup live MAX_PATH_LENGTH w_x = (Ok c, w_p)
          /\ printed_only w_p w1)
  /\ (forall clean_workbench json_lookup archive_items item_path w,
        let r1 := archive true json_lookup item_path w in
        r1.1 = Ok true ->
        exists extra,
          trace (work_item true clean_workbench json_lookup archive_items
                   ($"archive", item_path) w).2
          = trace r1.2
            ++ EvAppend (processed_work_items_log_file cfg)
                 (normalize_archive_key (strip (basename item_path))) :: extra
          /\ Forall (cleanup_event cfg) extra)
  /\ (forall is_live_run clean_workbench json_lookup archive_items item_path w,
        let r1 := archive is_live_run json_lookup item_path w in
        is_live_run = false \/ r1.1 <> Ok true ->
        only_events (cleanup_event cfg) r1.2
          (work_item is_live_run clean_workbench json_lookup archive_items
             ($"archive", item_path) w).2).
Proof.
  intros step body archive work_item.
  split; [|split; [|split; [|split]]].
  - intros json_lookup live max_path_length f w. split.
    + intros Hin. subst step. unfold process_media_file.
      unfold mbind, M_bind, bind at 1, get_world.
      by rewrite bool_decide_eq_true_2.
    + intros Hnot.
      destruct (process_media_file_turn cfg float_of_str get_exif_datetime_fn
                  get_real_extension_fn get_embedded_gps_fn
                  normalize_media_extension_fn run_exiftool_fn
                  json_lookup live max_path_length f w Hnot) as (w0 & Ha & Et).
      exists w0. split; [done|]. fold step in Et. subst body. cbv beta.
      pose proof (process_one_media_marks_last cfg float_of_str get_exif_datetime_fn
                    get_real_extension_fn get_embedded_gps_fn
                    normalize_media_extension_fn run_exiftool_fn
                    live max_path_length f (basename f)
                    (match_json_for_media (basename f) json_lookup).1
                    (match_json_for_media (basename f) json_lookup).2 w0) as Hm.
      destruct Ha as (_ & _ & _ & Hp0 & He0).
      destruct (process_one_media _ _ _ _ _ _ _ _ _ _ _ _ _ w0) as [[[]|e] w1].
      * split; [done | by destruct Hm].
      * destruct Hm as [Hp1 He1]. split; [congruence|].
        intros Hany. rewrite Hany in Et. eexists. split; [exact Et|].
        cbn. split; [congruence|]. f_equal. congruence.
  - intros *. apply process_media_files_turns.
  - intros *. apply process_archive_completed.
  - intros *. apply process_work_item_marked.
  - intros *. apply process_work_item_unmarked.
Qed.

Lemma work_item_is_marked_after_its_files_were_visited_witness :
  let w := takeout_world [($"IMG_0001.jpg", jpeg None)]
             [($"IMG_0001.jpg.json", sidecar (JStr $"1628503872"))] in
  let json_lookup :=
    build_json_lookup (json_repository_dir cfg) [ $"IMG_0001.jpg.json" ] in
  let r1 := process_archive cfg (fun _ => None) Tool.get_exif_datetime
              Tool.get_real_extension_from_exiftool Tool.get_embedded_gps
              Tool.normalize_media_extension Tool.run_exiftool
              true json_lookup $"/p/takeout-archives/i.zip" w in
  r1.1 = Ok true
  /\ exists extra,
       trace (process_work_item cfg (fun _ => None) Tool.get_exif_datetime
                Tool.get_real_extension_from_exiftool Tool.get_embedded_gps
                Tool.normalize_media_extension Tool.run_exiftool
                true false json_lookup [] ($"archive", $"/p/takeout-archives/i.zip")
                w).2
       = trace r1.2
         ++ EvAppend (processed_work_items_log_file cfg)
              (normalize_archive_key (strip (basename $"/p/takeout-archives/i.zip")))
            :: extra
       /\ Forall (cleanup_event cfg) extra.
Proof.
  intros w json_lookup r1.
  assert (r1.1 = Ok true) as Hok by (vm_compute; reflexivity).
  split; [exact Hok|].
  destruct (work_item_is_marked_after_its_files_were_visited cfg (fun _ => None)
              Tool.get_exif_datetime Tool.get_real_extension_from_exiftool
              Tool.get_embedded_gps Tool.normalize_media_extension Tool.run_exiftool)
    as (_ & _ & _ & H & _).
  exact (H false json_lookup [] $"/p/takeout-archives/i.zip" w Hok).
Defined.

End Ledger.

(** ** What a dry run logs *)

Module DryRunLog.
Import Py OsPath Rt Sys Config Logs Paths Json Matching Workflow Pass2 Notions Frames.
Import TimestampFacts ResolutionFacts LedgerFacts TurnFacts DryRun.

#[export] Instance logged_quiet : Quiet logged.
Proof.
  split.
  - split.
    + intros w. split; [done|]. exists []. by rewrite app_nil_r.
    + intros w1 w2 w3 [H1 [l1 H2]] [H3 [l2 H4]]. split; [congruence|].
      exists (l1 ++ l2). by rewrite H4, H2, app_assoc.
  - intros line w. split; [done|]. by exists [line].
Qed.

#[export] Instance logged_locals_free : LocalsFree logged.
Proof. intros f w. split; [done|]. exists []. simpl. by rewrite app_nil_r. Qed.

#[export] Instance logged_processed_free : ProcessedFree logged.
Proof. intros f w. split; [done|]. exists []. simpl. by rewrite app_nil_r. Qed.

Lemma logged_In w w' line : logged w w' -> In line (console w) -> In line (console w').
Proof. intros [_ [l ->]] H. apply in_or_app. by left. Qed.

Lemma printed_only_logged w w' : printed_only w w' -> logged w w'.
Proof. intros [l ->]. split; [done|]. by exists l. Qed.

(** The extractor of timestamps, the picker and the chain never exit the
    process, unless the reader of embedded metadata does. *)
Lemma sidecar_timestamp_no_exit fs path :
  sidecar_timestamp fs path <> Raise SystemExit.
Proof.
  unfold sidecar_timestamp, get_timestamp_from_json, try_except, json_load,
    mbind, M_bind, bind, lift, ret, mret, M_ret, print, modify, blank,
    timestamp_field, py_get, py_int, int_of_str, int_of_float, fromtimestamp_utc,
    rbind.
  simpl. repeat (case_match; simplify_eq/=; try done).
Qed.

Lemma pick_on_files_no_exit fs paths : pick_on_files fs paths <> Raise SystemExit.
Proof.
  induction paths as [|p rest IH]; simpl; [done|].
  pose proof (sidecar_timestamp_no_exit fs p).
  destruct (sidecar_timestamp fs p) as [ts|e]; [|congruence].
  by destruct (ts_truthy ts).
Qed.

Lemma fromtimestamp_no_exit t : fromtimestamp_utc t <> Raise SystemExit.
Proof. unfold fromtimestamp_utc. repeat case_match; done. Qed.

Lemma resolve_on_files_no_exit embedded fs primary supp :
  embedded <> Raise SystemExit ->
  resolve_on_files embedded fs primary supp <> Raise SystemExit.
Proof.
  intros He. unfold resolve_on_files.
  destruct embedded as [[d|]|e]; simpl; [done| |congruence].
  pose proof (pick_on_files_no_exit fs (sorted primary)).
  destruct (pick_on_files fs (sorted primary)) as [ts1|e1]; simpl; [|congruence].
  destruct (ts_truthy ts1).
  { pose proof (fromtimestamp_no_exit (default 0 ts1)).
    destruct (fromtimestamp_utc (default 0 ts1)); simpl; congruence. }
  pose proof (pick_on_files_no_exit fs (sorted supp)).
  destruct (pick_on_files fs (sorted supp)) as [ts2|e2]; simpl; [|congruence].
  destruct (ts_truthy ts2); [|done].
  pose proof (fromtimestamp_no_exit (default 0 ts2)).
  destruct (fromtimestamp_utc (default 0 ts2)); simpl; congruence.
Qed.

Section Marks.
Variable x : str.

#[export] Instance marks_only_quiet : Quiet (marks_only x).
Proof.
  split.
  - split.
    + intros w y Hy. by apply elem_of_union_l.
    + intros w1 w2 w3 H1 H2 y Hy. apply H2 in Hy.
      apply elem_of_union in Hy as [Hy|Hy]; [by apply H1 | by apply elem_of_union_r].
  - intros line w y Hy. by apply elem_of_union_l.
Qed.

#[export] Instance marks_only_locals_free : LocalsFree (marks_only x).
Proof. intros f w y Hy. by apply elem_of_union_l. Qed.

Lemma marks_only_mark : preserves (marks_only x) (mark_processed x).
Proof. by intros w y Hy. Qed.

End Marks.

(** The fields of a world after a sequence of updates. *)
Ltac world_simpl :=
  cbn [fst snd console files dirs trace processed_media_files locals
       add_console add_event set_files set_dirs set_locals set_processed].

(** A line is in the console when it was printed at some point. *)
Ltac in_console :=
  solve [ repeat first [ apply in_or_app; right; left; reflexivity
                       | apply in_or_app; left ] ].

Section Decisions.

Variable cfg : ProcessMediaConfig.
Variable float_of_str : str -> option float.
Variable get_exif_datetime_fn : gmap str content -> str -> py_result (option datetime).
Variable get_real_extension_fn : gmap str content -> str -> py_result str.
Variable get_embedded_gps_fn : gmap str content -> str -> py_result (bool * bool).
Variable normalize_media_extension_fn :
  gmap str content -> str -> py_result (str * gmap str content).
Variable run_exiftool_fn :
  gmap str content -> exif_cmd -> py_result (unit * gmap str content).

(** A turn of a dry run puts no file but its own into the set of processed
    files. *)
Lemma dry_turn_marks_only json_lookup max_path_length media :
  preserves (marks_only media)
    (process_media_file cfg float_of_str get_exif_datetime_fn get_real_extension_fn
       get_embedded_gps_fn normalize_media_extension_fn run_exiftool_fn
       json_lookup false max_path_length media).
Proof.
  unfold process_media_file, process_one_media, send_to_needs_review,
    send_to_path_too_long, dry_run_report.
  pose proof (marks_only_mark media).
  unfold incr_matches, incr_errors, incr_warnings, incr_processed.
  pres.
Qed.

(** [process_media_files] is the loop after the counters were reset; it
    returns the counters. *)
Lemma process_media_files_run media_files json_lookup live max_path_length w :
  process_media_files cfg float_of_str get_exif_datetime_fn get_real_extension_fn
    get_embedded_gps_fn normalize_media_extension_fn run_exiftool_fn
    media_files json_lookup live max_path_length w
  = match for_each media_files
            (process_media_file cfg float_of_str get_exif_datetime_fn
               get_real_extension_fn get_embedded_gps_fn
               normalize_media_extension_fn run_exiftool_fn
               json_lookup live max_path_length)
            (set_locals (fun _ => mk_counts 0 0 0 0) w) with
    | (Ok _, w1) => (Ok (locals w1), w1)
    | (Raise e, w1) => (Raise e, w1)
    end.
Proof.
  unfold process_media_files, mbind, M_bind, bind, modify, get_world, ret.
  by destruct (for_each _ _ _) as [[[]|e] w1].
Qed.

(** The body of the [try] in a dry run: when it returns it has logged the
    decision, and when it raises the decision is the error. *)
Lemma dry_body_logs json_lookup max_path_length media w0 :
  let r := process_one_media cfg float_of_str get_exif_datetime_fn
             get_real_extension_fn get_embedded_gps_fn normalize_media_extension_fn
             run_exiftool_fn false max_path_length media (basename media)
             (match_json_for_media (basename media) json_lookup).1
             (match_json_for_media (basename media) json_lookup).2 w0 in
  let decision := dry_run_decision cfg get_exif_datetime_fn get_real_extension_fn
                    json_lookup max_path_length (files w0) media in
  logged w0 r.2
  /\ match r.1 with
     | Ok _ => forall line, In line decision -> In line (console r.2)
     | Raise e =>
         decision = if any_exception e
                    then [ $"   - ERROR processing '" ++ basename media ++ $"'" ]
                    else []
     end.
Proof.
  intros r decision. split.
  { subst r. tapply process_one_media_dry_run. }
  subst r decision. unfold dry_run_decision.
  set (primary := (match_json_for_media (basename media) json_lookup).1).
  set (supp := (match_json_for_media (basename media) json_lookup).2).
  destruct (resolve_timestamp_spec get_exif_datetime_fn media primary supp w0)
    as [Hr Hw].
  destruct (resolve_timestamp get_exif_datetime_fn media primary supp w0)
    as [res w1] eqn:E.
  cbn [fst snd] in Hr, Hw. rewrite <- Hr. clear Hr.
  pose proof (printed_only_files _ _ Hw) as Hfs.
  unfold process_one_media.
  destruct res as [[[date src]|]|e].
  - rewrite (mbind_ok _ _ _ _ _ E). cbn beta iota.
    assert (read get_real_extension_fn media w1
            = (get_real_extension_fn (files w0) media, w1)) as E2
      by (unfold read; by rewrite Hfs).
    destruct (get_real_extension_fn (files w0) media) as [real_ext|e];
      [|by rewrite (mbind_raise _ _ _ _ _ E2)].
    rewrite (mbind_ok _ _ _ _ _ E2).
    destruct (destination cfg date media real_ext) as [dest_dir dest_media_path].
    cbn [fst snd]. unfold validate_path_length.
    destruct (length dest_media_path <? max_path_length)%nat; cbn [negb];
      cbn beta iota.
    + unfold dry_run_report, log, print, modify, incr_processed, mark_processed,
        mbind, M_bind, bind, ret.
      destruct src, (has_items (primary ++ supp)); world_simpl;
        intros line [<-|[<-|[]]]; in_console.
    + unfold send_to_path_too_long, log, print, modify, incr_warnings,
        mark_processed, mbind, M_bind, bind, ret. world_simpl.
      intros line [<-|[<-|[]]]; in_console.
  - rewrite (mbind_ok _ _ _ _ _ E). cbn beta iota.
    unfold send_to_needs_review, log, print, modify, incr_warnings,
      mark_processed, mbind, M_bind, bind, ret. world_simpl.
    intros line [<-|[]]; in_console.
  - by rewrite (mbind_raise _ _ _ _ _ E).
Qed.

(** One turn of a dry run that returns, for a file that is not in the set
    of processed files, has logged the decision for the file. *)
Lemma dry_turn_logs json_lookup max_path_length media w w' :
  media ∉ processed_media_files w ->
  process_media_file cfg float_of_str get_exif_datetime_fn get_real_extension_fn
    get_embedded_gps_fn normalize_media_extension_fn run_exiftool_fn
    json_lookup false max_path_length media w = (Ok tt, w') ->
  forall line,
    In line (dry_run_decision cfg get_exif_datetime_fn get_real_extension_fn
               json_lookup max_path_length (files w) media) ->
    In line (console w').
Proof.
  intros Hnot Hturn.
  destruct (process_media_file_turn cfg float_of_str get_exif_datetime_fn
              get_real_extension_fn get_embedded_gps_fn normalize_media_extension_fn
              run_exiftool_fn json_lookup false max_path_length media w Hnot)
    as (w0 & Ha & Et).
  rewrite Hturn in Et.
  destruct Ha as (Hfs & _).
  pose proof (dry_body_logs json_lookup max_path_length media w0) as [_ Hb].
  cbv zeta in Hb. rewrite Hfs in Hb.
  destruct (process_one_media _ _ _ _ _ _ _ _ _ _ _ _ _ w0) as [[[]|e] w1];
    cbn [fst snd] in Hb.
  - by injection Et as ->.
  - rewrite Hb. destruct (any_exception e); [|done].
    injection Et as ->. intros line [<-|[]]. unfold incr_errors, modify.
    world_simpl. in_console.
Qed.

Section Returns.

Hypothesis reader_no_exit : forall fs p, get_exif_datetime_fn fs p <> Raise SystemExit.
Hypothesis extension_no_exit : forall fs p, get_real_extension_fn fs p <> Raise SystemExit.

Lemma dry_body_no_exit max_path_length media base primary supp :
  no_exit
    (process_one_media cfg float_of_str get_exif_datetime_fn get_real_extension_fn
       get_embedded_gps_fn normalize_media_extension_fn run_exiftool_fn
       false max_path_length media base primary supp).
Proof.
  intros w0.
  destruct (resolve_timestamp_spec get_exif_datetime_fn media primary supp w0)
    as [Hr Hw].
  pose proof (resolve_on_files_no_exit _ (files w0) primary supp
                (reader_no_exit (files w0) media)) as Hne.
  destruct (resolve_timestamp get_exif_datetime_fn media primary supp w0)
    as [res w1] eqn:E.
  cbn [fst snd] in Hr, Hw. rewrite <- Hr in Hne. clear Hr.
  unfold process_one_media.
  destruct res as [[[date src]|]|e].
  - rewrite (mbind_ok _ _ _ _ _ E). cbn beta iota.
    assert (read get_real_extension_fn media w1
            = (get_real_extension_fn (files w1) media, w1)) as E2 by done.
    pose proof (extension_no_exit (files w1) media) as Hx.
    destruct (get_real_extension_fn (files w1) media) as [real_ext|e].
    2: { rewrite (mbind_raise _ _ _ _ _ E2). cbn. congruence. }
    rewrite (mbind_ok _ _ _ _ _ E2).
    destruct (destination cfg date media real_ext) as [dest_dir dest_media_path].
    destruct (validate_path_length dest_media_path max_path_length) as [[] n];
      cbn [negb]; cbn beta iota.
    + unfold dry_run_report, log, print, modify, incr_processed, mark_processed,
        mbind, M_bind, bind, ret.
      by destruct src, (has_items (primary ++ supp)).
    + by unfold send_to_path_too_long, log, print, modify, incr_warnings,
        mark_processed, mbind, M_bind, bind, ret.
  - rewrite (mbind_ok _ _ _ _ _ E). cbn beta iota.
    by unfold send_to_needs_review, log, print, modify, incr_warnings,
      mark_processed, mbind, M_bind, bind, ret.
  - rewrite (mbind_raise _ _ _ _ _ E). cbn. congruence.
Qed.

(** A turn of a dry run returns. *)
Lemma dry_turn_returns json_lookup max_path_length media w :
  (process_media_file cfg float_of_str get_exif_datetime_fn get_real_extension_fn
     get_embedded_gps_fn normalize_media_extension_fn run_exiftool_fn
     json_lookup false max_path_length media w).1 = Ok tt.
Proof.
  destruct (decide (media ∈ processed_media_files w)) as [Hin|Hnot].
  { unfold process_media_file. unfold mbind, M_bind, bind at 1, get_world.
    by rewrite bool_decide_eq_true_2. }
  destruct (process_media_file_turn cfg float_of_str get_exif_datetime_fn
              get_real_extension_fn get_embedded_gps_fn normalize_media_extension_fn
              run_exiftool_fn json_lookup false max_path_length media w Hnot)
    as (w0 & _ & ->).
  pose proof (dry_body_no_exit max_path_length media (basename media)
                (match_json_for_media (basename media) json_lookup).1
                (match_json_for_media (basename media) json_lookup).2 w0) as Hne.
  destruct (process_one_media _ _ _ _ _ _ _ _ _ _ _ _ _ w0) as [[[]|e] w1];
    [done|].
  cbn [fst] in Hne. by destruct e.
Qed.

Lemma dry_loop_returns json_lookup max_path_length media_files : forall w,
  (for_each media_files
     (process_media_file cfg float_of_str get_exif_datetime_fn get_real_extension_fn
        get_embedded_gps_fn normalize_media_extension_fn run_exiftool_fn
        json_lookup false max_path_length) w).1 = Ok tt.
Proof.
  induction media_files as [|x rest IH]; intros w; [done|].
  cbn [for_each]. unfold bind.
  pose proof (dry_turn_returns json_lookup max_path_length x w) as Hx.
  destruct (process_media_file _ _ _ _ _ _ _ _ _ _ x w) as [r w1].
  cbn [fst] in Hx. subst r. apply IH.
Qed.

End Returns.

(** The loop of a dry run that returns has logged the decision for every
    file of the list that was not in the set of processed files. *)
Lemma dry_loop_logs json_lookup max_path_length media_files : forall w w',
  for_each media_files
    (process_media_file cfg float_of_str get_exif_datetime_fn get_real_extension_fn
       get_embedded_gps_fn normalize_media_extension_fn run_exiftool_fn
       json_lookup false max_path_length) w = (Ok tt, w') ->
  forall f, f ∈ media_files -> f ∉ processed_media_files w ->
  forall line,
    In line (dry_run_decision cfg get_exif_datetime_fn get_real_extension_fn
               json_lookup max_path_length (files w) f) ->
    In line (console w').
Proof.
  induction media_files as [|x rest IH]; intros w w' H f Hf Hnot line Hline.
  { by apply elem_of_nil in Hf. }
  cbn [for_each] in H. unfold bind in H.
  destruct (process_media_file _ _ _ _ _ _ _ _ _ _ x w) as [[[]|e] w1] eqn:Ex;
    [|done].
  assert (logged w w1) as Hl1.
  { pose proof (process_media_file_dry_run logged cfg float_of_str
                  get_exif_datetime_fn get_real_extension_fn get_embedded_gps_fn
                  normalize_media_extension_fn run_exiftool_fn
                  json_lookup max_path_length x w) as Hp.
    by rewrite Ex in Hp. }
  assert (logged w1 w') as Hl2.
  { pose proof (preserves_for_each logged rest _
                  (process_media_file_dry_run logged cfg float_of_str
                     get_exif_datetime_fn get_real_extension_fn get_embedded_gps_fn
                     normalize_media_extension_fn run_exiftool_fn
                     json_lookup max_path_length) w1) as Hp.
    by rewrite H in Hp. }
  destruct (decide (f = x)) as [->|Hne].
  - apply (logged_In _ _ _ Hl2). by eapply dry_turn_logs.
  - apply elem_of_cons in Hf as [?|Hf]; [done|].
    apply (IH _ _ H f Hf); [|by rewrite (proj1 Hl1)].
    pose proof (dry_turn_marks_only json_lookup max_path_length x w) as Hm.
    rewrite Ex in Hm. intros Hin. apply Hm in Hin.
    apply elem_of_union in Hin as [Hin|Hin]; [done|].
    by apply elem_of_singleton in Hin.
Qed.

End Decisions.

End DryRunLog.

(** ** Dry run: the claim *)

Module DryRunClaims.
Import Py OsPath Rt Sys Config Logs Paths Json Matching Workflow Pass2 Notions Frames.
Import DryRun DryRunLog Scenarios.

(** C5, as it is written, fails: a dry run extracts the archive into the
    workbench.  Before the run the extraction directory and the extracted
    file do not exist; after it both do, and the run has made three calls
    that change the file system. *)
Lemma dry_run_extracts_into_the_workbench :
  let w := takeout_world [($"IMG_0006(2).jpg", jpeg None)]
                         [($"IMG_0006.jpg(2).json", sidecar (JStr $"1628503872"))] in
  (run false w).1 = Ok tt
  /\ files w !! $"/p/workbench/Takeout/IMG_0006(2).jpg" = None
  /\ files (run false w).2 !! $"/p/workbench/Takeout/IMG_0006(2).jpg"
     = Some (jpeg None)
  /\ (($"/p/workbench/Takeout") ∉ dirs w)
  /\ (($"/p/workbench/Takeout") ∈ dirs (run false w).2)
  /\ trace (run false w).2
     = [ EvRmtree $"/p/workbench/Takeout";
         EvMakedirs $"/p/workbench/Takeout";
         EvExtract $"/p/takeout-archives/i.zip" $"/p/workbench/Takeout" ].
Proof.
  repeat split; try (vm_compute; reflexivity).
  apply (proj1 (bool_decide_eq_false _)). vm_compute. reflexivity.
Qed.

(** C5 (amended): in a dry run the processing of the media files changes
    no file and no directory and calls nothing that can change one (no
    move, copy, directory creation, log append or metadata write), for any
    input.  The run as a whole calls nothing but the emptying, creation and
    filling of the extraction directory of the workbench and, only with
    [--force-extract] or [--clean-workbench] and no [--archive-name], the
    removal of the log of processed files, so that no ledger is appended
    to and no metadata is written.  And the decisions are still computed
    and logged: unless a metadata reader exits the process, the processing
    of the media files returns, and for every file of the list that was
    not in the set of processed files the console holds its decision, that
    is the destination and the source of the timestamp, the diversion to
    the path-too-long folder, the diversion to needs-review, or the error
    that its processing raised. *)
Theorem dry_run_changes_nothing_but_the_workbench
    (cfg : ProcessMediaConfig) (float_of_str : str -> option float)
    (get_exif_datetime_fn : gmap str content -> str -> py_result (option datetime))
    (get_real_extension_fn : gmap str content -> str -> py_result str)
    (get_embedded_gps_fn : gmap str content -> str -> py_result (bool * bool))
    (normalize_media_extension_fn :
       gmap str content -> str -> py_result (str * gmap str content))
    (run_exiftool_fn :
       gmap str content -> exif_cmd -> py_result (unit * gmap str content)) :
  (forall media_files json_lookup max_path_length w,
     untouched w
       (process_media_files cfg float_of_str get_exif_datetime_fn
          get_real_extension_fn get_embedded_gps_fn normalize_media_extension_fn
          run_exiftool_fn media_files json_lookup false max_path_length w).2)
  /\ (forall batch_size archive_name force_extract clean_workbench w,
        only_events
          (dry_run_event cfg
             (negb (nonempty archive_name) && (force_extract || clean_workbench)))
          w
          (run_pass2 cfg float_of_str get_exif_datetime_fn get_real_extension_fn
             get_embedded_gps_fn normalize_media_extension_fn run_exiftool_fn
             false batch_size archive_name force_extract clean_workbench w).2)
  /\ ((forall fs p, get_exif_datetime_fn fs p <> Raise SystemExit) ->
      (forall fs p, get_real_extension_fn fs p <> Raise SystemExit) ->
      forall media_files json_lookup max_path_length w,
        let r := process_media_files cfg float_of_str get_exif_datetime_fn
                   get_real_extension_fn get_embedded_gps_fn
                   normalize_media_extension_fn run_exiftool_fn
                   media_files json_lookup false max_path_length w in
        r.1 = Ok (locals r.2)
        /\ forall f, f ∈ media_files -> f ∉ processed_media_files w ->
           forall line,
             In line (dry_run_decision cfg get_exif_datetime_fn get_real_extension_fn
                        json_lookup max_path_length (files w) f) ->
             In line (console r.2)).
Proof.
  split; [|split].
  - intros. tapply process_media_files_dry_run.
  - intros. apply dry_run_pass2.
  - intros Hreader Hext media_files json_lookup max_path_length w r.
    subst r. rewrite process_media_files_run.
    set (w0 := set_locals _ w).
    pose proof (dry_loop_returns cfg float_of_str get_exif_datetime_fn
                  get_real_extension_fn get_embedded_gps_fn
                  normalize_media_extension_fn run_exiftool_fn Hreader Hext
                  json_lookup max_path_length media_files w0) as Hret.
    pose proof (dry_loop_logs cfg float_of_str get_exif_datetime_fn
                  get_real_extension_fn get_embedded_gps_fn
                  normalize_media_extension_fn run_exiftool_fn
                  json_lookup max_path_length media_files w0) as Hlog.
    destruct (for_each media_files _ w0) as [r1 w1].
    cbn [fst] in Hret. subst r1. cbn [fst snd].
    split; [done|]. intros f Hf Hnot line Hline.
    by apply (Hlog w1 eq_refl f Hf).
Qed.

Lemma dry_run_changes_nothing_but_the_workbench_witness :
  let w := blank (sidecar_files (JStr $"1628503872") JNull) in
  let json_lookup :=
    Lookup.build_json_lookup (json_repository_dir cfg) [ $"IMG_0001.jpg.json" ] in
  let r := process_media_files cfg (fun _ => None) Tool.get_exif_datetime
             Tool.get_real_extension_from_exiftool Tool.get_embedded_gps
             Tool.normalize_media_extension Tool.run_exiftool
             [media_path] json_lookup false 240 w in
  r.1 = Ok (locals r.2)
  /\ In $"   - [DRY RUN] Would move media to '/lib/2021/08/IMG_0001'" (console r.2)
  /\ In $"   - [DRY RUN] Would embed timestamps from primary JSON" (console r.2).
Proof.
  intros w json_lookup r.
  destruct (proj2 (proj2 (dry_run_changes_nothing_but_the_workbench cfg
              (fun _ => None) Tool.get_exif_datetime
              Tool.get_real_extension_from_exiftool Tool.get_embedded_gps
              Tool.normalize_media_extension Tool.run_exiftool))
            ltac:(discriminate) ltac:(discriminate)
            [media_path] json_lookup 240%nat w) as [Hok Hlines].
  split; [exact Hok|].
  split; apply (Hlines media_path).
  - left.
  - compute_done.
  - vm_compute. left. reflexivity.
  - left.
  - compute_done.
  - vm_compute. right. left. reflexivity.
Defined.

End DryRunClaims.

(** ** The regular expressions of the suffix rules *)

Module SuffixFacts.
Import Py OsPath Suffix.

Lemma is_lparen_eq c : is_lparen c = true -> c = "("%char.
Proof. apply Ascii.eqb_eq. Qed.

Lemma is_rparen_eq c : is_rparen c = true -> c = ")"%char.
Proof. apply Ascii.eqb_eq. Qed.

Lemma is_dot_eq c : is_dot c = true -> c = "."%char.
Proof. apply Ascii.eqb_eq. Qed.

Lemma first_down_Some {A} (f : nat -> option A) n r :
  first_down f n = Some r -> exists i, (1 <= i <= n)%nat /\ f i = Some r.
Proof.
  induction n as [|n IH]; [discriminate|].
  cbn [first_down]. destruct (f (S n)) as [x|] eqn:E.
  - intros [= <-]. exists (S n). split; [lia | exact E].
  - intros H. destruct (IH H) as (i & Hi & Hf). exists i. split; [lia | exact Hf].
Qed.

Lemma first_down_None {A} (f : nat -> option A) n :
  (forall j, (1 <= j <= n)%nat -> f j = None) -> first_down f n = None.
Proof.
  induction n as [|n IH]; [reflexivity|]. intros H.
  cbn [first_down]. rewrite (H (S n)) by lia. apply IH. intros j Hj. apply H. lia.
Qed.

(** The greedy quantifier gives up the positions above [i] where the
    continuation fails, and stops at [i]. *)
Lemma first_down_skip {A} (f : nat -> option A) n i :
  (1 <= i <= n)%nat ->
  (forall j, (i < j <= n)%nat -> f j = None) ->
  first_down f n = match f i with
                   | Some r => Some r
                   | None => first_down f (i - 1)
                   end.
Proof.
  induction n as [|n IH]; [lia|]. intros Hi Hskip.
  destruct (decide (i = S n)) as [->|Hne].
  - cbn [first_down]. replace (S n - 1)%nat with n by lia. reflexivity.
  - cbn [first_down]. rewrite (Hskip (S n)) by lia.
    apply IH; [lia|]. intros j Hj. apply Hskip. lia.
Qed.

Lemma first_up_Some {A} (f : nat -> option A) lo cnt r :
  first_up f lo cnt = Some r ->
  exists i, (lo <= i < lo + cnt)%nat /\ f i = Some r.
Proof.
  revert lo. induction cnt as [|cnt IH]; intros lo; [discriminate|].
  cbn [first_up]. destruct (f lo) as [x|] eqn:E.
  - intros [= <-]. exists lo. split; [lia | exact E].
  - intros H. destruct (IH _ H) as (i & Hi & Hf). exists i. split; [lia | exact Hf].
Qed.

Lemma first_up_None {A} (f : nat -> option A) lo cnt :
  (forall j, (lo <= j < lo + cnt)%nat -> f j = None) -> first_up f lo cnt = None.
Proof.
  revert lo. induction cnt as [|cnt IH]; intros lo H; [reflexivity|].
  cbn [first_up]. rewrite (H lo) by lia. apply IH. intros j Hj. apply H. lia.
Qed.

Lemma span_len_take p (s : str) n :
  (n <= span_len p s)%nat -> forallb p (take n s) = true /\ length (take n s) = n.
Proof.
  revert n. induction s as [|c s IH]; intros [|n]; cbn [span_len take forallb length];
    try (split; [reflexivity | lia]); try lia.
  destruct (p c) eqn:E; [|lia]. intros Hn.
  destruct (IH n ltac:(lia)) as [H1 H2]. rewrite H1, H2. split; reflexivity.
Qed.

Lemma span_len_all p (s r : str) :
  forallb p s = true -> (length s <= span_len p (s ++ r))%nat.
Proof.
  induction s as [|c s IH]; cbn [forallb span_len app length]; [lia|].
  intros [Hc Hs]%andb_prop. rewrite Hc. specialize (IH Hs). lia.
Qed.

Lemma span_len_stop p (s : str) c r :
  forallb p s = true -> p c = false -> span_len p (s ++ c :: r) = length s.
Proof.
  induction s as [|a s IH]; cbn [forallb span_len app length].
  - intros _ ->. reflexivity.
  - intros [Ha Hs]%andb_prop Hc. rewrite Ha, IH by assumption. reflexivity.
Qed.

Lemma span_len_nil_r p (s : str) :
  forallb p s = true -> span_len p s = length s.
Proof.
  induction s as [|a s IH]; cbn [forallb span_len length]; [reflexivity|].
  intros [Ha Hs]%andb_prop. rewrite Ha, IH by assumption. reflexivity.
Qed.

(** A match of [\((\d{1,3})\)] or [\((\d+)\)] spells out a parenthesised
    run of digits. *)
Lemma re_paren_digits_Some {A} bound (k : str -> str -> option A) r x :
  (forall n, (bound n <= n)%nat) ->
  re_paren_digits bound k r = Some x ->
  exists num r2,
    r = paren num ++ r2 /\ forallb is_digit num = true
    /\ (1 <= length num)%nat /\ (exists m, (length num <= bound m)%nat)
    /\ k num r2 = Some x.
Proof.
  intros Hb. unfold re_paren_digits. destruct r as [|c r1]; [discriminate|].
  destruct (is_lparen c) eqn:Ec; [|discriminate].
  apply is_lparen_eq in Ec as ->.
  intros (n & Hn & Hf)%first_down_Some.
  destruct (drop n r1) as [|c2 r2] eqn:Ed; [discriminate|].
  destruct (is_rparen c2) eqn:Ec2; [|discriminate].
  apply is_rparen_eq in Ec2 as ->.
  destruct (span_len_take is_digit r1 n) as [Hd Hl].
  { pose proof (Hb (span_len is_digit r1)). lia. }
  exists (take n r1), r2. repeat split.
  - unfold paren. cbn [app list_ascii_of_string]. f_equal.
    rewrite <- (take_drop n r1) at 1. rewrite Ed, <- app_assoc. reflexivity.
  - exact Hd.
  - lia.
  - exists (span_len is_digit r1). lia.
  - exact Hf.
Qed.

(** On a parenthesised run of digits of an accepted length the expression
    matches, and the continuation decides. *)
Lemma re_paren_digits_digits {A} bound (k : str -> str -> option A) num r2 :
  forallb is_digit num = true -> (1 <= length num)%nat ->
  bound (length num) = length num ->
  re_paren_digits bound k (paren num ++ r2) = k num r2.
Proof.
  intros Hd Hl Hb. unfold re_paren_digits, paren.
  cbn [app list_ascii_of_string]. rewrite <- app_assoc. cbn [app].
  change (is_lparen "(") with true. cbv iota.
  rewrite (span_len_stop is_digit num ")" r2 Hd eq_refl), Hb.
  rewrite (first_down_skip _ _ (length num)) by lia.
  rewrite drop_app_length. change (is_rparen ")") with true. cbv iota.
  rewrite take_app_length.
  destruct (k num r2); [reflexivity|].
  apply first_down_None. intros j Hj.
  rewrite drop_app_le by lia.
  destruct (drop j num) as [|c2 t] eqn:Ed.
  { apply (f_equal length) in Ed. rewrite length_drop in Ed. cbn in Ed. lia. }
  cbn [app]. destruct (is_rparen c2) eqn:Ec2; [|reflexivity].
  apply is_rparen_eq in Ec2 as ->.
  assert (In ")"%char num) as Hin.
  { apply list_elem_of_In. rewrite <- (take_drop j num), Ed.
    apply elem_of_app. right. left. }
  rewrite forallb_forall in Hd. specialize (Hd _ Hin). discriminate.
Qed.

Lemma forallb_not_elem (p : ascii -> bool) (s : str) c :
  forallb p s = true -> p c = false -> c ∉ s.
Proof.
  intros Hs Hc Hin%list_elem_of_In. rewrite forallb_forall in Hs.
  rewrite (Hs _ Hin) in Hc. discriminate.
Qed.

Lemma elem_of_drop {A} (x : A) n l : x ∈ drop n l -> x ∈ l.
Proof. rewrite <- (take_drop n l) at 2. intros H. apply elem_of_app. by right. Qed.

Lemma drop_succ (s : str) i c e : drop i s = c :: e -> drop (S i) s = e.
Proof.
  intros H. replace (S i) with (i + 1)%nat by lia.
  rewrite <- drop_drop, H. reflexivity.
Qed.

(** Where a name has one opening parenthesis, a parenthesised group can
    only start there. *)
Lemma drop_lparen_unique (pre x : str) i rest :
  "("%char ∉ pre -> "("%char ∉ x ->
  drop i (pre ++ "("%char :: x) = "("%char :: rest ->
  i = length pre /\ rest = x.
Proof.
  revert i. induction pre as [|a pre IH]; intros i Hpre Hx.
  - destruct i as [|i]; cbn [app drop length].
    + intros [= <-]. split; reflexivity.
    + intros H. exfalso. apply Hx, (elem_of_drop _ i). rewrite H. left.
  - apply not_elem_of_cons in Hpre as [Ha Hpre].
    destruct i as [|i]; cbn [app drop length].
    + intros [= ->]. congruence.
    + intros H. destruct (IH i Hpre Hx H) as [-> ->]. split; reflexivity.
Qed.

Lemma paren_group_unique (pre d post : str) i num r2 :
  "("%char ∉ pre -> "("%char ∉ post ->
  forallb is_digit d = true -> forallb is_digit num = true ->
  drop i (pre ++ paren d ++ post) = paren num ++ r2 ->
  i = length pre /\ num = d /\ r2 = post.
Proof.
  intros Hpre Hpost Hd Hnum. unfold paren.
  cbn [list_ascii_of_string app]. rewrite <- !app_assoc. cbn [app].
  intros H. apply drop_lparen_unique in H as [-> H]; [|exact Hpre|].
  - apply not_elem_of_app_cons_inv_l in H as (-> & _ & ->);
      [auto | by apply (forallb_not_elem is_digit) ..].
  - apply not_elem_of_app. split; [by apply (forallb_not_elem is_digit)|].
    apply not_elem_of_cons. split; [discriminate | exact Hpost].
Qed.

Lemma min3_le n : (Nat.min 3 n <= n)%nat.
Proof. lia. Qed.

(** What a match of either strict expression shows of the name: a group
    of one to three digits in parentheses, at some position. *)
Lemma re_suffix_before_ext_Some filename name num ext :
  re_suffix_before_ext filename = Some (name, num, ext) ->
  exists i r2,
    drop i filename = paren num ++ r2 /\ forallb is_digit num = true
    /\ (1 <= length num <= 3)%nat /\ name = take i filename
    /\ re_ext_eol r2 = Some ext.
Proof.
  unfold re_suffix_before_ext. intros (i & _ & H)%first_down_Some.
  apply (re_paren_digits_Some _ _ _ _ min3_le) in H
    as (n & r2 & Hr & Hd & Hl & [m Hm] & Hk).
  destruct (re_ext_eol r2) as [e|] eqn:Ee; [|discriminate].
  injection Hk as <- <- <-. exists i, r2. repeat split; auto; lia.
Qed.

Lemma re_suffix_after_ext_Some filename base num :
  re_suffix_after_ext filename = Some (base, num) ->
  exists i r2,
    drop i filename = paren num ++ r2 /\ forallb is_digit num = true
    /\ (1 <= length num <= 3)%nat /\ at_eol r2 = true.
Proof.
  unfold re_suffix_after_ext. intros (i & _ & H)%first_down_Some.
  destruct (drop i filename) as [|c e] eqn:Ed; [discriminate|].
  destruct (is_dot c); [|discriminate].
  apply first_down_Some in H as (j & _ & H).
  apply (re_paren_digits_Some _ _ _ _ min3_le) in H
    as (n & r2 & Hr & Hd & Hl & [m Hm] & Hk).
  destruct (at_eol r2) eqn:Ee; [|discriminate].
  injection Hk as <- <-. exists (S i + j)%nat, r2.
  repeat split; auto; try lia.
  rewrite <- drop_drop, (drop_succ _ _ _ _ Ed). exact Hr.
Qed.

(** A name whose only parenthesised group is not one to three digits long
    matches neither strict expression. *)
Lemma strict_expressions_fail (pre d post : str) :
  "("%char ∉ pre -> "("%char ∉ post -> forallb is_digit d = true ->
  length d = 0%nat \/ (4 <= length d)%nat ->
  re_suffix_before_ext (pre ++ paren d ++ post) = None
  /\ re_suffix_after_ext (pre ++ paren d ++ post) = None.
Proof.
  intros Hpre Hpost Hd Hl. split.
  - destruct (re_suffix_before_ext _) as [[[name num] ext]|] eqn:E; [|reflexivity].
    apply re_suffix_before_ext_Some in E as (i & r2 & Hr & Hn & Hln & _).
    apply paren_group_unique in Hr as (_ & -> & _); auto. lia.
  - destruct (re_suffix_after_ext _) as [[base num]|] eqn:E; [|reflexivity].
    apply re_suffix_after_ext_Some in E as (i & r2 & Hr & Hn & Hln & _).
    apply paren_group_unique in Hr as (_ & -> & _); auto. lia.
Qed.

(** The candidates of a name that carries no duplicate suffix. *)
Lemma json_candidate_set_plain media :
  split_media_suffix media = (media, None, None, None) ->
  json_candidate_set media =
    List.map (fun variant => variant ++ $".json") (with_extension_variants media)
    ++ concat (List.map (fun variant =>
                 [variant ++ $".supplemental-metadata.json"; variant ++ $".sup.json"])
               (with_extension_variants media)).
Proof.
  intros H. unfold json_candidate_set. rewrite H.
  cbn [truthy andb List.map concat]. rewrite app_nil_r. reflexivity.
Qed.

End SuffixFacts.


(** ** Groups of four digits: the claim *)

Module YearGroups.
Import Py OsPath Suffix Matching Lookup SuffixFacts.

(** C6, as it is written, fails for the extractor of the supplemental
    index: [extract_google_suffix] accepts a run of digits of any length,
    so that the file of a name with a year in parentheses is also indexed
    under the name without the year. *)
Lemma google_suffix_accepts_a_year :
  extract_google_suffix $"IMG_1234(2020).JPG" = Some $"(2020)"
  /\ supplemental_base_keys $"IMG_1234(2020).JPG"
     = [ $"img_1234(2020).jpg"; $"img_1234.jpg" ]
  /\ (expected_supplemental_names false $"IMG_1234(2020).JPG").1 = $"IMG_1234.JPG".
Proof. repeat split; vm_compute; reflexivity. Qed.

(** C6 (amended): the strict operations, which the matching of sidecars to
    media uses, never take a parenthesised group of four or more digits
    (or of none) for a duplicate suffix: for every name whose only
    parenthesised group is such a group, [extract_strict_media_suffix]
    returns none, [split_media_suffix] finds no suffix, and the candidates
    are those of a name without a suffix. *)
Theorem strict_suffix_ignores_long_groups (pre d post : str) :
  "("%char ∉ pre -> "("%char ∉ post -> forallb is_digit d = true ->
  length d = 0%nat \/ (4 <= length d)%nat ->
  let filename := pre ++ paren d ++ post in
  extract_strict_media_suffix filename = None
  /\ split_media_suffix filename = (filename, None, None, None)
  /\ generate_json_candidates_for_media filename =
       sorted_set
         (List.map (fun variant => variant ++ $".json")
            (with_extension_variants filename)
          ++ concat (List.map (fun variant =>
                       [variant ++ $".supplemental-metadata.json";
                        variant ++ $".sup.json"])
                     (with_extension_variants filename))).
Proof.
  intros Hpre Hpost Hd Hl filename.
  destruct (strict_expressions_fail pre d post Hpre Hpost Hd Hl) as [Hb Ha].
  fold filename in Hb, Ha.
  assert (split_media_suffix filename = (filename, None, None, None)) as Hs.
  { unfold split_media_suffix. rewrite Hb, Ha. reflexivity. }
  split; [|split].
  - unfold extract_strict_media_suffix. rewrite Hb, Ha. reflexivity.
  - exact Hs.
  - unfold generate_json_candidates_for_media.
    rewrite (json_candidate_set_plain _ Hs). reflexivity.
Qed.

Lemma strict_suffix_ignores_long_groups_witness :
  extract_strict_media_suffix $"IMG_1234(2020).JPG" = None
  /\ split_media_suffix $"IMG_1234(2020).JPG"
     = ($"IMG_1234(2020).JPG", None, None, None).
Proof.
  destruct (strict_suffix_ignores_long_groups $"IMG_1234" $"2020" $".JPG")
    as (H1 & H2 & _).
  - compute_done.
  - compute_done.
  - reflexivity.
  - right. cbn. lia.
  - split; [exact H1 | exact H2].
Defined.

End YearGroups.

(** ** The candidate names of a media file *)

Module CandidateFacts.
Import Py OsPath Suffix Notions SuffixFacts.

Lemma string_of_uint_digits d :
  forallb is_digit (list_ascii_of_string (NilEmpty.string_of_uint d)) = true.
Proof. induction d; cbn; auto. Qed.

Lemma str_of_nat_digits n : forallb is_digit (str_of_nat n) = true.
Proof. apply string_of_uint_digits. Qed.

Lemma str_of_nat_inj m n : str_of_nat m = str_of_nat n -> m = n.
Proof.
  unfold str_of_nat. intros H.
  apply (f_equal string_of_list_ascii) in H.
  rewrite !string_of_list_ascii_of_string in H.
  apply (f_equal NilEmpty.uint_of_string) in H. rewrite !NilEmpty.usu in H.
  injection H as H. apply (f_equal Nat.of_uint) in H.
  by rewrite !Unsigned.of_to in H.
Qed.

Lemma str_of_nat_length n :
  (1 <= n <= 999)%nat -> (1 <= length (str_of_nat n) <= 3)%nat.
Proof.
  intros Hn.
  assert (forallb (fun k => let l := length (str_of_nat k) in
                            (1 <=? l)%nat && (l <=? 3)%nat) (seq 1 999) = true) as H
    by (vm_compute; reflexivity).
  rewrite forallb_forall in H. specialize (H n). cbv zeta in H.
  specialize (H ltac:(apply in_seq; lia)). apply andb_prop in H as [H1 H2].
  apply Nat.leb_le in H1. apply Nat.leb_le in H2. lia.
Qed.

Lemma not_elem_forallb (c : ascii) (s : str) :
  c ∉ s -> forallb (fun x => negb (chr_eqb x c)) s = true.
Proof.
  induction s as [|a s IH]; [reflexivity|].
  intros [Ha Hs]%not_elem_of_cons. cbn [forallb]. rewrite (IH Hs), andb_true_r.
  apply negb_true_iff, Ascii.eqb_neq. congruence.
Qed.

Lemma truthy_nonempty (s : str) : s <> [] -> truthy (Some s) = true.
Proof. destruct s; [congruence | reflexivity]. Qed.

(** [(\.[^.]+)$] takes an extension without a dot whole. *)
Lemma re_ext_eol_ext (ext : str) :
  ext <> [] -> "."%char ∉ ext -> re_ext_eol ("."%char :: ext) = Some ("."%char :: ext).
Proof.
  intros Hne Hdot. unfold re_ext_eol. change (is_dot ".") with true. cbv iota.
  assert (span_len not_dot ext = length ext) as ->
    by (apply span_len_nil_r, (not_elem_forallb "."), Hdot).
  destruct ext as [|c ext]; [congruence|].
  rewrite (first_down_skip _ _ (length (c :: ext))) by (cbn [length]; lia).
  rewrite drop_all, firstn_all. reflexivity.
Qed.

(** On [name(N).ext] the first strict expression matches at the suffix. *)
Lemma re_suffix_before_ext_suffixed (name d ext : str) :
  name <> [] -> "010"%char ∉ name -> "("%char ∉ name ->
  forallb is_digit d = true -> (1 <= length d <= 3)%nat ->
  ext <> [] -> "."%char ∉ ext -> "("%char ∉ ext ->
  re_suffix_before_ext (name ++ paren d ++ "."%char :: ext)
  = Some (name, d, "."%char :: ext).
Proof.
  intros Hne Hnl Hlp Hd Hl Hext Hdot Hlpe. unfold re_suffix_before_ext.
  set (filename := name ++ paren d ++ "."%char :: ext).
  assert (length name <= span_len not_nl filename)%nat as Hspan
    by (apply span_len_all, (not_elem_forallb "010"), Hnl).
  assert (1 <= length name)%nat by (destruct name; [congruence | cbn; lia]).
  rewrite (first_down_skip _ _ (length name)).
  - unfold filename. rewrite drop_app_length, take_app_length.
    rewrite re_paren_digits_digits by (auto; lia).
    rewrite re_ext_eol_ext by assumption. reflexivity.
  - lia.
  - intros j Hj.
    destruct (re_paren_digits _ _ _) as [x|] eqn:E; [|reflexivity].
    apply (re_paren_digits_Some _ _ _ _ min3_le) in E
      as (n & r2 & Hr & Hdn & _).
    apply paren_group_unique in Hr as (-> & _); auto; [lia|].
    apply not_elem_of_cons. split; [discriminate | exact Hlpe].
Qed.

Lemma split_media_suffix_suffixed (name d ext : str) :
  name <> [] -> "010"%char ∉ name -> "("%char ∉ name ->
  forallb is_digit d = true -> (1 <= length d <= 3)%nat ->
  ext <> [] -> "."%char ∉ ext -> "("%char ∉ ext ->
  let media := name ++ paren d ++ "."%char :: ext in
  split_media_suffix media
  = (name ++ "."%char :: ext, Some (paren d),
     Some ((name ++ "."%char :: ext) ++ paren d), Some media).
Proof.
  intros. unfold split_media_suffix. subst media.
  rewrite re_suffix_before_ext_suffixed by assumption. reflexivity.
Qed.

Lemma startswith_app (p s : str) : startswith p s = true -> exists r, s = p ++ r.
Proof.
  revert s. induction p as [|x p IH]; intros s; [by exists s|].
  destruct s as [|y s]; [discriminate|]. cbn [startswith].
  intros [Hxy Hp]%andb_prop. apply Ascii.eqb_eq in Hxy as ->.
  destruct (IH _ Hp) as [r ->]. by exists r.
Qed.

Lemma contains_drop (needle hay : str) :
  contains needle hay = true -> exists i r, drop i hay = needle ++ r.
Proof.
  induction hay as [|c hay IH].
  - cbn [contains]. rewrite orb_false_r. intros [r ->]%startswith_app. by exists 0%nat, r.
  - cbn [contains]. intros [H|H]%orb_prop.
    + apply startswith_app in H as [r ->]. by exists 0%nat, r.
    + destruct (IH H) as (i & r & Hi). by exists (S i), r.
Qed.

Lemma app_cut_marker (d rest e rest' : str) c :
  c ∉ d -> c <> ")"%char ->
  rest ++ c :: e = d ++ ")"%char :: rest' ->
  exists r', rest = d ++ ")"%char :: r'.
Proof.
  revert rest. induction d as [|y d IH]; intros rest Hc Hc' Hr.
  - destruct rest as [|x rest]; cbn [app] in Hr.
    + congruence.
    + injection Hr as -> _. by exists rest.
  - apply not_elem_of_cons in Hc as [Hy Hc].
    destruct rest as [|x rest]; cbn [app] in Hr.
    + congruence.
    + injection Hr as -> Hr. destruct (IH _ Hc Hc' Hr) as [r' ->]. by exists r'.
Qed.

Section OnlyMarker.
Variable d : str.
Hypothesis d_no_lparen : "("%char ∉ d.

Lemma only_marker_free (s : str) : "("%char ∉ s -> only_marker d s.
Proof.
  intros Hs i rest H. exfalso. apply Hs, (elem_of_drop _ i). rewrite H. left.
Qed.

Lemma only_marker_app (a b : str) :
  only_marker d a -> only_marker d b -> only_marker d (a ++ b).
Proof.
  intros Ha Hb i rest. rewrite drop_app.
  destruct (drop i a) as [|c t] eqn:E; cbn [app].
  - apply Hb.
  - intros [= -> <-]. destruct (Ha _ _ E) as [rest' ->].
    exists (rest' ++ drop (i - length a) b). by rewrite <- app_assoc.
Qed.

Lemma only_marker_paren : only_marker d (paren d).
Proof.
  intros [|i] rest; unfold paren; cbn [list_ascii_of_string app drop].
  - intros [= <-]. by exists [].
  - intros H. exfalso.
    assert ("("%char ∈ d ++ [")"%char]) as [Hin|Hin]%elem_of_app
      by (apply (elem_of_drop _ i); rewrite H; left).
    + by apply d_no_lparen.
    + apply list_elem_of_singleton in Hin. discriminate.
Qed.

(** Cutting a name before a character that is neither in the marker nor
    its closing parenthesis does not cut a marker. *)
Lemma only_marker_cut (a : str) c (e : str) :
  c ∉ d -> c <> ")"%char -> only_marker d (a ++ c :: e) -> only_marker d a.
Proof.
  intros Hc Hc' H i rest E.
  destruct (H i (rest ++ c :: e)) as [rest' Hr].
  { rewrite drop_app, E. cbn [app]. f_equal.
    assert (i < length a)%nat.
    { destruct (decide (i < length a)%nat); [done|].
      rewrite drop_ge in E by lia. discriminate. }
    replace (i - length a)%nat with 0%nat by lia. reflexivity. }
  exact (app_cut_marker _ _ _ _ _ Hc Hc' Hr).
Qed.

(** A marker found in such a name is the marker [d]. *)
Lemma only_marker_contains (s m : str) :
  only_marker d s -> ")"%char ∉ d -> ")"%char ∉ m ->
  contains (paren m) s = true -> m = d.
Proof.
  intros Hs Hd Hm (i & r & Hi)%contains_drop. unfold paren in Hi.
  cbn [list_ascii_of_string app] in Hi. rewrite <- app_assoc in Hi.
  destruct (Hs _ _ Hi) as [rest' Hr]. cbn [app] in Hr.
  by apply not_elem_of_app_cons_inv_l in Hr as (-> & _).
Qed.

End OnlyMarker.

Lemma splitext_app (p a b : str) : splitext p = (a, b) -> p = a ++ b.
Proof.
  unfold splitext. repeat case_match; intros [= <- <-];
    by rewrite ?app_nil_r, ?take_drop.
Qed.

Lemma lower_chr_dot c : chr_eqb (lower_chr c) "."%char = true -> c = "."%char.
Proof.
  destruct c as [[] [] [] [] [] [] [] []]; intros H; vm_compute in H;
    try discriminate; reflexivity.
Qed.

Lemma str_eqb_lower_dot (ext s : str) :
  str_eqb (lower ext) ("."%char :: s) = true -> exists e, ext = "."%char :: e.
Proof.
  destruct ext as [|c e]; [discriminate|]. cbn [lower List.map str_eqb].
  intros [Hc _]%andb_prop. apply lower_chr_dot in Hc as ->. by exists e.
Qed.

(** The variants of a name: the name, and for a [.jpg] or [.jpeg] name the
    name with the other extension. *)
Lemma with_extension_variants_cases (x v : str) :
  In v (with_extension_variants x) ->
  v = x \/ exists nm e, x = nm ++ "."%char :: e
                        /\ (v = nm ++ $".jpeg" \/ v = nm ++ $".jpg").
Proof.
  unfold with_extension_variants. destruct (splitext x) as [nm ext] eqn:E.
  apply splitext_app in E as ->. intros [<-|H]; [by left|]. right.
  destruct (str_eqb (lower ext) $".jpg") eqn:E1.
  - apply str_eqb_lower_dot in E1 as [e ->]. destruct H as [<-|[]].
    exists nm, e. split; [reflexivity | by left].
  - destruct (str_eqb (lower ext) $".jpeg") eqn:E2; [|destruct H].
    apply str_eqb_lower_dot in E2 as [e ->]. destruct H as [<-|[]].
    exists nm, e. split; [reflexivity | by right].
Qed.

Lemma with_extension_variants_head (x : str) : In x (with_extension_variants x).
Proof. unfold with_extension_variants. destruct (splitext x). by left. Qed.

Lemma with_extension_variants_marker (d x : str) :
  "("%char ∉ d -> "."%char ∉ d -> only_marker d x ->
  Forall (only_marker d) (with_extension_variants x).
Proof.
  intros Hd Hdot Hx. apply List.Forall_forall. intros v Hv.
  apply with_extension_variants_cases in Hv as [->|(nm & e & -> & Hv)]; [done|].
  apply only_marker_cut in Hx; [|done|discriminate].
  destruct Hv as [-> | ->];
    (apply only_marker_app; [done | apply only_marker_free; compute_done]).
Qed.

Lemma with_extension_variants_free (x : str) :
  "("%char ∉ x -> Forall (fun v => "("%char ∉ v) (with_extension_variants x).
Proof.
  intros Hx. apply List.Forall_forall. intros v Hv.
  apply with_extension_variants_cases in Hv as [->|(nm & e & -> & Hv)]; [done|].
  apply not_elem_of_app in Hx as [Hnm _].
  destruct Hv as [-> | ->]; apply not_elem_of_app; (split; [done | compute_done]).
Qed.

Lemma elem_of_sorted_set (x : str) (l : list str) : x ∈ sorted_set l <-> x ∈ l.
Proof.
  unfold sorted_set, sorted. by rewrite merge_sort_Permutation, elem_of_remove_dups.
Qed.

(** The candidates of a name that carries a duplicate suffix. *)
Lemma json_candidate_set_suffixed (media base sfx after : str) :
  split_media_suffix media = (base, Some sfx, Some after, Some media) ->
  sfx <> [] -> after <> [] -> media <> [] ->
  json_candidate_set media =
    let variants_with_ext :=
      concat (List.map with_extension_variants [media; after; media]) in
    List.map (fun variant => variant ++ $".json") variants_with_ext
    ++ (concat (List.map (fun base =>
                  [base ++ $".supplemental-metadata" ++ sfx ++ $".json";
                   base ++ $".sup" ++ sfx ++ $".json"])
                (with_extension_variants base))
        ++ concat (List.map (fun variant =>
                     [variant ++ $".supplemental-metadata.json";
                      variant ++ $".supplemental-metadata" ++ sfx ++ $".json";
                      variant ++ $".sup.json";
                      variant ++ $".sup" ++ sfx ++ $".json"])
                   variants_with_ext)).
Proof.
  intros H Hs Ha Hm. unfold json_candidate_set. rewrite H.
  rewrite !truthy_nonempty by assumption. reflexivity.
Qed.

Ltac marker :=
  lazymatch goal with
  | |- only_marker _ (_ ++ _) => apply only_marker_app; marker
  | |- only_marker _ (paren _) => apply only_marker_paren; assumption
  | |- only_marker _ (list_ascii_of_string _) => apply only_marker_free; compute_done
  | |- _ => assumption
  end.

(** Every opening parenthesis of a candidate of [name(N).ext] opens the
    marker of the media file. *)
Lemma json_candidate_set_marker (media base d after : str) :
  split_media_suffix media = (base, Some (paren d), Some after, Some media) ->
  after <> [] -> media <> [] ->
  "("%char ∉ d -> "."%char ∉ d ->
  only_marker d media -> only_marker d base -> only_marker d after ->
  Forall (only_marker d) (json_candidate_set media).
Proof.
  intros H Ha Hm Hd Hdot Mm Mb Mafter.
  rewrite (json_candidate_set_suffixed _ _ _ _ H) by (done || discriminate).
  cbv zeta.
  assert (Forall (only_marker d)
            (concat (List.map with_extension_variants [media; after; media]))) as HV.
  { apply List.Forall_concat. repeat constructor;
      by apply with_extension_variants_marker. }
  assert (Forall (only_marker d) (with_extension_variants base)) as HB
    by by apply with_extension_variants_marker.
  apply List.Forall_app; split; [|apply List.Forall_app; split].
  - apply List.Forall_map. eapply List.Forall_impl; [|exact HV].
    cbv beta. intros v Hv. marker.
  - apply List.Forall_concat, List.Forall_map. eapply List.Forall_impl; [|exact HB].
    cbv beta. intros v Hv. repeat constructor; marker.
  - apply List.Forall_concat, List.Forall_map. eapply List.Forall_impl; [|exact HV].
    cbv beta. intros v Hv. repeat constructor; marker.
Qed.

Lemma strict_expressions_fail_free (media : str) :
  "("%char ∉ media -> split_media_suffix media = (media, None, None, None).
Proof.
  intros Hm. unfold split_media_suffix.
  destruct (re_suffix_before_ext _) as [[[name num] ext]|] eqn:E.
  { apply re_suffix_before_ext_Some in E as (i & r2 & Hr & _).
    exfalso. apply Hm, (elem_of_drop _ i). rewrite Hr. left. }
  destruct (re_suffix_after_ext _) as [[base num]|] eqn:E'; [|reflexivity].
  apply re_suffix_after_ext_Some in E' as (i & r2 & Hr & _).
  exfalso. apply Hm, (elem_of_drop _ i). rewrite Hr. left.
Qed.

Lemma json_candidate_set_free (media : str) :
  "("%char ∉ media -> Forall (fun cand => "("%char ∉ cand) (json_candidate_set media).
Proof.
  intros Hm.
  rewrite (json_candidate_set_plain _ (strict_expressions_fail_free _ Hm)).
  pose proof (with_extension_variants_free _ Hm) as HV.
  apply List.Forall_app; split.
  - apply List.Forall_map. eapply List.Forall_impl; [|exact HV].
    cbv beta. intros v Hv. apply not_elem_of_app. split; [done | compute_done].
  - apply List.Forall_concat, List.Forall_map. eapply List.Forall_impl; [|exact HV].
    cbv beta. intros v Hv.
    repeat constructor; apply not_elem_of_app; (split; [done | compute_done]).
Qed.

Lemma contains_elem_lparen (m s : str) :
  contains (paren m) s = true -> "("%char ∈ s.
Proof.
  intros (i & r & Hi)%contains_drop. apply (elem_of_drop _ i). rewrite Hi. left.
Qed.

End CandidateFacts.


(** ** The candidates of a media file: the claim *)

Module Candidates.
Import Py OsPath Suffix Notions SuffixFacts CandidateFacts.

(** C2, as it is written, fails for names that have a parenthesised group
    of their own.  The candidates are built around the name of the media
    file, so a group in the name is in every candidate: [IMG(1)(2).jpg]
    carries the suffix [(2)] and its candidates contain [(1)]; [a(1)b.jpg]
    carries no suffix and its candidates contain [(1)]. *)
Lemma candidates_keep_the_groups_of_the_name :
  (split_media_suffix $"IMG(1)(2).jpg").1.1.2 = Some (paren (str_of_nat 2))
  /\ (($"IMG(1)(2).jpg.json") ∈ generate_json_candidates_for_media $"IMG(1)(2).jpg")
  /\ contains (paren (str_of_nat 1)) $"IMG(1)(2).jpg.json" = true
  /\ split_media_suffix $"a(1)b.jpg" = ($"a(1)b.jpg", None, None, None)
  /\ (($"a(1)b.jpg.json") ∈ generate_json_candidates_for_media $"a(1)b.jpg")
  /\ contains (paren (str_of_nat 1)) $"a(1)b.jpg.json" = true.
Proof. repeat split; try (vm_compute; reflexivity); compute_done. Qed.

(** C2 (amended): candidate generation adds no marker but the duplicate
    suffix of the media file itself.  For every media name [name(N).ext]
    with [1 <= N <= 999], where [name] and [ext] contain no opening
    parenthesis, the candidates contain both the [name(N).ext.json]
    placement and the [name.ext(N).json] placement, and every marker [(M)]
    in a candidate has [M = N]; and for every media name that contains no
    opening parenthesis, no candidate contains a marker [(M)]. *)
Theorem candidates_carry_only_the_media_suffix (name ext : str) (N : nat) (plain : str) :
  (name <> [] -> "010"%char ∉ name -> "("%char ∉ name ->
   ext <> [] -> "."%char ∉ ext -> "("%char ∉ ext ->
   (1 <= N <= 999)%nat ->
   let sfx := paren (str_of_nat N) in
   let media := name ++ sfx ++ "."%char :: ext in
   let cands := generate_json_candidates_for_media media in
   (name ++ sfx ++ "."%char :: ext ++ $".json") ∈ cands
   /\ (name ++ "."%char :: ext ++ sfx ++ $".json") ∈ cands
   /\ forall cand M,
        cand ∈ cands -> contains (paren (str_of_nat M)) cand = true -> M = N)
  /\ ("("%char ∉ plain ->
      forall cand M,
        cand ∈ generate_json_candidates_for_media plain ->
        contains (paren (str_of_nat M)) cand = false).
Proof.
  split.
  - intros Hne Hnl Hlp Hext Hdot Hlpe HN sfx media cands.
    pose proof (str_of_nat_digits N) as Hd.
    pose proof (str_of_nat_length N HN) as Hl.
    pose proof (split_media_suffix_suffixed name (str_of_nat N) ext
                  Hne Hnl Hlp Hd Hl Hext Hdot Hlpe) as Hs.
    cbv zeta in Hs. fold sfx in Hs. fold media in Hs.
    assert (media <> []) as Hm by (subst media; destruct name; [done | discriminate]).
    assert ((name ++ "."%char :: ext) ++ sfx <> []) as Ha
      by (destruct name; [done | discriminate]).
    assert (sfx <> []) as Hsfx by discriminate.
    subst cands. unfold generate_json_candidates_for_media.
    split; [|split].
    + apply elem_of_sorted_set, list_elem_of_In.
      rewrite (json_candidate_set_suffixed _ _ _ _ Hs Hsfx Ha Hm). cbv zeta.
      apply in_or_app. left.
      replace (name ++ sfx ++ "."%char :: ext ++ $".json") with (media ++ $".json")
        by (subst media; by rewrite <- !app_assoc).
      apply (in_map (fun variant => variant ++ $".json")).
      cbn [List.map concat]. apply in_or_app. left.
      apply with_extension_variants_head.
    + apply elem_of_sorted_set, list_elem_of_In.
      rewrite (json_candidate_set_suffixed _ _ _ _ Hs Hsfx Ha Hm). cbv zeta.
      apply in_or_app. left.
      replace (name ++ "."%char :: ext ++ sfx ++ $".json")
        with (((name ++ "."%char :: ext) ++ sfx) ++ $".json")
        by (by rewrite <- !app_assoc).
      apply (in_map (fun variant => variant ++ $".json")).
      cbn [List.map concat]. apply in_or_app. right. apply in_or_app. left.
      apply with_extension_variants_head.
    + intros cand M Hc HM.
      apply (proj1 (elem_of_sorted_set _ _)) in Hc.
      apply (proj1 (list_elem_of_In _ _)) in Hc.
      assert ("("%char ∉ str_of_nat N) as Hd1
        by by apply (forallb_not_elem is_digit).
      assert ("."%char ∉ str_of_nat N) as Hd2
        by by apply (forallb_not_elem is_digit).
      assert (only_marker (str_of_nat N) name) as Mn by by apply only_marker_free.
      assert (only_marker (str_of_nat N) ("."%char :: ext)) as Me.
      { apply only_marker_free, not_elem_of_cons. split; [discriminate | done]. }
      assert (only_marker (str_of_nat N) sfx) as Msfx by by apply only_marker_paren.
      assert (Forall (only_marker (str_of_nat N)) (json_candidate_set media)) as HF.
      { apply (json_candidate_set_marker _ _ _ _ Hs); auto;
          subst media; repeat (apply only_marker_app; auto). }
      rewrite List.Forall_forall in HF.
      apply str_of_nat_inj.
      eapply only_marker_contains with (s := cand); eauto;
        apply (forallb_not_elem is_digit); auto using str_of_nat_digits.
  - intros Hp cand M Hc.
    apply (proj1 (elem_of_sorted_set _ _)) in Hc.
      apply (proj1 (list_elem_of_In _ _)) in Hc.
    pose proof (json_candidate_set_free _ Hp) as HF.
    rewrite List.Forall_forall in HF. specialize (HF _ Hc).
    destruct (contains _ cand) eqn:E; [|reflexivity].
    apply contains_elem_lparen in E. done.
Qed.

Lemma candidates_carry_only_the_media_suffix_witness :
  (($"IMG_1234(2).JPG.json") ∈ generate_json_candidates_for_media $"IMG_1234(2).JPG")
  /\ (($"IMG_1234.JPG(2).json") ∈ generate_json_candidates_for_media $"IMG_1234(2).JPG")
  /\ forall cand M,
       cand ∈ generate_json_candidates_for_media $"IMG_1234.JPG" ->
       contains (paren (str_of_nat M)) cand = false.
Proof.
  destruct (candidates_carry_only_the_media_suffix
              $"IMG_1234" $"JPG" 2 $"IMG_1234.JPG") as [H1 H2].
  destruct H1 as (Ha & Hb & _);
    [discriminate | compute_done | compute_done | discriminate
    | compute_done | compute_done | lia |].
  split; [exact Ha | split; [exact Hb |]].
  apply H2. compute_done.
Defined.

End Candidates.

(** ** The index of sidecars and the matcher *)

Module MatchingFacts.
Import Py OsPath Suffix Matching Lookup Notions CandidateFacts.

Lemma rfind_none (p : ascii -> bool) (s : str) :
  (forall c, c ∈ s -> p c = false) -> rfind p s = (-1)%Z.
Proof.
  induction s as [|c s IH]; [reflexivity|]. intros H. cbn [rfind].
  rewrite IH by (intros x Hx; apply H; by right).
  rewrite (H c) by left. reflexivity.
Qed.

(** [rfind] finds the last character that satisfies [p]. *)
Lemma rfind_last (p : ascii -> bool) (a : str) c (b : str) :
  p c = true -> (forall x, x ∈ b -> p x = false) ->
  rfind p (a ++ c :: b) = Z.of_nat (length a).
Proof.
  intros Hc Hb. induction a as [|x a IH]; cbn [app rfind length].
  - rewrite (rfind_none _ _ Hb), Hc. reflexivity.
  - rewrite IH. destruct (0 <=? Z.of_nat (length a))%Z eqn:E; [lia|].
    apply Z.leb_gt in E. lia.
Qed.

Lemma is_sep_false (s : str) : "/"%char ∉ s -> forall x, x ∈ s -> is_sep x = false.
Proof.
  intros Hs x Hx. apply Ascii.eqb_neq. intros ->. done.
Qed.

Lemma basename_plain (s : str) : "/"%char ∉ s -> basename s = s.
Proof.
  intros Hs. unfold basename. by rewrite (rfind_none _ _ (is_sep_false _ Hs)).
Qed.

Lemma basename_after_sep (a b : str) :
  "/"%char ∉ b -> basename (a ++ "/"%char :: b) = b.
Proof.
  intros Hb. unfold basename.
  rewrite (rfind_last is_sep a "/" b eq_refl (is_sep_false _ Hb)).
  replace (Z.to_nat (Z.of_nat (length a) + 1)) with (length a + 1)%nat by lia.
  rewrite <- drop_drop, drop_app_length. reflexivity.
Qed.

Lemma endswith_sep (a : str) :
  endswith $"/" a = true -> exists a', a = a' ++ $"/".
Proof.
  unfold endswith. intros [r Hr]%startswith_app.
  exists (rev r). apply (f_equal (@rev ascii)) in Hr.
  rewrite rev_involutive in Hr. rewrite Hr. reflexivity.
Qed.

(** The path that [os.path.join] builds for a directory entry has the
    entry for its last component. *)
Lemma basename_join (json_dir filename : str) :
  "/"%char ∉ filename -> basename (join json_dir filename) = filename.
Proof.
  intros Hf. unfold join.
  destruct (startswith $"/" filename) eqn:E.
  { apply startswith_app in E as [r ->]. exfalso. apply Hf. left. }
  destruct json_dir as [|c json_dir']; [by apply basename_plain|].
  destruct (endswith $"/" (c :: json_dir')) eqn:E'.
  - apply endswith_sep in E' as [a' ->]. rewrite <- app_assoc.
    by apply basename_after_sep.
  - by apply basename_after_sep.
Qed.

Lemma build_json_lookup_fold (json_dir : str) (Q : str -> str -> Prop)
    (l : list str) (acc : gmap str str) :
  (forall k p, acc !! k = Some p -> Q k p) ->
  (forall filename, filename ∈ l -> Q (lower filename) (join json_dir filename)) ->
  forall k p,
    foldl (fun lookup filename =>
             if endswith $".json" (lower filename)
             then <[lower filename := join json_dir filename]> lookup
             else lookup) acc l !! k = Some p ->
    Q k p.
Proof.
  revert acc. induction l as [|f l IH]; intros acc Hacc Hl k p; cbn [foldl].
  - apply Hacc.
  - apply IH.
    + intros k' p'. destruct (endswith _ _); [|apply Hacc].
      intros [[<- <-]|[_ H]]%lookup_insert_Some; [apply Hl; left | by apply Hacc].
    + intros f' Hf'. apply Hl. by right.
Qed.

(** Every entry of the index built by [build_json_lookup] is the path of
    a listed file, under the lower-cased name of that file. *)
Lemma build_json_lookup_entry (json_dir : str) (listing : list str) k p :
  build_json_lookup json_dir listing !! k = Some p ->
  exists filename, filename ∈ listing /\ k = lower filename
                   /\ p = join json_dir filename.
Proof.
  apply (build_json_lookup_fold json_dir
           (fun k p => exists filename, filename ∈ listing /\ k = lower filename
                                        /\ p = join json_dir filename)).
  - intros k' p'. by rewrite lookup_empty.
  - intros f Hf. by exists f.
Qed.

Lemma build_json_lookup_names (json_dir : str) (listing : list str) k p :
  Forall (fun filename => "/"%char ∉ filename) listing ->
  build_json_lookup json_dir listing !! k = Some p ->
  lower (basename p) = k.
Proof.
  intros Hl (f & Hf & -> & ->)%build_json_lookup_entry.
  rewrite Forall_forall in Hl. by rewrite basename_join by auto.
Qed.

(** The supplemental-marker predicate looks at the lower-cased name only. *)
Lemma is_supplemental_json_name_lower (a b : str) :
  lower a = lower b -> is_supplemental_json_name a = is_supplemental_json_name b.
Proof. unfold is_supplemental_json_name. by intros ->. Qed.

Lemma match_step_fold (json_lookup : gmap str str) (candidates l : list str)
    (acc : list str * list str) :
  (forall name, name ∈ l -> name ∈ candidates) ->
  Forall (hit_of json_lookup candidates false) acc.1 ->
  Forall (hit_of json_lookup candidates true) acc.2 ->
  Forall (hit_of json_lookup candidates false)
    (foldl (match_step json_lookup) acc l).1
  /\ Forall (hit_of json_lookup candidates true)
       (foldl (match_step json_lookup) acc l).2.
Proof.
  revert acc. induction l as [|name l IH]; intros acc Hl H1 H2; cbn [foldl].
  - by split.
  - assert (name ∈ candidates) as Hn by (apply Hl; left).
    apply IH; [intros n Hn'; apply Hl; by right | |];
      unfold match_step;
      destruct (json_lookup !! lower name) as [[|c path]|] eqn:E; try done;
      destruct (is_supplemental_json_name name) eqn:Es; cbn [fst snd]; try done;
      apply Forall_app; (split; [done|]); repeat constructor; by exists name.
Qed.

(** The matcher returns entries of the index under candidate names only,
    each in the bucket that the supplemental-marker predicate chooses. *)
Lemma match_json_for_media_hits (media_filename : str) (json_lookup : gmap str str) :
  let candidates := generate_json_candidates_for_media media_filename in
  Forall (hit_of json_lookup candidates false)
    (match_json_for_media media_filename json_lookup).1
  /\ Forall (hit_of json_lookup candidates true)
       (match_json_for_media media_filename json_lookup).2.
Proof. intros candidates. by apply match_step_fold. Qed.

Lemma filter_none {A} (f : A -> bool) (l : list A) :
  (forall x, x ∈ l -> f x = false) -> List.filter f l = [].
Proof.
  induction l as [|x l IH]; [reflexivity|]. intros H. cbn [List.filter].
  rewrite (H x) by left. apply IH. intros y Hy. apply H. by right.
Qed.

(** The supplemental lookup keeps the indexed paths whose name is exactly
    an expected name, up to case. *)
Lemma find_all_supplemental_filter (reversed : bool) (name : str)
    (supplemental_index : gmap str (list str)) :
  let expected := (expected_supplemental_names reversed name).2 in
  let key := lower (expected_supplemental_names reversed name).1 in
  find_all_supplemental_for_basename reversed name supplemental_index
  = List.filter (fun path =>
              bool_decide (lower (basename path) ∈ List.map lower expected))
           (default [] (supplemental_index !! key)).
Proof.
  cbv zeta. unfold find_all_supplemental_for_basename.
  destruct (expected_supplemental_names reversed name) as [b e]. cbn [fst snd].
  by destruct (default [] (supplemental_index !! lower b)).
Qed.

End MatchingFacts.

(** ** Exact matching: the claim *)

Module ExactMatching.
Import Py OsPath Suffix Matching Lookup Notions MatchingFacts.

(** C8: matching is by exact candidate names.  Over the index that
    [build_json_lookup] builds from a directory listing, every path that
    [match_json_for_media] returns has a last component equal, up to case,
    to a generated candidate of the media file; a returned path is in the
    supplemental bucket if and only if its name satisfies the
    supplemental-marker predicate; and [find_all_supplemental_for_basename]
    returns only indexed paths whose name is, up to case, an expected
    exact name, hence the empty list when there is none. *)
Theorem matching_returns_exact_candidates
    (json_dir : str) (listing : list str) (media_filename : str)
    (reversed : bool) (name : str) (supplemental_index : gmap str (list str)) :
  Forall (fun filename => "/"%char ∉ filename) listing ->
  let json_lookup := build_json_lookup json_dir listing in
  let candidates := generate_json_candidates_for_media media_filename in
  let matched := match_json_for_media media_filename json_lookup in
  let expected := List.map lower (expected_supplemental_names reversed name).2 in
  let indexed :=
    default [] (supplemental_index
                  !! lower (expected_supplemental_names reversed name).1) in
  let found := find_all_supplemental_for_basename reversed name supplemental_index in
  (forall p, p ∈ matched.1 ++ matched.2 ->
     exists cand, cand ∈ candidates /\ lower (basename p) = lower cand)
  /\ (forall p, p ∈ matched.1 ++ matched.2 ->
        (p ∈ matched.2 <-> is_supplemental_json_name (basename p) = true))
  /\ (forall p, p ∈ found -> p ∈ indexed /\ lower (basename p) ∈ expected)
  /\ ((forall p, p ∈ indexed -> lower (basename p) ∉ expected) -> found = []).
Proof.
  intros Hl json_lookup candidates matched expected indexed found.
  destruct (match_json_for_media_hits media_filename json_lookup) as [H1 H2].
  fold candidates matched in H1, H2.
  rewrite Forall_forall in H1. rewrite Forall_forall in H2.
  assert (forall b p, hit_of json_lookup candidates b p ->
            (exists cand, cand ∈ candidates /\ lower (basename p) = lower cand)
            /\ is_supplemental_json_name (basename p) = b) as Hhit.
  { intros b p (cand & Hc & Hk & Hs).
    apply (build_json_lookup_names _ _ _ _ Hl) in Hk.
    split; [by exists cand|].
    by rewrite (is_supplemental_json_name_lower _ cand). }
  pose proof (find_all_supplemental_filter reversed name supplemental_index) as Hf.
  cbv zeta in Hf. fold expected indexed found in Hf.
  split; [|split; [|split]].
  - intros p [Hp|Hp]%elem_of_app.
    + apply (Hhit false), H1, Hp.
    + apply (Hhit true), H2, Hp.
  - intros p Hp. split.
    + intros Hp2. apply (Hhit true), H2, Hp2.
    + intros Hs. apply elem_of_app in Hp as [Hp|Hp]; [|done].
      destruct (Hhit false p (H1 _ Hp)) as [_ Hs']. congruence.
  - intros p. rewrite Hf. intros [Hp Hb]%list_elem_of_In%filter_In.
    split; [by apply list_elem_of_In|]. by apply bool_decide_eq_true in Hb.
  - intros Hnone. rewrite Hf.
    apply filter_none. intros p Hp. by apply bool_decide_eq_false_2, Hnone.
Qed.

Lemma matching_returns_exact_candidates_witness :
  let listing := [ $"IMG_1234.JPG.json"; $"IMG_1234.JPG.supplemental-metadata.json";
                   $"IMG_1234.JPG(2).json" ] in
  let matched := match_json_for_media $"IMG_1234.JPG"
                   (build_json_lookup $"/p/json" listing) in
  matched = ([ $"/p/json/IMG_1234.JPG.json" ],
             [ $"/p/json/IMG_1234.JPG.supplemental-metadata.json" ])
  /\ forall p, p ∈ matched.1 ++ matched.2 ->
       (p ∈ matched.2 <-> is_supplemental_json_name (basename p) = true).
Proof.
  intros listing matched. split; [vm_compute; reflexivity|].
  destruct (matching_returns_exact_candidates $"/p/json" listing $"IMG_1234.JPG"
              false $"IMG_1234.JPG" ∅) as (_ & H & _).
  - repeat constructor; compute_done.
  - exact H.
Defined.

End ExactMatching.

(** ** An existing destination: the claim *)

Module Collision.
Import Py OsPath Rt Sys Config Logs Paths Json Matching Lookup Workflow Recovery.
Import Notions Scenarios.

(** The workflow's own branch for an existing destination, on the input of
    the theorem below: the destination keeps its content, the warning is
    logged, the sidecar is copied beside it, and the source is entered in
    the ledger of files and in the set of processed files. *)
Lemma workflow_skips_an_existing_destination :
  let dest := $"/lib/2021/08/IMG_0001/IMG_0001.jpg" in
  let existing := Media (mk_media $"other pixels" None None $".jpg") in
  let fs := list_to_map [ (media_path, jpeg None);
                          (supplemental_path, sidecar (JStr $"1628503872"));
                          (dest, existing) ] in
  let r := process_media_files cfg (fun _ => None) Tool.get_exif_datetime
             Tool.get_real_extension_from_exiftool Tool.get_embedded_gps
             Tool.normalize_media_extension Tool.run_exiftool
             [media_path]
             (build_json_lookup $"/p/json-repository"
                [ $"IMG_0001.jpg.supplemental-metadata.json" ])
             true 240 (blank fs) in
  r.1 = Ok (mk_counts 1 1 1 0)
  /\ files r.2 !! dest = Some existing
  /\ files r.2 !! media_path = Some (jpeg None)
  /\ In $"   - WARNING: Media file already exists in destination. Skipping."
        (console r.2)
  /\ files r.2 !! $"/lib/2021/08/IMG_0001/IMG_0001.jpg.supplemental-metadata.json"
     = Some (sidecar (JStr $"1628503872"))
  /\ files r.2 !! processed_log_file cfg = Some (Text [media_path])
  /\ media_path ∈ processed_media_files r.2.
Proof.
  cbv zeta. do 3 (split; [vm_compute; reflexivity|]).
  split; [vm_compute; tauto|].
  do 2 (split; [vm_compute; reflexivity|]).
  compute_done.
Qed.

(** C7: the recovery path does not keep an existing destination as it is.
    A media file without embedded date, a supplemental sidecar with a
    timestamp, and a different file already at the destination: the
    recovery does not move the source, and then runs the metadata writer on
    the destination, so that the file that was there is stamped with the
    timestamp of the sidecar.  Nothing is logged and no ledger is written. *)
Theorem recovery_stamps_an_existing_destination :
  let dest := $"/lib/2021/08/IMG_0001/IMG_0001.jpg" in
  let existing := Media (mk_media $"other pixels" None None $".jpg") in
  let fs := list_to_map [ (media_path, jpeg None);
                          (supplemental_path, sidecar (JStr $"1628503872"));
                          (dest, existing) ] in
  let supplemental_index :=
    build_supplemental_index $"/p/json-repository"
      [ $"IMG_0001.jpg.supplemental-metadata.json" ] in
  let r := recover_media_with_fallback cfg (fun _ => None) false
             Tool.get_exif_datetime Tool.get_real_extension_from_exiftool
             Tool.get_embedded_gps Tool.normalize_media_extension Tool.run_exiftool
             media_path supplemental_index $"/lib" true 240 (blank fs) in
  r.1 = Ok (true, Some $"supplemental")
  /\ files r.2 !! dest
     = Some (Media (mk_media $"other pixels"
                      (Some (mk_datetime 2021 8 9 10 11 12)) None $".jpg"))
  /\ files r.2 !! dest <> Some existing
  /\ files r.2 !! media_path = Some (jpeg None)
  /\ console r.2 = []
  /\ files r.2 !! processed_log_file cfg = None
  /\ processed_media_files r.2 = ∅.
Proof.
  cbv zeta. do 2 (split; [vm_compute; reflexivity|]).
  split; [vm_compute; discriminate|].
  do 3 (split; [vm_compute; reflexivity|]).
  compute_done.
Qed.

End Collision.
